(** * TaskMeister: worker assignment engine

    A shallow embedding of [taskmeister.py]: the SQLite store with its schema
    and migration ([DatabaseManager]), the notification body
    ([EmailService._create_email_body]) and the part of [TaskMeisterApp]
    that reads and writes the store (house availability, batch commit,
    worker and house maintenance, history listing and export).

    Widgets are not modelled.  What the code reads from a widget (the
    selected worker, the check boxes, the spin boxes, the date picker, the
    answer to a dialog) is a field of the application state or an argument
    of the handler that reads it; what the code shows in a message box is
    the handler's result.

    The INSERT of the batch commit is modelled with the exceptions it
    raises for a reason inside the program: a history table that a failed
    initialisation left without a column, and a typed quantity beyond 64
    bits.  The statements on [workers] and [houses] and the SELECTs are
    modelled on a store that has those tables, as every store has on which
    the application gets through its start.  Failures of the environment
    are modelled in [initialize_database] and in sending the mail. *)

From stdpp Require Import base option list strings sorting gmap.
From Stdlib Require Import ZArith DecimalString.

Open Scope Z_scope.

(** ** The platform under the program

    Library functions whose definition is not part of the repository.  The
    development is parametric in them; [ascii_platform] further down is one
    concrete platform, used to run the model on examples. *)

Record Date := { year : Z; month : Z; day : Z }.
Record DateTime := { on_date : Date; hour : Z; minute : Z; second : Z }.

(** SQL statements that [initialize_database] sends through its cursor. *)
Inductive Stmt :=
  | CreateWorkers | CreateHouses | CreateHistory | TableInfo
  | AddAssignmentDate | BackfillAssignmentDate
  | AddEmailSent | BackfillEmailSent.

Class Platform := {
  (** [str.lower] *)
  str_lower : string → string;
  (** [datetime.strptime(s, '%Y-%m-%d')]; [None] when it raises *)
  strptime_Ymd : string → option Date;
  (** [datetime.strptime(s, '%Y-%m-%d %H:%M:%S')]; [None] when it raises *)
  strptime_YmdHMS : string → option DateTime;
  (** SQLite's [DATE(x)] on a nullable text value *)
  sql_DATE : option string → option string;
  (** whether the [sqlite3] driver opens a transaction before a statement
      that it meets outside of one (otherwise the statement is committed
      on its own) *)
  begins_transaction : Stmt → bool;
}.

(** ** Rows and store *)

Record Worker := { w_id : Z; w_name : string; w_email : string }.
Record House := { h_id : Z; h_name : string }.

(** A row of [assignment_history].  Every column but the key is nullable. *)
Record Assignment := {
  a_id : Z;
  a_worker_id : option Z;
  a_house_id : option Z;
  a_quantity : option Z;
  a_note : option string;
  a_date_assigned : option string;
  a_assignment_date : option string;
  a_email_sent : option Z;
}.

(** The database file.  [schema] maps the name of each existing table to
    its column names, as [PRAGMA table_info] lists them; the [seq_] fields
    are the AUTOINCREMENT counters. *)
Record Store := {
  schema : gmap string (list string);
  workers : list Worker;
  houses : list House;
  assignment_history : list Assignment;
  seq_workers : Z;
  seq_houses : Z;
  seq_history : Z;
}.

#[global] Instance Worker_eq_dec : EqDecision Worker.
Proof. solve_decision. Defined.
#[global] Instance House_eq_dec : EqDecision House.
Proof. solve_decision. Defined.
#[global] Instance Assignment_eq_dec : EqDecision Assignment.
Proof. solve_decision. Defined.
#[global] Instance Date_eq_dec : EqDecision Date.
Proof. solve_decision. Defined.
#[global] Instance Stmt_eq_dec : EqDecision Stmt.
Proof. solve_decision. Defined.

Definition set_workers (ws : list Worker) (s : Store) : Store :=
  {| schema := schema s; workers := ws; houses := houses s;
     assignment_history := assignment_history s;
     seq_workers := seq_workers s; seq_houses := seq_houses s;
     seq_history := seq_history s |}.

Definition set_houses (hs : list House) (s : Store) : Store :=
  {| schema := schema s; workers := workers s; houses := hs;
     assignment_history := assignment_history s;
     seq_workers := seq_workers s; seq_houses := seq_houses s;
     seq_history := seq_history s |}.

Definition set_history (cols : option (list string)) (rs : list Assignment)
    (s : Store) : Store :=
  {| schema := match cols with
               | Some c => <["assignment_history" := c]> (schema s)
               | None => schema s
               end;
     workers := workers s; houses := houses s;
     assignment_history := rs;
     seq_workers := seq_workers s; seq_houses := seq_houses s;
     seq_history := seq_history s |}.

(** ** Python and SQL idioms *)

(** Truth value of a nullable integer: [None] and [0] are false. *)
Definition truthy (v : option Z) : bool :=
  match v with
  | Some z => negb (z =? 0)
  | None => false
  end.

(** [x or ""] on a nullable string. *)
Definition or_empty (x : option string) : string := default "" x.

(** [str(n)] on an integer. *)
Definition str_of_Z (n : Z) : string := NilZero.string_of_int (Z.to_int n).

(** [needle in hay] on strings: [needle] is a prefix of some suffix. *)
Fixpoint is_substring (needle hay : string) : bool :=
  String.prefix needle hay ||
  match hay with
  | EmptyString => false
  | String _ rest => is_substring needle rest
  end.

(** A [dict] whose iteration order matters: keys in insertion order. *)
Fixpoint dict_set {V} (k : Z) (v : V) (d : list (Z * V)) : list (Z * V) :=
  match d with
  | [] => [(k, v)]
  | (k', v') :: d' =>
      if decide (k' = k) then (k, v) :: d' else (k', v') :: dict_set k v d'
  end.

Fixpoint dict_get {V} (k : Z) (d : list (Z * V)) : option V :=
  match d with
  | [] => None
  | (k', v') :: d' => if decide (k' = k) then Some v' else dict_get k d'
  end.

(** ** ORDER BY

    Text compares byte by byte (SQLite's BINARY collation); NULL sorts
    before every text.  Rows that compare equal have no specified order in
    SQL; the model breaks such ties as [merge_sort] does. *)

Definition name_le (h1 h2 : House) : Prop :=
  String.leb (h_name h1) (h_name h2).

Definition worker_name_le (w1 w2 : Worker) : Prop :=
  String.leb (w_name w1) (w_name w2).

Definition null_leb (x y : option string) : bool :=
  match x, y with
  | None, _ => true
  | Some _, None => false
  | Some a, Some b => String.leb a b
  end.

(** ** Queries of the application *)

(** [SELECT id, name FROM houses ORDER BY name ASC] *)
Definition select_houses (s : Store) : list House :=
  merge_sort name_le (houses s).

(** [SELECT id, name, email FROM workers ORDER BY name ASC] *)
Definition select_workers (s : Store) : list Worker :=
  merge_sort worker_name_le (workers s).

(** The WHERE clause of [_get_assigned_houses_for_date]. *)
Definition assigned_on (date_str : string) (a : Assignment) : Prop :=
  a_assignment_date a = Some date_str ∧ a_email_sent a = Some 1.

#[global] Instance assigned_on_dec d a : Decision (assigned_on d a).
Proof. unfold assigned_on. apply _. Defined.

(** [SELECT DISTINCT house_id FROM assignment_history
     WHERE assignment_date = ? AND email_sent = 1] *)
Definition _get_assigned_houses_for_date (s : Store) (date_str : string)
    : list (option Z) :=
  remove_dups (a_house_id <$> filter (assigned_on date_str) (assignment_history s)).

(** [strftime('%Y-%m-%d')] and [strftime('%d.%m.%Y')] on a date of the
    picker (years of four digits). *)
Definition pad2 (n : Z) : string :=
  if n <? 10 then "0" +:+ str_of_Z n else str_of_Z n.

Definition pad4 (n : Z) : string :=
  if n <? 10 then "000" +:+ str_of_Z n
  else if n <? 100 then "00" +:+ str_of_Z n
  else if n <? 1000 then "0" +:+ str_of_Z n
  else str_of_Z n.

Definition strftime_Ymd (d : Date) : string :=
  pad4 (year d) +:+ "-" +:+ pad2 (month d) +:+ "-" +:+ pad2 (day d).

Definition strftime_dmY (d : Date) : string :=
  pad2 (day d) +:+ "." +:+ pad2 (month d) +:+ "." +:+ pad4 (year d).

Definition strftime_dmYHM (t : DateTime) : string :=
  strftime_dmY (on_date t) +:+ " " +:+ pad2 (hour t) +:+ ":" +:+ pad2 (minute t).

(** The houses that [_refresh_houses] shows.  [selected_date] is [None]
    when there is no date picker (or reading it raised): then nothing
    counts as assigned. *)
Definition available_houses (s : Store) (selected_date : option Date)
    : list House :=
  let rows := select_houses s in
  let assigned_houses :=
    match selected_date with
    | Some d => _get_assigned_houses_for_date s (strftime_Ymd d)
    | None => []
    end in
  filter (λ h, Some (h_id h) ∉ assigned_houses) rows.

(** The availability rule in the words of the design: a house is taken on
    [date_str] when some record names it with that target date and the
    delivery flag set. *)
Definition has_delivered_record (s : Store) (date_str : string) (hid : Z)
    : Prop :=
  Exists (λ a, a_house_id a = Some hid ∧ assigned_on date_str a)
         (assignment_history s).

#[global] Instance has_delivered_record_dec s d hid :
  Decision (has_delivered_record s d hid).
Proof. unfold has_delivered_record. apply _. Defined.

Definition all_but_delivered (s : Store) (d : Date) : list House :=
  filter (λ h, ¬ has_delivered_record s (strftime_Ymd d) (h_id h))
         (select_houses s).

(** ** DatabaseManager: schema creation and migration

    [initialize_database] runs its statements through one connection.  A
    connection holds the store as last committed and the store as the
    statements executed so far have left it; the driver decides, statement
    by statement, whether a statement met outside a transaction opens one or
    is committed on its own ([begins_transaction]). *)

Definition workers_columns : list string := ["id"; "name"; "email"].
Definition houses_columns : list string := ["id"; "name"].
Definition history_columns : list string :=
  ["id"; "worker_id"; "house_id"; "quantity"; "note"; "date_assigned"].

(** The store with table [name] freshly created: no rows, counter unset. *)
Definition with_new_table (name : string) (s : Store) : Store :=
  if decide (name = "workers") then
    {| schema := <[name := workers_columns]> (schema s); workers := [];
       houses := houses s; assignment_history := assignment_history s;
       seq_workers := 0; seq_houses := seq_houses s;
       seq_history := seq_history s |}
  else if decide (name = "houses") then
    {| schema := <[name := houses_columns]> (schema s); workers := workers s;
       houses := []; assignment_history := assignment_history s;
       seq_workers := seq_workers s; seq_houses := 0;
       seq_history := seq_history s |}
  else
    {| schema := <[name := history_columns]> (schema s); workers := workers s;
       houses := houses s; assignment_history := [];
       seq_workers := seq_workers s; seq_houses := seq_houses s;
       seq_history := 0 |}.

(** [CREATE TABLE IF NOT EXISTS name (...)] *)
Definition create_table_if_not_exists (name : string) (s : Store) : Store :=
  match schema s !! name with
  | Some _ => s
  | None => with_new_table name s
  end.

(** [PRAGMA table_info(assignment_history)], column 1 of each row; no rows
    when the table does not exist. *)
Definition table_info (s : Store) : list string :=
  default [] (schema s !! "assignment_history").

Definition with_assignment_date (v : option string) (a : Assignment)
    : Assignment :=
  {| a_id := a_id a; a_worker_id := a_worker_id a;
     a_house_id := a_house_id a; a_quantity := a_quantity a;
     a_note := a_note a; a_date_assigned := a_date_assigned a;
     a_assignment_date := v; a_email_sent := a_email_sent a |}.

Definition with_email_sent (v : option Z) (a : Assignment) : Assignment :=
  {| a_id := a_id a; a_worker_id := a_worker_id a;
     a_house_id := a_house_id a; a_quantity := a_quantity a;
     a_note := a_note a; a_date_assigned := a_date_assigned a;
     a_assignment_date := a_assignment_date a; a_email_sent := v |}.

(** [ALTER TABLE assignment_history ADD COLUMN col ...]: every existing row
    reads the column's default.  [None] is an [sqlite3.OperationalError]
    (no such table, duplicate column name). *)
Definition add_column (col : string) (fill : Assignment → Assignment)
    (s : Store) : option Store :=
  match schema s !! "assignment_history" with
  | None => None
  | Some cols =>
      if decide (col ∈ cols) then None
      else Some (set_history (Some (cols ++ [col]))
                             (fill <$> assignment_history s) s)
  end.

(** [UPDATE assignment_history SET ... WHERE ...] reading and writing the
    columns [needs]; [None] when the table or one of the columns is
    missing. *)
Definition update_history (needs : list string)
    (change : Assignment → Assignment) (s : Store) : option Store :=
  match schema s !! "assignment_history" with
  | None => None
  | Some cols =>
      if decide (needs ⊆ cols)
      then Some (set_history None (change <$> assignment_history s) s)
      else None
  end.

Definition run_stmt `{Platform} (st : Stmt) (s : Store) : option Store :=
  match st with
  | CreateWorkers => Some (create_table_if_not_exists "workers" s)
  | CreateHouses => Some (create_table_if_not_exists "houses" s)
  | CreateHistory => Some (create_table_if_not_exists "assignment_history" s)
  | TableInfo => Some s
  | AddAssignmentDate =>
      add_column "assignment_date" (with_assignment_date None) s
  | BackfillAssignmentDate =>
      update_history ["assignment_date"; "date_assigned"]
        (λ a, if a_assignment_date a is None
              then with_assignment_date (sql_DATE (a_date_assigned a)) a
              else a) s
  | AddEmailSent =>
      add_column "email_sent" (with_email_sent (Some 1)) s
  | BackfillEmailSent =>
      update_history ["email_sent"]
        (λ a, if a_email_sent a is None
              then with_email_sent (Some 1) a else a) s
  end.

Inductive sqlite3_Error :=
  | StatementError (st : Stmt)
  | CommitError.

(** What the program writes to standard output. *)
Inductive Printed :=
  | Line (text : string)
  | ErrorLine (text : string) (e : sqlite3_Error).

Record Connection := {
  committed : Store;
  working : Store;
  in_transaction : bool;
  stdout : list Printed;
}.

(** Failures of the environment (file cannot be opened, disk error, locked
    database): which calls raise. *)
Record Faults := {
  connect_fails : bool;
  stmt_fails : Stmt → bool;
  commit_fails : bool;
}.

Definition no_faults : Faults :=
  {| connect_fails := false; stmt_fails := λ _, false; commit_fails := false |}.

Definition Cursor (A : Type) : Type :=
  Connection → (sqlite3_Error + A) * Connection.

Definition cursor_ret {A} (x : A) : Cursor A := λ c, (inr x, c).

Definition cursor_bind {A B} (m : Cursor A) (k : A → Cursor B) : Cursor B :=
  λ c, match m c with
       | (inl e, c') => (inl e, c')
       | (inr x, c') => k x c'
       end.

Notation "x ←c m ;; k" := (cursor_bind m (λ x, k))
  (at level 100, m at next level, right associativity).
Notation "m ;;c k" := (cursor_bind m (λ _, k))
  (at level 100, right associativity).

Definition connect (s : Store) : Connection :=
  {| committed := s; working := s; in_transaction := false; stdout := [] |}.

(** [cursor.execute(st)] *)
Definition execute `{Platform} (f : Faults) (st : Stmt) : Cursor unit := λ c,
  if stmt_fails f st then (inl (StatementError st), c)
  else match run_stmt st (working c) with
       | None => (inl (StatementError st), c)
       | Some s' =>
           if in_transaction c || begins_transaction st
           then (inr (), {| committed := committed c; working := s';
                            in_transaction := true; stdout := stdout c |})
           else (inr (), {| committed := s'; working := s';
                            in_transaction := false; stdout := stdout c |})
       end.

(** [cursor.fetchall()] after the PRAGMA *)
Definition fetch_table_info : Cursor (list string) := λ c,
  (inr (table_info (working c)), c).

Definition print (p : Printed) : Cursor unit := λ c,
  (inr (), {| committed := committed c; working := working c;
              in_transaction := in_transaction c;
              stdout := stdout c ++ [p] |}).

(** [conn.commit()] *)
Definition commit (f : Faults) : Cursor unit := λ c,
  if commit_fails f then (inl CommitError, c)
  else (inr (), {| committed := working c; working := working c;
                   in_transaction := false; stdout := stdout c |}).

(** [conn.rollback()] *)
Definition rollback (c : Connection) : Connection :=
  {| committed := committed c; working := committed c;
     in_transaction := false; stdout := stdout c |}.

(** [conn.close()]: what stays in the file is what was committed. *)
Definition close (c : Connection) : Store := committed c.

Definition _create_tables `{Platform} (f : Faults) : Cursor unit :=
  execute f CreateWorkers ;;c
  execute f CreateHouses ;;c
  execute f CreateHistory.

Definition _migrate_database `{Platform} (f : Faults) : Cursor unit :=
  execute f TableInfo ;;c
  columns ←c fetch_table_info ;;
  (if decide ("assignment_date" ∈ columns) then cursor_ret ()
   else execute f AddAssignmentDate ;;c
        execute f BackfillAssignmentDate ;;c
        print (Line "Added assignment_date column.")) ;;c
  (if decide ("email_sent" ∈ columns) then cursor_ret ()
   else execute f AddEmailSent ;;c
        execute f BackfillEmailSent ;;c
        print (Line "Added email_sent column.")).

(** The [try] block of [initialize_database]. *)
Definition init_body `{Platform} (f : Faults) : Cursor unit :=
  _create_tables f ;;c
  _migrate_database f ;;c
  commit f ;;c
  print (Line "Database initialized successfully.").

(** How a call ends for its caller. *)
Inductive Outcome := Returned | Raised.

Record InitResult := {
  outcome : Outcome;
  store_after : Store;
  printed : list Printed;
}.

(** [initialize_database]: [sqlite3.connect] is outside the [try]; an
    [sqlite3.Error] inside it is printed and followed by a rollback. *)
Definition initialize_database `{Platform} (f : Faults) (s : Store)
    : InitResult :=
  if connect_fails f then
    {| outcome := Raised; store_after := s; printed := [] |}
  else
    match init_body f (connect s) with
    | (inr _, c) =>
        {| outcome := Returned; store_after := close c;
           printed := stdout c |}
    | (inl e, c) =>
        let c' := rollback (snd (print (ErrorLine "Database initialization error: " e) c)) in
        {| outcome := Returned; store_after := close c';
           printed := stdout c' |}
    end.

(** [m] leaves what is committed alone, however it ends. *)
Definition keeps_committed {A} (m : Cursor A) : Prop :=
  ∀ c r c', m c = (r, c') → committed c' = committed c.

(** The reading of the error policy under which every schema error reaches
    the caller and leaves the store untouched. *)
Definition schema_errors_propagate : Prop :=
  ∀ (P : Platform) (f : Faults) (s : Store) e c,
    init_body f (connect s) = (inl e, c) →
    outcome (initialize_database f s) = Raised
    ∧ store_after (initialize_database f s) = s.

(** The second ALTER TABLE raises (a disk error, say); nothing else does. *)
Definition disk_full_at_email_sent : Faults :=
  {| connect_fails := false;
     stmt_fails := λ st, bool_decide (st = AddEmailSent);
     commit_fails := false |}.

(** [m] started on a connection that holds [s], committed and working,
    ends on such a connection, however it ends, and a result it returns
    satisfies [Q]. *)
Definition stays {A} (s : Store) (m : Cursor A) (Q : A → Prop) : Prop :=
  ∀ c r c', working c = s → committed c = s → m c = (r, c') →
    working c' = s ∧ committed c' = s ∧ ∀ x, r = inr x → Q x.

(** The columns that a history record has had since the first version of
    the table. *)
Definition base_columns (a : Assignment)
    : Z * option Z * option Z * option Z * option string * option string :=
  (a_id a, a_worker_id a, a_house_id a, a_quantity a, a_note a,
   a_date_assigned a).

(** Rows are rows of a table: without the table there are none. *)
Definition rows_have_table (s : Store) : Prop :=
  schema s !! "assignment_history" = None → assignment_history s = [].

(** [s] holds the history records of [s0], each with its first columns
    as they are in [s0]. *)
Definition same_records (s0 s : Store) : Prop :=
  rows_have_table s
  ∧ base_columns <$> assignment_history s
    = base_columns <$> assignment_history s0.

(** [m] keeps [I] true of what the connection holds, however it ends. *)
Definition preserves {A} (I : Store → Prop) (m : Cursor A) : Prop :=
  ∀ c r c', I (working c) → I (committed c) → m c = (r, c') →
    I (working c') ∧ I (committed c').

(** A store that the migration has nothing left to do on. *)
Definition migrated (s : Store) : Prop :=
  is_Some (schema s !! "workers") ∧ is_Some (schema s !! "houses") ∧
  match schema s !! "assignment_history" with
  | Some cols => "assignment_date" ∈ cols ∧ "email_sent" ∈ cols
  | None => False
  end.

#[global] Instance migrated_dec s : Decision (migrated s).
Proof. unfold migrated. destruct (schema s !! "assignment_history"); apply _. Defined.

(** The backfill reads [date_assigned]: a history table that still lacks
    [assignment_date] has to have that column. *)
Definition backfill_source_present (s : Store) : Prop :=
  match schema s !! "assignment_history" with
  | Some cols => "assignment_date" ∈ cols ∨ "date_assigned" ∈ cols
  | None => True
  end.

#[global] Instance backfill_source_present_dec s :
  Decision (backfill_source_present s).
Proof.
  unfold backfill_source_present.
  destruct (schema s !! "assignment_history"); apply _.
Defined.

Definition is_error_line (p : Printed) : Prop :=
  match p with ErrorLine _ _ => True | Line _ => False end.


(** [m] started in [c] raises nothing and ends in a connection and a
    result that satisfy [Q]. *)
Definition succeeds {A} (m : Cursor A) (c : Connection)
    (Q : A → Connection → Prop) : Prop :=
  ∃ x c', m c = (inr x, c') ∧ Q x c'.

(** ** A concrete platform

    ASCII text, dates and timestamps of fixed width, and the transaction
    rule of Python's [sqlite3] module in its default mode: a transaction is
    opened before UPDATE (and the other data-changing statements), not
    before CREATE, ALTER or PRAGMA. *)

Definition ascii_lower_char (c : Ascii.ascii) : Ascii.ascii :=
  let n := Ascii.nat_of_ascii c in
  if ((65 <=? n) && (n <=? 90))%nat then Ascii.ascii_of_nat (n + 32) else c.

Fixpoint ascii_lower (s : string) : string :=
  match s with
  | EmptyString => EmptyString
  | String c rest => String (ascii_lower_char c) (ascii_lower rest)
  end.

Definition digit_value (c : Ascii.ascii) : option Z :=
  let n := Ascii.nat_of_ascii c in
  if ((48 <=? n) && (n <=? 57))%nat then Some (Z.of_nat n - 48) else None.

(** The number that a string of decimal digits writes. *)
Fixpoint digits_value (acc : Z) (s : string) : option Z :=
  match s with
  | EmptyString => Some acc
  | String c rest =>
      match digit_value c with
      | Some d => digits_value (10 * acc + d) rest
      | None => None
      end
  end.

Definition number_at (s : string) (start len : nat) : option Z :=
  let part := String.substring start len s in
  if decide (String.length part = len) then digits_value 0 part else None.

Definition char_at (s : string) (i : nat) (c : string) : bool :=
  bool_decide (String.substring i 1 s = c).

Definition fixed_date (s : string) : option Date :=
  match number_at s 0 4, number_at s 5 2, number_at s 8 2 with
  | Some y, Some m, Some d =>
      if char_at s 4 "-" && char_at s 7 "-"
         && (1 <=? m) && (m <=? 12) && (1 <=? d) && (d <=? 31)
      then Some {| year := y; month := m; day := d |}
      else None
  | _, _, _ => None
  end.

Definition fixed_Ymd (s : string) : option Date :=
  if decide (String.length s = 10%nat) then fixed_date s else None.

Definition fixed_YmdHMS (s : string) : option DateTime :=
  if decide (String.length s = 19%nat) then
    match fixed_date s, number_at s 11 2, number_at s 14 2, number_at s 17 2 with
    | Some d, Some h, Some mi, Some se =>
        if char_at s 10 " " && char_at s 13 ":" && char_at s 16 ":"
           && (h <=? 23) && (mi <=? 59) && (se <=? 59)
        then Some {| on_date := d; hour := h; minute := mi; second := se |}
        else None
    | _, _, _, _ => None
    end
  else None.

Definition legacy_begins_transaction (st : Stmt) : bool :=
  match st with
  | BackfillAssignmentDate | BackfillEmailSent => true
  | _ => false
  end.

Definition ascii_platform : Platform :=
  {| str_lower := ascii_lower;
     strptime_Ymd := fixed_Ymd;
     strptime_YmdHMS := fixed_YmdHMS;
     sql_DATE := fmap (String.substring 0 10);
     begins_transaction := legacy_begins_transaction |}.

(** The same platform with a driver that opens a transaction before every
    statement. *)
Definition transactional_platform : Platform :=
  {| str_lower := ascii_lower;
     strptime_Ymd := fixed_Ymd;
     strptime_YmdHMS := fixed_YmdHMS;
     sql_DATE := fmap (String.substring 0 10);
     begins_transaction := λ _, true |}.

(** Stores used in examples: an empty file, and a file written by a version
    of the program that had neither [assignment_date] nor [email_sent]. *)
Definition empty_store : Store :=
  {| schema := ∅; workers := []; houses := []; assignment_history := [];
     seq_workers := 0; seq_houses := 0; seq_history := 0 |}.

Definition legacy_row : Assignment :=
  {| a_id := 1; a_worker_id := Some 1; a_house_id := Some 1;
     a_quantity := Some 2; a_note := Some "keys at the door";
     a_date_assigned := Some "2024-04-30 18:05:11";
     a_assignment_date := None; a_email_sent := None |}.

Definition legacy_store : Store :=
  {| schema := {[ "workers" := workers_columns; "houses" := houses_columns;
                  "assignment_history" := history_columns ]};
     workers := [ {| w_id := 1; w_name := "Ana"; w_email := "ana@x.com" |} ];
     houses := [ {| h_id := 1; h_name := "Northgate" |} ];
     assignment_history := [ legacy_row ];
     seq_workers := 1; seq_houses := 1; seq_history := 1 |}.


(** The three tables exist and [assignment_history] has columns [cols]. *)
Definition tables_ready (s : Store) (cols : list string) : Prop :=
  is_Some (schema s !! "workers") ∧ is_Some (schema s !! "houses") ∧
  schema s !! "assignment_history" = Some cols.


(** ** EmailService *)

(** One entry of the [assignments] list: a dict with the keys
    ['house_name'], ['quantity'] and ['note']. *)
Record EmailLine := { house_name : string; quantity : Z; note : string }.

Record Email := { to_email : string; subject : string; body : string }.

Definition nl : string := String (Ascii.ascii_of_nat 10) "".

(** [sep.join(l)] *)
Fixpoint str_join (sep : string) (l : list string) : string :=
  match l with
  | [] => ""
  | [x] => x
  | x :: rest => x +:+ sep +:+ str_join sep rest
  end.

(** The body of the loop of [_create_email_body]. *)
Definition email_line (a : EmailLine) : string :=
  let line := "- " +:+ house_name a +:+ " → " +:+ str_of_Z (quantity a)
              +:+ " bedding sets" in
  if decide (note a = "") then line
  else line +:+ " | Note: " +:+ note a.

Definition _create_email_body (worker_name : string)
    (assignments : list EmailLine) (assignment_date : string) : string :=
  let lines := foldl (λ lines a, lines ++ [email_line a]) [] assignments in
  let body := "Hello " +:+ worker_name +:+ "," +:+ nl +:+ nl in
  let body := body +:+ "Date: " +:+ assignment_date +:+ nl in
  let body := body +:+ "You have been assigned to the following houses:"
              +:+ nl +:+ nl in
  let body := body +:+ str_join nl lines in
  let body := body +:+ nl +:+ nl +:+ "Good luck with your work!" in
  body.

(** The message that [send_assignment_email] hands to the SMTP server. *)
Definition assignment_email (to worker_name : string)
    (assignments : list EmailLine) (assignment_date : string) : Email :=
  {| to_email := to;
     subject := "Work Assignment - " +:+ assignment_date;
     body := _create_email_body worker_name assignments assignment_date |}.

(** The house line as the interface description words it. *)
Definition template_line (a : EmailLine) : string :=
  let line := "- " +:+ house_name a +:+ " → " +:+ str_of_Z (quantity a)
              +:+ " units" in
  if decide (note a = "") then line
  else line +:+ " | Note: " +:+ note a.

Definition body_follows_template : Prop :=
  ∀ worker_name assignments assignment_date,
    _create_email_body worker_name assignments assignment_date
    = "Hello " +:+ worker_name +:+ "," +:+ nl +:+ nl
      +:+ "Date: " +:+ assignment_date +:+ nl
      +:+ "You have been assigned to the following houses:" +:+ nl +:+ nl
      +:+ str_join nl (template_line <$> assignments)
      +:+ nl +:+ nl +:+ "Good luck with your work!".

(** ** TaskMeisterApp: state *)

Record App := {
  db : Store;
  (** the date shown by the date picker; [None] without [tkcalendar] *)
  date_picker : option Date;
  (** check box and spin box of each house row, by house id *)
  house_vars : list (Z * Z);
  house_qty : list (Z * Z);
  house_notes : gmap Z string;
  all_houses : list House;
  workers_cache : list Worker;
  current_worker : option Worker;
}.

Definition set_db (s : Store) (app : App) : App :=
  {| db := s; date_picker := date_picker app; house_vars := house_vars app;
     house_qty := house_qty app; house_notes := house_notes app;
     all_houses := all_houses app; workers_cache := workers_cache app;
     current_worker := current_worker app |}.

Definition set_current_worker (w : option Worker) (app : App) : App :=
  {| db := db app; date_picker := date_picker app;
     house_vars := house_vars app; house_qty := house_qty app;
     house_notes := house_notes app; all_houses := all_houses app;
     workers_cache := workers_cache app; current_worker := w |}.

(** What a handler shows when it ends. *)
Inductive Shown :=
  | Nothing
  | ErrorBox (text : string)
  | InfoBox (text : string).

(** ** Statements of the application

    AUTOINCREMENT: a new key is one more than the largest key the table
    ever held. *)
Definition next_id (seq : Z) (ids : list Z) : Z :=
  foldr Z.max seq ids + 1.

(** [INSERT INTO workers(name, email) VALUES(?, ?)] *)
Definition insert_worker (name email : string) (s : Store) : Store :=
  let id := next_id (seq_workers s) (w_id <$> workers s) in
  {| schema := schema s;
     workers := workers s ++ [ {| w_id := id; w_name := name; w_email := email |} ];
     houses := houses s; assignment_history := assignment_history s;
     seq_workers := id; seq_houses := seq_houses s;
     seq_history := seq_history s |}.

(** [UPDATE workers SET name=?, email=? WHERE id=?] *)
Definition update_worker (name email : string) (id : Z) (s : Store) : Store :=
  set_workers
    ((λ w, if decide (w_id w = id)
           then {| w_id := id; w_name := name; w_email := email |} else w)
       <$> workers s) s.

(** [DELETE FROM workers WHERE id=?] *)
Definition delete_worker (id : Z) (s : Store) : Store :=
  set_workers (filter (λ w, w_id w ≠ id) (workers s)) s.

(** [INSERT INTO houses(name) VALUES(?)] *)
Definition insert_house (name : string) (s : Store) : Store :=
  let id := next_id (seq_houses s) (h_id <$> houses s) in
  {| schema := schema s; workers := workers s;
     houses := houses s ++ [ {| h_id := id; h_name := name |} ];
     assignment_history := assignment_history s;
     seq_workers := seq_workers s; seq_houses := id;
     seq_history := seq_history s |}.

(** [UPDATE houses SET name=? WHERE id=?] *)
Definition update_house (name : string) (id : Z) (s : Store) : Store :=
  set_houses
    ((λ h, if decide (h_id h = id) then {| h_id := id; h_name := name |} else h)
       <$> houses s) s.

(** [DELETE FROM houses WHERE id=?] *)
Definition delete_house (id : Z) (s : Store) : Store :=
  set_houses (filter (λ h, h_id h ≠ id) (houses s)) s.

(** The row that the INSERT of [_save_assignments_to_db] adds:
    [date_assigned] takes its default, CURRENT_TIMESTAMP, and [email_sent]
    the literal 1. *)
Definition new_assignment (id : Z) (now : string) (worker_id : Z)
    (sel : Z * Z * string) (assignment_date : string) : Assignment :=
  let '(house_id, qty, note) := sel in
  {| a_id := id; a_worker_id := Some worker_id; a_house_id := Some house_id;
     a_quantity := Some qty; a_note := Some note;
     a_date_assigned := Some now;
     a_assignment_date := Some assignment_date; a_email_sent := Some 1 |}.

(** The store with that row added under the next key. *)
Definition with_new_assignment (now : string) (worker_id : Z)
    (sel : Z * Z * string) (assignment_date : string) (s : Store) : Store :=
  let id := next_id (seq_history s) (a_id <$> assignment_history s) in
  {| schema := schema s; workers := workers s; houses := houses s;
     assignment_history :=
       assignment_history s
       ++ [ new_assignment id now worker_id sel assignment_date ];
     seq_workers := seq_workers s; seq_houses := seq_houses s;
     seq_history := id |}.

(** The columns that the INSERT names. *)
Definition insert_columns : list string :=
  ["worker_id"; "house_id"; "quantity"; "note"; "assignment_date";
   "email_sent"].

(** An SQLite INTEGER has 64 bits. *)
Definition fits_int64 (n : Z) : Prop := - 2 ^ 63 ≤ n < 2 ^ 63.

#[global] Instance fits_int64_dec n : Decision (fits_int64 n).
Proof. unfold fits_int64. apply _. Defined.

(** What the INSERT raises for a reason inside the program.  Preparing the
    statement raises [sqlite3.OperationalError] when the file has no table
    [assignment_history] or the table lacks a column that the statement
    names (a file that [initialize_database] left half migrated); binding
    the parameters raises [OverflowError] for an [int] beyond 64 bits. *)
Inductive InsertError :=
  | NoSuchTable
  | NoSuchColumn (col : string)
  | IntegerTooLarge.

(** [str(e)], as the driver words it. *)
Definition str_of_error (e : InsertError) : string :=
  match e with
  | NoSuchTable => "no such table: assignment_history"
  | NoSuchColumn col =>
      "table assignment_history has no column named " +:+ col
  | IntegerTooLarge => "Python int too large to convert to SQLite INTEGER"
  end.

(** The exception of the INSERT on [s], [None] when it goes through: the
    first named column that the table lacks, else an integer that does not
    fit. *)
Definition insert_error (s : Store) (worker_id : Z) (sel : Z * Z * string)
    : option InsertError :=
  match schema s !! "assignment_history" with
  | None => Some NoSuchTable
  | Some cols =>
      match filter (λ col, col ∉ cols) insert_columns with
      | col :: _ => Some (NoSuchColumn col)
      | [] =>
          if decide (fits_int64 worker_id ∧ fits_int64 sel.1.1
                     ∧ fits_int64 sel.1.2)
          then None else Some IntegerTooLarge
      end
  end.

(** [db_manager.execute] on the INSERT: the row is committed, or the
    exception leaves the file as it is. *)
Definition insert_assignment (now : string) (worker_id : Z)
    (sel : Z * Z * string) (assignment_date : string) (s : Store)
    : InsertError + Store :=
  match insert_error s worker_id sel with
  | Some e => inl e
  | None => inr (with_new_assignment now worker_id sel assignment_date s)
  end.

(** [_save_assignments_to_db]: one INSERT, committed on its own, for each
    selected house; the first INSERT that raises ends the loop, and the
    rows before it stay.  [clock k] is CURRENT_TIMESTAMP at the [k]-th
    INSERT that the handler executes.  The result is the file as the loop
    leaves it and the exception, if one was raised. *)
Fixpoint _save_assignments_to_db (clock : nat → string) (k : nat)
    (worker_id : Z) (selected_houses : list (Z * Z * string))
    (assignment_date : string) (s : Store) : Store * option InsertError :=
  match selected_houses with
  | [] => (s, None)
  | sel :: rest =>
      match insert_assignment (clock k) worker_id sel assignment_date s with
      | inr s' =>
          _save_assignments_to_db clock (S k) worker_id rest assignment_date s'
      | inl e => (s, Some e)
      end
  end.

(** The file after the INSERTs for [selected_houses] have all gone
    through. *)
Fixpoint with_new_assignments (clock : nat → string) (k : nat)
    (worker_id : Z) (selected_houses : list (Z * Z * string))
    (assignment_date : string) (s : Store) : Store :=
  match selected_houses with
  | [] => s
  | sel :: rest =>
      with_new_assignments clock (S k) worker_id rest assignment_date
        (with_new_assignment (clock k) worker_id sel assignment_date s)
  end.

(** Every INSERT of the batch goes through on [s]. *)
Definition insertable (s : Store) (worker_id : Z)
    (selected_houses : list (Z * Z * string)) : Prop :=
  Forall (λ sel, insert_error s worker_id sel = None) selected_houses.

#[global] Instance insertable_dec s worker_id selected :
  Decision (insertable s worker_id selected).
Proof. unfold insertable. apply _. Defined.


(** ** TaskMeisterApp: handlers *)

Definition _refresh_workers (app : App) : App :=
  {| db := db app; date_picker := date_picker app;
     house_vars := house_vars app; house_qty := house_qty app;
     house_notes := house_notes app; all_houses := all_houses app;
     workers_cache := select_workers (db app);
     current_worker := current_worker app |}.

Definition _clear_house_selections (app : App) : App :=
  {| db := db app; date_picker := date_picker app;
     house_vars := (λ kv, (kv.1, 0)) <$> house_vars app;
     house_qty := (λ kv, (kv.1, 1)) <$> house_qty app;
     house_notes := ∅; all_houses := all_houses app;
     workers_cache := workers_cache app;
     current_worker := current_worker app |}.

(** [_create_house_rows]: a check box (off) and a spin box (1) per house. *)
Definition _create_house_rows (available_houses : list House)
    (vars qty : list (Z * Z)) : list (Z * Z) * list (Z * Z) :=
  foldl (λ acc h, (dict_set (h_id h) 0 acc.1, dict_set (h_id h) 1 acc.2))
        (vars, qty) available_houses.

Definition _refresh_houses (app : App) : App :=
  let rows := select_houses (db app) in
  let available := available_houses (db app) (date_picker app) in
  let widgets := _create_house_rows available [] [] in
  {| db := db app; date_picker := date_picker app;
     house_vars := widgets.1; house_qty := widgets.2;
     house_notes := house_notes app; all_houses := rows;
     workers_cache := workers_cache app;
     current_worker := current_worker app |}.

(** [selection] is [curselection()]: the index of the selected line of the
    worker list, which is filled from [workers_cache]. *)
Definition _on_worker_select (selection : option nat) (app : App) : App :=
  match selection ≫= (λ i, workers_cache app !! i) with
  | Some w =>
      _refresh_houses (_clear_house_selections (set_current_worker (Some w) app))
  | None => app
  end.

Definition _unselect_worker (app : App) : App :=
  _refresh_houses (_clear_house_selections (set_current_worker None app)).

(** [result] is what the dialog returned: [None] when it was cancelled. *)
Definition _add_worker (result : option (string * string)) (app : App) : App :=
  match result with
  | Some (name, email) =>
      _refresh_workers (set_db (insert_worker name email (db app)) app)
  | None => app
  end.

Definition _edit_worker (selection : option nat)
    (result : option (string * string)) (app : App) : App * Shown :=
  match selection ≫= (λ i, workers_cache app !! i) with
  | None => (app, ErrorBox "Please select a worker to edit.")
  | Some worker_data =>
      match result with
      | Some (name, email) =>
          (_refresh_workers
             (set_db (update_worker name email (w_id worker_data) (db app)) app),
           Nothing)
      | None => (app, Nothing)
      end
  end.

Definition _delete_worker (selection : option nat) (confirmed : bool)
    (app : App) : App * Shown :=
  match selection ≫= (λ i, workers_cache app !! i) with
  | None => (app, ErrorBox "Please select a worker to delete.")
  | Some worker_data =>
      if confirmed then
        (_refresh_houses (_refresh_workers (set_current_worker None
           (set_db (delete_worker (w_id worker_data) (db app)) app))),
         Nothing)
      else (app, Nothing)
  end.

Definition _add_house (result : option string) (app : App) : App :=
  match result with
  | Some name => _refresh_houses (set_db (insert_house name (db app)) app)
  | None => app
  end.

(** [choice] is the line picked in the list dialog, [None] when the dialog
    was closed without a pick. *)
Definition _edit_house (choice : option nat) (result : option string)
    (app : App) : App * Shown :=
  let houses := select_houses (db app) in
  match houses with
  | [] => (app, InfoBox "No houses found to edit.")
  | _ =>
      match choice ≫= (λ i, houses !! i), result with
      | Some house_data, Some name =>
          (_refresh_houses
             (set_db (update_house name (h_id house_data) (db app)) app),
           Nothing)
      | _, _ => (app, Nothing)
      end
  end.

Definition _delete_house (choice : option nat) (confirmed : bool)
    (app : App) : App * Shown :=
  let houses := select_houses (db app) in
  match houses with
  | [] => (app, InfoBox "No houses found to delete.")
  | _ =>
      match choice ≫= (λ i, houses !! i) with
      | Some house_data =>
          if confirmed then
            (_refresh_houses
               (set_db (delete_house (h_id house_data) (db app)) app),
             Nothing)
          else (app, Nothing)
      | None => (app, Nothing)
      end
  end.

(** [save_comment] of [_open_comment_window]; [comment] is the stripped
    text. *)
Definition save_comment (house_id : Z) (comment : string) (app : App) : App :=
  {| db := db app; date_picker := date_picker app;
     house_vars := house_vars app; house_qty := house_qty app;
     house_notes := <[house_id := comment]> (house_notes app);
     all_houses := all_houses app; workers_cache := workers_cache app;
     current_worker := current_worker app |}.

(** The user ticks a check box or edits a spin box of a row on screen. *)
Definition set_var (k v : Z) (d : list (Z * Z)) : list (Z * Z) :=
  if dict_get k d is Some _ then dict_set k v d else d.

Definition tick_house (house_id v : Z) (app : App) : App :=
  {| db := db app; date_picker := date_picker app;
     house_vars := set_var house_id v (house_vars app);
     house_qty := house_qty app; house_notes := house_notes app;
     all_houses := all_houses app; workers_cache := workers_cache app;
     current_worker := current_worker app |}.

Definition type_quantity (house_id q : Z) (app : App) : App :=
  {| db := db app; date_picker := date_picker app;
     house_vars := house_vars app;
     house_qty := set_var house_id q (house_qty app);
     house_notes := house_notes app; all_houses := all_houses app;
     workers_cache := workers_cache app;
     current_worker := current_worker app |}.

(** The user changes the date of the picker; picking it in the calendar
    ([refresh]) also fires [_refresh_houses]. *)
Definition change_date (d : Date) (refresh : bool) (app : App) : App :=
  match date_picker app with
  | None => app
  | Some _ =>
      let app' :=
        {| db := db app; date_picker := Some d;
           house_vars := house_vars app; house_qty := house_qty app;
           house_notes := house_notes app; all_houses := all_houses app;
           workers_cache := workers_cache app;
           current_worker := current_worker app |} in
      if refresh then _refresh_houses app' else app'
  end.

(** The ticked rows, in the order of the rows: house, quantity, note. *)
Definition selected_houses (app : App) : list (Z * Z * string) :=
  (λ kv, (kv.1, default 1 (dict_get kv.1 (house_qty app)),
          default "" (house_notes app !! kv.1)))
    <$> filter (λ kv, kv.2 ≠ 0) (house_vars app).

(** [{house_id: house_name for house_id, house_name in self.all_houses}] *)
Definition house_names (app : App) : gmap Z string :=
  foldl (λ m h, <[h_id h := h_name h]> m) ∅ (all_houses app).

Definition _prepare_assignment_data (app : App)
    (selected : list (Z * Z * string)) : list EmailLine :=
  (λ sel, let '(house_id, qty, note) := sel in
          {| house_name := default ("House-" +:+ str_of_Z house_id)
                                   (house_names app !! house_id);
             quantity := qty; note := note |}) <$> selected.

(** What [_send_assignments] did besides changing the store: the message
    it handed to the mail server, if it got that far, and the box it
    showed. *)
Record SendReport := { handed_over : option Email; shown : Shown }.

(** [_send_assignments].  [smtp_error] is the exception that sending
    raises, [None] when the server accepts the message.  Whatever the
    [try] block raises, an INSERT or the sending, ends in the same
    [except]: an error box, and the form stays as it is. *)
Definition _send_assignments (clock : nat → string)
    (smtp_error : option string) (app : App) : App * SendReport :=
  match current_worker app with
  | None =>
      (app, {| handed_over := None; shown := ErrorBox "Please select a worker." |})
  | Some worker =>
      let selected := selected_houses app in
      match selected with
      | [] =>
          (app, {| handed_over := None;
                   shown := ErrorBox "Please select at least one house." |})
      | _ =>
          match date_picker app with
          | None =>
              (app, {| handed_over := None;
                       shown := ErrorBox "Date picker not available. Please install tkcalendar." |})
          | Some d =>
              let assignment_date := strftime_Ymd d in
              let date_formatted := strftime_dmY d in
              let assignments := _prepare_assignment_data app selected in
              let stored :=
                _save_assignments_to_db clock 0 (w_id worker) selected
                  assignment_date (db app) in
              let saved := set_db stored.1 app in
              let email :=
                assignment_email (w_email worker) (w_name worker)
                                 assignments date_formatted in
              match stored.2, smtp_error with
              | Some e, _ =>
                  (saved,
                   {| handed_over := None;
                      shown := ErrorBox ("Failed to send assignments: "
                                         +:+ str_of_error e) |})
              | None, None =>
                  (_refresh_houses (_clear_house_selections saved),
                   {| handed_over := Some email;
                      shown := InfoBox
                        ("Assignments sent successfully!" +:+ nl
                         +:+ "Recipient: " +:+ w_name worker +:+ " <"
                         +:+ w_email worker +:+ ">" +:+ nl
                         +:+ "Date: " +:+ date_formatted) |})
              | None, Some e =>
                  (saved,
                   {| handed_over := Some email;
                      shown := ErrorBox ("Failed to send assignments: " +:+ e) |})
              end
          end
      end
  end.


(** ** History

    The three history readers send the same SELECT:
    [assignment_history a JOIN workers w ON a.worker_id = w.id
     JOIN houses h ON a.house_id = h.id ORDER BY a.date_assigned DESC]. *)

Definition Joined : Type := Assignment * Worker * House.

Definition history_join (s : Store) : list Joined :=
  a ← assignment_history s;
  w ← filter (λ w, a_worker_id a = Some (w_id w)) (workers s);
  h ← filter (λ h, a_house_id a = Some (h_id h)) (houses s);
  [(a, w, h)].

(** [t1] may stand before [t2] under [date_assigned DESC]. *)
Definition recent_first (t1 t2 : Joined) : Prop :=
  null_leb (a_date_assigned t2.1.1) (a_date_assigned t1.1.1).

#[global] Instance recent_first_dec : RelDecision recent_first.
Proof. intros t1 t2. unfold recent_first. apply _. Defined.

(** A row of the result: the seven selected columns. *)
Record HistoryTuple := {
  t_worker_name : string;
  t_house_name : string;
  t_quantity : option Z;
  t_note : option string;
  t_assignment_date : option string;
  t_date_assigned : option string;
  t_email_sent : option Z;
}.

Definition select_columns (t : Joined) : HistoryTuple :=
  let '(a, w, h) := t in
  {| t_worker_name := w_name w; t_house_name := h_name h;
     t_quantity := a_quantity a; t_note := a_note a;
     t_assignment_date := a_assignment_date a;
     t_date_assigned := a_date_assigned a;
     t_email_sent := a_email_sent a |}.

Definition history_sorted (s : Store) : list Joined :=
  merge_sort recent_first (history_join s).

Definition history_query (s : Store) : list HistoryTuple :=
  select_columns <$> history_sorted s.

(** The values shown for a row, on screen and in the file. *)
Record HistoryRow := {
  r_worker : string;
  r_house : string;
  r_quantity : option Z;
  r_note : string;
  r_assignment_date : string;
  r_record_date : string;
  r_status : string;
}.

#[global] Instance HistoryRow_eq_dec : EqDecision HistoryRow.
Proof. solve_decision. Defined.

(** [strptime(x, '%Y-%m-%d').strftime('%d.%m.%Y')], and [x or ""] when
    that raises (a NULL, or text that is no such date). *)
Definition format_assignment_date `{Platform} (x : option string) : string :=
  match x ≫= strptime_Ymd with
  | Some d => strftime_dmY d
  | None => or_empty x
  end.

Definition format_record_date `{Platform} (x : option string) : string :=
  match x ≫= strptime_YmdHMS with
  | Some t => strftime_dmYHM t
  | None => or_empty x
  end.

Definition history_row `{Platform} (t : HistoryTuple) : HistoryRow :=
  {| r_worker := t_worker_name t; r_house := t_house_name t;
     r_quantity := t_quantity t; r_note := or_empty (t_note t);
     r_assignment_date := format_assignment_date (t_assignment_date t);
     r_record_date := format_record_date (t_date_assigned t);
     r_status := if truthy (t_email_sent t) then "Sent" else "Pending" |}.

(** [_load_history_data]: the rows put into the tree, in order. *)
Definition _load_history_data `{Platform} (s : Store) : list HistoryRow :=
  foldl (λ tree t, tree ++ [history_row t]) [] (history_query s).

(** The condition of [_apply_history_filter], on the lowered filter. *)
Definition matches `{Platform} (filter_text : string) (t : HistoryTuple)
    : bool :=
  is_substring filter_text (str_lower (t_worker_name t))
  || is_substring filter_text (str_lower (t_house_name t))
  || is_substring filter_text (str_lower (or_empty (t_note t))).

(** [_apply_history_filter]: the tree is emptied and refilled. *)
Definition _apply_history_filter `{Platform} (s : Store)
    (filter_text : string) : list HistoryRow :=
  let filter_text := str_lower filter_text in
  foldl (λ tree t, if matches filter_text t then tree ++ [history_row t]
                   else tree)
        [] (history_query s).

(** A cell handed to [csv.writer]. *)
Inductive Cell :=
  | Text (s : string)
  | Number (n : Z)
  | NoValue.

Definition csv_header : list Cell :=
  Text <$> ["Worker"; "House"; "Quantity"; "Note"; "Assignment Date";
            "Record Date"; "Status"].

Definition csv_cells (r : HistoryRow) : list Cell :=
  [ Text (r_worker r); Text (r_house r);
    from_option Number NoValue (r_quantity r); Text (r_note r);
    Text (r_assignment_date r); Text (r_record_date r); Text (r_status r) ].

(** The rows that [_export_history] writes, one [writerow] each. *)
Definition export_rows `{Platform} (s : Store) : list (list Cell) :=
  foldl (λ file t, file ++ [csv_cells (history_row t)])
        [csv_header] (history_query s).



(** ** Events

    Everything the user can make the running application do. *)
Inductive Event :=
  | WorkerSelect (selection : option nat)
  | UnselectWorker
  | AddWorker (result : option (string * string))
  | EditWorker (selection : option nat) (result : option (string * string))
  | DeleteWorker (selection : option nat) (confirmed : bool)
  | AddHouse (result : option string)
  | EditHouse (choice : option nat) (result : option string)
  | DeleteHouse (choice : option nat) (confirmed : bool)
  | SaveComment (house_id : Z) (comment : string)
  | TickHouse (house_id v : Z)
  | TypeQuantity (house_id q : Z)
  | ChangeDate (d : Date) (refresh : bool)
  | SendAssignments (clock : nat → string) (smtp_error : option string)
  | ShowHistory
  | FilterHistory (filter_text : string)
  | ExportHistory (filename : string) (io_error : option string).

Definition step (ev : Event) (app : App) : App :=
  match ev with
  | WorkerSelect sel => _on_worker_select sel app
  | UnselectWorker => _unselect_worker app
  | AddWorker r => _add_worker r app
  | EditWorker sel r => (_edit_worker sel r app).1
  | DeleteWorker sel c => (_delete_worker sel c app).1
  | AddHouse r => _add_house r app
  | EditHouse ch r => (_edit_house ch r app).1
  | DeleteHouse ch c => (_delete_house ch c app).1
  | SaveComment hid c => save_comment hid c app
  | TickHouse hid v => tick_house hid v app
  | TypeQuantity hid q => type_quantity hid q app
  | ChangeDate d r => change_date d r app
  | SendAssignments clock e => (_send_assignments clock e app).1
  | ShowHistory | FilterHistory _ | ExportHistory _ _ => app
  end.

Definition run (evs : list Event) (app : App) : App :=
  foldl (λ app ev, step ev app) app evs.

(** [TaskMeisterApp.__init__] on the store [s]: the database is
    initialised, then workers and houses are loaded.  [picker] is the date
    the picker starts with, [None] without [tkcalendar]. *)
Definition start `{Platform} (f : Faults) (picker : option Date) (s : Store)
    : option App :=
  let r := initialize_database f s in
  match outcome r with
  | Raised => None
  | Returned =>
      Some (_refresh_houses (_refresh_workers
        {| db := store_after r; date_picker := picker;
           house_vars := []; house_qty := []; house_notes := ∅;
           all_houses := []; workers_cache := []; current_worker := None |}))
  end.

(** ** A session used in examples *)

Definition may_first : Date := {| year := 2024; month := 5; day := 1 |}.

Definition noon (k : nat) : string :=
  "2024-04-30 12:00:0" +:+ str_of_Z (Z.of_nat k).

(** A fresh file, one worker, two houses. *)
Definition opened : App :=
  let app := default
    {| db := empty_store; date_picker := None; house_vars := [];
       house_qty := []; house_notes := ∅; all_houses := [];
       workers_cache := []; current_worker := None |}
    (start (H := ascii_platform) no_faults (Some may_first) empty_store) in
  run [ AddWorker (Some ("Ana", "ana@x.com"));
        AddHouse (Some "Northgate"); AddHouse (Some "Bayview") ] app.

(** Ana is selected and both houses are ticked, the second with quantity 2
    and a note. *)
Definition ready : App :=
  run [ WorkerSelect (Some 0%nat); TickHouse 1 1; TickHouse 2 1;
        TypeQuantity 2 2; SaveComment 2 "late ok" ] opened.


(** [needle] occurs in [hay]. *)
Definition contains (needle hay : string) : Prop :=
  ∃ before after, hay = before +:+ needle +:+ after.

Definition ana : Worker :=
  {| w_id := 1; w_name := "Ana"; w_email := "ana@x.com" |}.

(** The state in which both houses of the example have been assigned. *)
Definition assigned : App := (_send_assignments noon None ready).1.


(** Ana is selected and one house is ticked with quantity 0 typed into
    its spin box. *)
Definition zero_quantity : App :=
  run [ WorkerSelect (Some 0%nat); TickHouse 1 1; TypeQuantity 1 0 ] opened.

(** The record state machine as worded: a record that a commit has just
    inserted reads Pending. *)
Definition inserted_as_pending : Prop :=
  ∀ clock smtp_error app a,
    a ∈ assignment_history (db (_send_assignments clock smtp_error app).1) →
    a ∉ assignment_history (db app) →
    truthy (a_email_sent a) = false.

(** The validation as worded: a selection with a quantity below 1 makes
    the commit leave the store alone. *)
Definition rejects_bad_quantity : Prop :=
  ∀ clock smtp_error app,
    Exists (λ sel, sel.1.2 ≤ 0) (selected_houses app) →
    db (_send_assignments clock smtp_error app).1 = db app.


(** The store without the history records that satisfy [P]. *)
Definition forget_records (P : Assignment → Prop) `{!∀ a, Decision (P a)}
    (s : Store) : Store :=
  set_history None (filter (λ a, ¬ P a) (assignment_history s)) s.

(** What the history window lists and what the export writes, from the
    joined rows they are made of. *)
Definition listed `{Platform} (ts : list Joined) : list HistoryRow :=
  (λ t, history_row (select_columns t)) <$> ts.

Definition written `{Platform} (ts : list Joined) : list (list Cell) :=
  csv_header :: (csv_cells <$> listed ts).


(** The form agrees with the store: the caches hold what the SELECTs
    give, every row on screen has both its check box and its spin box and
    shows a stored house, and the selected worker is a stored worker. *)
Definition consistent (app : App) : Prop :=
  workers_cache app = select_workers (db app)
  ∧ all_houses app = select_houses (db app)
  ∧ (house_vars app).*1 = (house_qty app).*1
  ∧ (∀ k, k ∈ (house_vars app).*1 → ∃ h, h ∈ houses (db app) ∧ h_id h = k)
  ∧ (∀ w, current_worker app = Some w →
          ∃ w', w' ∈ workers (db app) ∧ w_id w' = w_id w).


(** Keys of a table: no key twice, none above the AUTOINCREMENT counter. *)
Definition table_keys_ok {A} (key : A → Z) (rows : list A) (seq : Z) : Prop :=
  NoDup (key <$> rows) ∧ Forall (λ r, key r ≤ seq) rows.

Definition keys_ok (s : Store) : Prop :=
  table_keys_ok w_id (workers s) (seq_workers s)
  ∧ table_keys_ok h_id (houses s) (seq_houses s)
  ∧ table_keys_ok a_id (assignment_history s) (seq_history s).

(** A key that the table has handed out and holds no more. *)
Definition retired {A} (key : A → Z) (rows : list A) (seq : Z) (k : Z) : Prop :=
  k ≤ seq ∧ k ∉ key <$> rows.


Definition worker_gone (k : Z) (s : Store) : Prop :=
  retired w_id (workers s) (seq_workers s) k.

Definition house_gone (k : Z) (s : Store) : Prop :=
  retired h_id (houses s) (seq_houses s) k.


(** A table that does not exist has no rows and no counter. *)
Definition absent_tables_empty (s : Store) : Prop :=
  (schema s !! "workers" = None → workers s = [] ∧ seq_workers s = 0)
  ∧ (schema s !! "houses" = None → houses s = [] ∧ seq_houses s = 0)
  ∧ (schema s !! "assignment_history" = None →
     assignment_history s = [] ∧ seq_history s = 0).


(** The history table of [s] holds [rows] under the columns [cols]. *)
Definition history_is (s : Store) (rows : list Assignment)
    (cols : list string) : Prop :=
  assignment_history s = rows
  ∧ schema s !! "assignment_history" = Some cols.

(** A record of the first version of the table as the migration leaves
    it. *)
Definition migrated_record `{Platform} (a : Assignment) : Assignment :=
  with_email_sent (Some 1)
    (with_assignment_date (sql_DATE (a_date_assigned a)) a).


(** The driver opens no transaction before CREATE, PRAGMA and ALTER: met
    outside a transaction they are committed at once (Python's [sqlite3]
    in its default mode). *)
Definition commits_schema_changes_at_once `{Platform} : Prop :=
  begins_transaction CreateWorkers = false
  ∧ begins_transaction CreateHouses = false
  ∧ begins_transaction CreateHistory = false
  ∧ begins_transaction TableInfo = false
  ∧ begins_transaction AddAssignmentDate = false.

(** The UPDATE that fills [assignment_date] raises; the connection and the
    statements before it do not. *)
Definition fails_at_first_backfill (f : Faults) : Prop :=
  connect_fails f = false
  ∧ stmt_fails f CreateWorkers = false
  ∧ stmt_fails f CreateHouses = false
  ∧ stmt_fails f CreateHistory = false
  ∧ stmt_fails f TableInfo = false
  ∧ stmt_fails f AddAssignmentDate = false
  ∧ stmt_fails f BackfillAssignmentDate = true.

Definition disk_full_at_first_backfill : Faults :=
  {| connect_fails := false;
     stmt_fails := λ st, bool_decide (st = BackfillAssignmentDate);
     commit_fails := false |}.

(** A connection outside a transaction, nothing printed yet. *)
Definition idle (s : Store) : Connection :=
  {| committed := s; working := s; in_transaction := false; stdout := [] |}.


(** ** Searching the house list *)

(** The inner loop of [_filter_houses]: the lowered name of the first
    house of the list with the key, or the empty string. *)
Fixpoint lowered_name `{Platform} (all_houses : list House) (house_id : Z)
    : string :=
  match all_houses with
  | [] => ""
  | h :: rest =>
      if decide (h_id h = house_id) then str_lower (h_name h)
      else lowered_name rest house_id
  end.

(** [_filter_houses]: for each row frame, in the order of the rows,
    whether it stays on screen ([grid]) or is taken off ([grid_remove]).
    [house_frames] is filled and emptied together with [house_vars], so
    the frames are the keys of [house_vars]. *)
Definition _filter_houses `{Platform} (search : string) (app : App)
    : list (Z * bool) :=
  let search_term := str_lower search in
  (λ house_id,
     (house_id, is_substring search_term
                  (lowered_name (all_houses app) house_id)))
    <$> (house_vars app).*1.


(** The audit log as worded: no operation of the application, its start
    included, updates or deletes a record that the table holds. *)
Definition no_operation_updates_a_record : Prop :=
  (∀ ev app a, a ∈ assignment_history (db app) →
               a ∈ assignment_history (db (step ev app)))
  ∧ (∀ (P : Platform) f picker s app a, start f picker s = Some app →
       a ∈ assignment_history s → a ∈ assignment_history (db app)).

(** The application started on the file of the first version while the
    second ALTER TABLE fails, so that the table has no [email_sent]; Ana is
    selected and Northgate is ticked. *)
Definition half_migrated : App :=
  let app := default
    {| db := empty_store; date_picker := None; house_vars := [];
       house_qty := []; house_notes := ∅; all_houses := [];
       workers_cache := []; current_worker := None |}
    (start (H := ascii_platform) disk_full_at_email_sent (Some may_first)
       legacy_store) in
  run [ WorkerSelect (Some 0%nat); TickHouse 1 1 ] app.

(** The session of the example with 2^63 typed into the spin box of
    Northgate, the second row. *)
Definition beyond_64_bits : App := run [ TypeQuantity 1 (2 ^ 63) ] ready.


(* ===================================================================== *)
(** * Properties *)
(* ===================================================================== *)

(** ** Orders *)

#[global] Instance name_le_trans : Transitive name_le.
Proof. intros h1 h2 h3. unfold name_le. apply (transitivity (R := String.le)). Qed.
#[global] Instance name_le_total : Total name_le.
Proof. intros h1 h2. unfold name_le. apply (total String.le). Qed.

Lemma StronglySorted_sublist {A} (R : relation A) (k l : list A) :
  k `sublist_of` l → StronglySorted R l → StronglySorted R k.
Proof.
  induction 1 as [|x k l Hkl IH|x k l Hkl IH]; intros Hl.
  - constructor.
  - apply StronglySorted_inv in Hl as [Hl Hx]. constructor; [auto|].
    apply Forall_forall. intros y Hy. rewrite Forall_forall in Hx.
    apply Hx. eapply sublist_subseteq; eauto.
  - apply StronglySorted_inv in Hl as [Hl _]. auto.
Qed.

(** ** Availability *)

Lemma assigned_house_iff (s : Store) (date_str : string) (hid : Z) :
  Some hid ∈ _get_assigned_houses_for_date s date_str
  ↔ has_delivered_record s date_str hid.
Proof.
  unfold _get_assigned_houses_for_date, has_delivered_record.
  rewrite elem_of_remove_dups, list_elem_of_fmap, Exists_exists.
  split.
  - intros (a & Heq & Ha). apply list_elem_of_filter in Ha as [Hon Ha].
    exists a. auto.
  - intros (a & Ha & Heq & Hon). exists a. split; [done|].
    apply list_elem_of_filter. auto.
Qed.

Lemma select_houses_sorted (s : Store) :
  StronglySorted name_le (select_houses s).
Proof. apply StronglySorted_merge_sort; apply _. Qed.

Lemma select_houses_perm (s : Store) : select_houses s ≡ₚ houses s.
Proof. apply merge_sort_Permutation. Qed.

(** C1. For every date D the houses offered are all houses in name order
    without those that some record with target date D and delivery flag 1
    names: no offered house has such a record, a stored house whose records
    for D all read Pending is offered, and the offered houses keep the name
    order of the full list. *)
Theorem available_houses_correct (s : Store) (D : Date) :
  available_houses s (Some D) = all_but_delivered s D
  ∧ (∀ h a, h ∈ available_houses s (Some D) → a ∈ assignment_history s →
       a_house_id a = Some (h_id h) →
       a_assignment_date a = Some (strftime_Ymd D) →
       a_email_sent a ≠ Some 1)
  ∧ (∀ h, h ∈ houses s →
       (∀ a, a ∈ assignment_history s → a_house_id a = Some (h_id h) →
             a_assignment_date a = Some (strftime_Ymd D) →
             truthy (a_email_sent a) = false) →
       h ∈ available_houses s (Some D))
  ∧ available_houses s (Some D) `sublist_of` select_houses s
  ∧ StronglySorted name_le (available_houses s (Some D))
  ∧ select_houses s ≡ₚ houses s
  ∧ StronglySorted name_le (select_houses s).
Proof.
  assert (Heq : available_houses s (Some D) = all_but_delivered s D).
  { unfold available_houses, all_but_delivered. apply list_filter_iff.
    intros h. by rewrite assigned_house_iff. }
  assert (Hsub : available_houses s (Some D) `sublist_of` select_houses s).
  { rewrite Heq. apply sublist_filter. }
  split_and!;
    [done| | |done| |apply select_houses_perm|apply select_houses_sorted].
  - intros h a Hh Ha Hid Hdate Hsent. rewrite Heq in Hh.
    apply list_elem_of_filter in Hh as [Hno _]. apply Hno.
    apply Exists_exists. exists a. unfold assigned_on. auto.
  - intros h Hh Hpending. rewrite Heq. apply list_elem_of_filter. split.
    + intros (a & Ha & Hid & Hdate & Hsent)%Exists_exists.
      specialize (Hpending a Ha Hid Hdate). by rewrite Hsent in Hpending.
    + by rewrite select_houses_perm.
  - eapply StronglySorted_sublist; [done|]. apply select_houses_sorted.
Qed.

(** ** Schema creation and migration *)

Section initialization.
Context `{Platform}.

Lemma succeeds_bind {A B} (m : Cursor A) (k : A → Cursor B) c Q :
  succeeds m c (λ x c', succeeds (k x) c' Q) → succeeds (cursor_bind m k) c Q.
Proof.
  intros (x & c' & Hm & y & c'' & Hk & HQ). exists y, c''.
  unfold cursor_bind. by rewrite Hm.
Qed.

Lemma succeeds_ret {A} (x : A) c (Q : A → Connection → Prop) :
  Q x c → succeeds (cursor_ret x) c Q.
Proof. intros HQ. by exists x, c. Qed.

Lemma succeeds_execute f st c s' (Q : unit → Connection → Prop) :
  stmt_fails f st = false →
  run_stmt st (working c) = Some s' →
  (∀ c', working c' = s' → stdout c' = stdout c → Q () c') →
  succeeds (execute f st) c Q.
Proof.
  intros Hf Hrun HQ. unfold succeeds, execute. rewrite Hf, Hrun.
  destruct (in_transaction c || begins_transaction st);
    eexists _, _; (split; [reflexivity|]); by apply HQ.
Qed.

Lemma succeeds_fetch_table_info c (Q : list string → Connection → Prop) :
  Q (table_info (working c)) c → succeeds fetch_table_info c Q.
Proof. intros HQ. by eexists _, _. Qed.

Lemma succeeds_print p c (Q : unit → Connection → Prop) :
  (∀ c', working c' = working c → committed c' = committed c →
         stdout c' = stdout c ++ [p] → Q () c') →
  succeeds (print p) c Q.
Proof. intros HQ. eexists _, _. split; [reflexivity|]. by apply HQ. Qed.

Lemma succeeds_commit f c (Q : unit → Connection → Prop) :
  commit_fails f = false →
  (∀ c', working c' = working c → committed c' = working c →
         stdout c' = stdout c → Q () c') →
  succeeds (commit f) c Q.
Proof.
  intros Hf HQ. unfold succeeds, commit. rewrite Hf.
  eexists _, _. split; [reflexivity|]. by apply HQ.
Qed.

Lemma initialize_database_succeeds f s (Q : Store → list Printed → Prop) :
  connect_fails f = false →
  succeeds (init_body f) (connect s) (λ _ c, Q (committed c) (stdout c)) →
  outcome (initialize_database f s) = Returned
  ∧ Q (store_after (initialize_database f s))
      (printed (initialize_database f s)).
Proof.
  intros Hf (x & c & Hrun & HQ). unfold initialize_database.
  rewrite Hf, Hrun. done.
Qed.
Lemma create_table_self name s :
  is_Some (schema (create_table_if_not_exists name s) !! name).
Proof.
  unfold create_table_if_not_exists.
  destruct (schema s !! name) eqn:Hn; [by rewrite Hn|].
  unfold with_new_table. repeat case_decide; simpl;
    rewrite lookup_insert_eq; eauto.
Qed.

Lemma create_table_other name name' s :
  name ≠ name' →
  schema (create_table_if_not_exists name s) !! name' = schema s !! name'.
Proof.
  intros Hne. unfold create_table_if_not_exists.
  destruct (schema s !! name) eqn:Hn; [done|].
  unfold with_new_table. repeat case_decide; simpl;
    by rewrite lookup_insert_ne.
Qed.

Lemma create_history_columns s :
  schema (create_table_if_not_exists "assignment_history" s)
    !! "assignment_history"
  = Some (default history_columns (schema s !! "assignment_history")).
Proof.
  unfold create_table_if_not_exists.
  destruct (schema s !! "assignment_history") eqn:Hn; [by rewrite Hn|].
  unfold with_new_table. repeat case_decide; try done; simpl.
  by rewrite lookup_insert_eq.
Qed.

Lemma tables_ready_add_column s cols col fill :
  tables_ready s cols → col ∉ cols →
  ∃ s', add_column col fill s = Some s' ∧ tables_ready s' (cols ++ [col]).
Proof.
  intros (Hw & Hh & Hc) Hnot. unfold add_column. rewrite Hc.
  rewrite decide_False by done. eexists. split; [done|].
  unfold tables_ready. simpl.
  rewrite !lookup_insert_ne by done. by rewrite lookup_insert_eq.
Qed.

Lemma tables_ready_update s cols needs change :
  tables_ready s cols → needs ⊆ cols →
  ∃ s', update_history needs change s = Some s' ∧ tables_ready s' cols.
Proof.
  intros (Hw & Hh & Hc) Hsub. unfold update_history. rewrite Hc.
  rewrite decide_True by done. eexists. split; [done|].
  by unfold tables_ready.
Qed.

Lemma tables_ready_created s :
  tables_ready
    (create_table_if_not_exists "assignment_history"
       (create_table_if_not_exists "houses"
          (create_table_if_not_exists "workers" s)))
    (default history_columns (schema s !! "assignment_history")).
Proof.
  split_and!.
  - rewrite !create_table_other by done. apply create_table_self.
  - rewrite create_table_other by done. apply create_table_self.
  - rewrite create_history_columns. by rewrite !create_table_other.
Qed.

Lemma migrated_create name s :
  is_Some (schema s !! name) → create_table_if_not_exists name s = s.
Proof. intros [cols Hc]. unfold create_table_if_not_exists. by rewrite Hc. Qed.

(** On a migrated store the whole body runs without changing anything. *)
Lemma initialize_migrated_body s :
  migrated s →
  succeeds (init_body no_faults) (connect s)
           (λ _ c, committed c = s
                   ∧ stdout c = [Line "Database initialized successfully."]).
Proof.
  intros (Hw & Hh & Hm).
  destruct (schema s !! "assignment_history") as [cols|] eqn:Hc; [|done].
  destruct Hm as [Hd He].
  unfold init_body, _create_tables, _migrate_database.
  apply succeeds_bind, succeeds_bind.
  eapply succeeds_execute; [done|simpl; by rewrite migrated_create|].
  intros c1 Hw1 Ho1. apply succeeds_bind.
  eapply succeeds_execute;
    [done|simpl; rewrite Hw1; by rewrite migrated_create|].
  intros c2 Hw2 Ho2.
  eapply succeeds_execute;
    [done|simpl; rewrite Hw2; rewrite migrated_create; eauto|].
  intros c3 Hw3 Ho3. apply succeeds_bind, succeeds_bind.
  eapply succeeds_execute; [done|simpl; by rewrite Hw3|].
  intros c4 Hw4 Ho4. apply succeeds_bind, succeeds_fetch_table_info.
  unfold table_info. rewrite Hw4, Hc. simpl.
  rewrite !decide_True by done.
  apply succeeds_bind, succeeds_ret, succeeds_ret, succeeds_bind.
  apply succeeds_commit; [done|]. intros c5 Hw5 Hc5 Ho5.
  apply succeeds_print. intros c6 Hw6 Hc6 Ho6.
  rewrite Hc6, Hc5, Hw4, Ho6, Ho5, Ho4, Ho3, Ho2, Ho1. done.
Qed.
End initialization.

Section migration.
Context `{Platform}.

(** From any store whose history table, if it lacks [assignment_date],
    has [date_assigned], the body runs to the end and leaves a migrated
    store; nothing but progress lines is printed. *)
Lemma initialize_any_body s :
  backfill_source_present s →
  succeeds (init_body no_faults) (connect s)
           (λ _ c, migrated (committed c)
                   ∧ Forall (λ p, ¬ is_error_line p) (stdout c)).
Proof.
  intros Hsrc.
  pose proof (tables_ready_created s) as Hready.
  set (cols := default history_columns (schema s !! "assignment_history"))
    in Hready.
  assert (Hdate : "assignment_date" ∉ cols → "date_assigned" ∈ cols).
  { subst cols. unfold backfill_source_present in Hsrc.
    destruct (schema s !! "assignment_history") eqn:Hs; simpl.
    - tauto.
    - intros _. unfold history_columns. do 5 right. left. }
  unfold init_body, _create_tables, _migrate_database.
  apply succeeds_bind, succeeds_bind.
  eapply succeeds_execute; [done|simpl; done|].
  intros c1 Hw1 Ho1. apply succeeds_bind.
  eapply succeeds_execute; [done|simpl; by rewrite Hw1|].
  intros c2 Hw2 Ho2.
  eapply succeeds_execute; [done|simpl; by rewrite Hw2|].
  intros c3 Hw3 Ho3. simpl in Hw3. rewrite <- Hw3 in Hready.
  apply succeeds_bind, succeeds_bind.
  eapply succeeds_execute; [done|simpl; done|].
  intros c4 Hw4 Ho4. apply succeeds_bind, succeeds_fetch_table_info.
  rewrite <- Hw4 in Hready.
  assert (Ho : stdout c4 = []) by (by rewrite Ho4, Ho3, Ho2, Ho1).
  clear Ho1 Ho2 Ho3 Ho4 Hw1 Hw2 Hw3 Hw4 c1 c2 c3.
  unfold table_info. destruct Hready as (Hw & Hh & Hc). rewrite Hc. simpl.
  assert (Hready : tables_ready (working c4) cols) by done.
  (* first column *)
  assert (Hfirst : ∀ Q : unit → Connection → Prop,
    (∀ c' cols', tables_ready (working c') cols' → cols ⊆ cols' →
       "assignment_date" ∈ cols' →
       ("email_sent" ∈ cols' → "email_sent" ∈ cols) →
       Forall (λ p, ¬ is_error_line p) (stdout c') → Q () c') →
    succeeds (if decide ("assignment_date" ∈ cols) then cursor_ret ()
              else execute no_faults AddAssignmentDate ;;c
                   execute no_faults BackfillAssignmentDate ;;c
                   print (Line "Added assignment_date column.")) c4 Q).
  { intros Q HQ. case_decide as Hin.
    - apply succeeds_ret. eapply HQ; eauto. by rewrite Ho.
    - destruct (tables_ready_add_column (working c4) cols "assignment_date"
                  (with_assignment_date None) Hready Hin) as (s1 & Hs1 & Hr1).
      apply succeeds_bind. eapply succeeds_execute; [done|exact Hs1|].
      intros c5 Hw5 Ho5. rewrite <- Hw5 in Hr1.
      edestruct (tables_ready_update (working c5)) as (s2 & Hs2 & Hr2);
        [exact Hr1| |].
      2:{ apply succeeds_bind. eapply succeeds_execute; [done|exact Hs2|].
          intros c6 Hw6 Ho6. rewrite <- Hw6 in Hr2.
          apply succeeds_print. intros c7 Hw7 Hc7 Ho7.
          rewrite <- Hw7 in Hr2. eapply HQ; [exact Hr2|set_solver|set_solver| |].
          - intros [?|?%list_elem_of_singleton]%elem_of_app; done.
          - rewrite Ho7, Ho6, Ho5, Ho. repeat constructor. simpl. tauto. }
      specialize (Hdate Hin).
      intros x [->|[->|?%elem_of_nil]%elem_of_cons]%elem_of_cons;
        apply elem_of_app; [right; left|by left|done]. }
  apply succeeds_bind, Hfirst.
  intros c5 cols5 Hr5 Hsub5 Hd5 He5 Hout5. clear Hfirst.
  assert (Hsecond : ∀ Q : unit → Connection → Prop,
    (∀ c' cols', tables_ready (working c') cols' →
       "assignment_date" ∈ cols' → "email_sent" ∈ cols' →
       Forall (λ p, ¬ is_error_line p) (stdout c') → Q () c') →
    succeeds (if decide ("email_sent" ∈ cols) then cursor_ret ()
              else execute no_faults AddEmailSent ;;c
                   execute no_faults BackfillEmailSent ;;c
                   print (Line "Added email_sent column.")) c5 Q).
  { intros Q HQ. case_decide as Hin.
    - apply succeeds_ret. eapply HQ; eauto.
    - assert (Hin5 : "email_sent" ∉ cols5) by tauto.
      destruct (tables_ready_add_column (working c5) cols5 "email_sent"
                  (with_email_sent (Some 1)) Hr5 Hin5) as (s1 & Hs1 & Hr1).
      apply succeeds_bind. eapply succeeds_execute; [done|exact Hs1|].
      intros c6 Hw6 Ho6. rewrite <- Hw6 in Hr1.
      edestruct (tables_ready_update (working c6)) as (s2 & Hs2 & Hr2);
        [exact Hr1| |].
      2:{ apply succeeds_bind. eapply succeeds_execute; [done|exact Hs2|].
          intros c7 Hw7 Ho7. rewrite <- Hw7 in Hr2.
          apply succeeds_print. intros c8 Hw8 Hc8 Ho8.
          rewrite <- Hw8 in Hr2. eapply HQ; [exact Hr2|set_solver|set_solver|].
          rewrite Ho8, Ho7, Ho6. apply Forall_app. split; [done|].
          repeat constructor. simpl. tauto. }
      intros x [->|?%elem_of_nil]%elem_of_cons; [|done].
      apply elem_of_app. right. left. }
  apply Hsecond. intros c6 cols6 Hr6 Hd6 He6 Hout6.
  apply succeeds_bind, succeeds_commit; [done|]. intros c7 Hw7 Hc7 Ho7.
  apply succeeds_print. intros c8 Hw8 Hc8 Ho8. split.
  - rewrite Hc8, Hc7. destruct Hr6 as (? & ? & Hcols6).
    unfold migrated. rewrite Hcols6. done.
  - rewrite Ho8, Ho7. apply Forall_app. split; [done|].
    repeat constructor. simpl. tauto.
Qed.
End migration.

Section idempotence.
Context `{Platform}.

Lemma initialize_migrated s :
  migrated s →
  initialize_database no_faults s
  = {| outcome := Returned; store_after := s;
       printed := [Line "Database initialized successfully."] |}.
Proof.
  intros Hm. destruct (initialize_migrated_body s Hm) as (x & c & Hrun & Hs & Ho).
  unfold initialize_database. simpl. rewrite Hrun. unfold close.
  by rewrite Hs, Ho.
Qed.

(** C4. Initialising a store twice gives the store that initialising it
    once gives: the first run returns without an error and leaves a
    migrated store, the second run leaves that store as it is (same
    tables and columns, same rows in every table), and on a store that is
    already migrated the first run changes nothing either. *)
Theorem initialize_idempotent (s : Store) :
  backfill_source_present s →
  let r1 := initialize_database no_faults s in
  let r2 := initialize_database no_faults (store_after r1) in
  outcome r1 = Returned
  ∧ Forall (λ p, ¬ is_error_line p) (printed r1)
  ∧ migrated (store_after r1)
  ∧ outcome r2 = Returned
  ∧ store_after r2 = store_after r1
  ∧ schema (store_after r2) = schema (store_after r1)
  ∧ length (workers (store_after r2)) = length (workers (store_after r1))
  ∧ length (houses (store_after r2)) = length (houses (store_after r1))
  ∧ length (assignment_history (store_after r2))
    = length (assignment_history (store_after r1))
  ∧ (migrated s → store_after r1 = s).
Proof.
  intros Hsrc r1 r2.
  destruct (initialize_database_succeeds no_faults s
              (λ s' out, migrated s' ∧ Forall (λ p, ¬ is_error_line p) out)
              eq_refl (initialize_any_body s Hsrc)) as (Hret & Hm & Hout).
  fold r1 in Hret, Hm, Hout.
  assert (Hr2 : r2 = {| outcome := Returned; store_after := store_after r1;
                        printed := [Line "Database initialized successfully."] |}).
  { subst r2. by apply initialize_migrated. }
  rewrite Hr2. simpl. split_and!; try done.
  intros Hs. subst r1. by rewrite initialize_migrated.
Qed.
End idempotence.

Lemma initialize_idempotent_witness :
  backfill_source_present legacy_store
  ∧ store_after (initialize_database (H := ascii_platform) no_faults
       (store_after (initialize_database (H := ascii_platform) no_faults
                       legacy_store)))
    = store_after (initialize_database (H := ascii_platform) no_faults
                     legacy_store).
Proof.
  assert (Hsrc : backfill_source_present legacy_store).
  { apply (bool_decide_unpack _). vm_compute. exact I. }
  split; [exact Hsrc|].
  exact (proj1 (proj2 (proj2 (proj2 (proj2
    (initialize_idempotent (H := ascii_platform) legacy_store Hsrc)))))).
Defined.

(** ** Errors during initialisation *)

Section init_errors.
Context `{Platform}.

Lemma keeps_committed_bind {A B} (m : Cursor A) (k : A → Cursor B) :
  keeps_committed m → (∀ x, keeps_committed (k x)) →
  keeps_committed (cursor_bind m k).
Proof.
  intros Hm Hk c r c'. unfold cursor_bind.
  destruct (m c) as [[e|x] c1] eqn:Hmc.
  - intros [= <- <-]. eapply Hm; eauto.
  - intros Hkc. rewrite (Hk x _ _ _ Hkc). eapply Hm; eauto.
Qed.

Lemma keeps_committed_ret {A} (x : A) : keeps_committed (cursor_ret x).
Proof. by intros c r c' [= <- <-]. Qed.

Lemma keeps_committed_print p : keeps_committed (print p).
Proof. by intros c r c' [= <- <-]. Qed.

Lemma keeps_committed_fetch : keeps_committed fetch_table_info.
Proof. by intros c r c' [= <- <-]. Qed.

Lemma keeps_committed_execute f st :
  begins_transaction st = true → keeps_committed (execute f st).
Proof.
  intros Hb c r c'. unfold execute. rewrite Hb, orb_true_r.
  destruct (stmt_fails f st); [by intros [= <- <-]|].
  destruct (run_stmt st (working c)); by intros [= <- <-].
Qed.

Ltac keeps_committed_steps Hb :=
  repeat first
    [ apply keeps_committed_bind; [|intros ?]
    | apply keeps_committed_execute, Hb
    | apply keeps_committed_print
    | apply keeps_committed_fetch
    | apply keeps_committed_ret
    | case_decide ].

Lemma keeps_committed_create_tables f :
  (∀ st, begins_transaction st = true) → keeps_committed (_create_tables f).
Proof. intros Hb. unfold _create_tables. keeps_committed_steps Hb. Qed.

Lemma keeps_committed_migrate f :
  (∀ st, begins_transaction st = true) →
  keeps_committed (_migrate_database f).
Proof. intros Hb. unfold _migrate_database. keeps_committed_steps Hb. Qed.

Lemma init_body_error_committed f s e c :
  (∀ st, begins_transaction st = true) →
  init_body f (connect s) = (inl e, c) → committed c = s.
Proof.
  intros Hb. unfold init_body. unfold cursor_bind at 1.
  destruct (_create_tables f (connect s)) as [[e1|[]] c1] eqn:H1;
    apply (keeps_committed_create_tables f Hb) in H1; simpl in H1.
  { by intros [= <- <-]. }
  unfold cursor_bind at 1.
  destruct (_migrate_database f c1) as [[e2|[]] c2] eqn:H2;
    apply (keeps_committed_migrate f Hb) in H2.
  { intros [= <- <-]. congruence. }
  unfold cursor_bind, commit.
  destruct (commit_fails f); [|done].
  intros [= <- <-]. congruence.
Qed.

(** C8, as the code has it. A failure to open the connection reaches the
    caller and leaves the store alone.  Any error raised after that, by a
    statement or by the commit, is caught: the error is printed, the
    connection is rolled back to what it last committed, and the call
    returns as it does on success.  With a driver that opens a
    transaction before every statement, what it last committed is the
    store as it was before the call. *)
Theorem initialize_database_catches_errors (f : Faults) (s : Store) :
  (connect_fails f = true →
     initialize_database f s
     = {| outcome := Raised; store_after := s; printed := [] |})
  ∧ (connect_fails f = false →
     outcome (initialize_database f s) = Returned
     ∧ ∀ e c, init_body f (connect s) = (inl e, c) →
         printed (initialize_database f s)
         = stdout c ++ [ErrorLine "Database initialization error: " e]
         ∧ store_after (initialize_database f s) = committed c
         ∧ ((∀ st, begins_transaction st = true) →
            store_after (initialize_database f s) = s)).
Proof.
  split; intros Hf; unfold initialize_database; rewrite Hf; [done|].
  split.
  - by destruct (init_body f (connect s)) as [[e|x] c].
  - intros e c Hbody. rewrite Hbody. simpl. split_and!; [done..|].
    intros Hb. unfold close. simpl. eapply init_body_error_committed; eauto.
Qed.
End init_errors.

Lemma initialize_database_catches_errors_witness :
  outcome (initialize_database (H := transactional_platform)
             disk_full_at_email_sent legacy_store) = Returned
  ∧ store_after (initialize_database (H := transactional_platform)
                   disk_full_at_email_sent legacy_store) = legacy_store.
Proof.
  destruct (initialize_database_catches_errors (H := transactional_platform)
              disk_full_at_email_sent legacy_store) as [_ Hcaught].
  destruct (Hcaught eq_refl) as [Hret Herr]. split; [exact Hret|].
  destruct (init_body (H := transactional_platform) disk_full_at_email_sent
              (connect legacy_store)) as [[e|x] c] eqn:Hbody.
  - exact (proj2 (proj2 (Herr e c eq_refl)) (λ _, eq_refl)).
  - vm_compute in Hbody. discriminate Hbody.
Defined.

(** C8, as worded, fails.  With the second ALTER TABLE failing on a store
    of the earlier version, under the transaction rule of Python's driver,
    the call returns as on success and leaves the history table with
    [assignment_date] added (and empty) and [email_sent] missing. *)
Lemma schema_errors_are_swallowed : ¬ schema_errors_propagate.
Proof.
  intros Hprop.
  destruct (init_body (H := ascii_platform) disk_full_at_email_sent
              (connect legacy_store)) as [[e|x] c] eqn:Hbody.
  - destruct (Hprop ascii_platform disk_full_at_email_sent legacy_store e c Hbody)
      as [Hraised _].
    vm_compute in Hraised. discriminate Hraised.
  - vm_compute in Hbody. discriminate Hbody.
Qed.

Example swallowed_error_leaves_partial_schema :
  let r := initialize_database (H := ascii_platform)
             disk_full_at_email_sent legacy_store in
  outcome r = Returned
  ∧ table_info (store_after r) = history_columns ++ ["assignment_date"]
  ∧ a_assignment_date <$> assignment_history (store_after r) = [None].
Proof. vm_compute. done. Qed.

(** ** Notification body *)

Lemma foldl_snoc_map {A B} (f : A → B) (l : list A) (acc : list B) :
  foldl (λ out x, out ++ [f x]) acc l = acc ++ (f <$> l).
Proof.
  revert acc. induction l as [|x l IH]; intros acc; simpl.
  - by rewrite app_nil_r.
  - rewrite IH. by rewrite <- app_assoc.
Qed.

Lemma foldl_snoc_filter_map {A B} (f : A → B) (p : A → bool) (l : list A)
    (acc : list B) :
  foldl (λ out x, if p x then out ++ [f x] else out) acc l
  = acc ++ (f <$> filter (λ x, p x) l).
Proof.
  revert acc. induction l as [|x l IH]; intros acc.
  - simpl. by rewrite app_nil_r.
  - cbn [foldl]. rewrite IH. destruct (p x) eqn:Hp.
    + rewrite filter_cons_True by (by rewrite Hp).
      rewrite fmap_cons, <- app_assoc. done.
    + rewrite filter_cons_False by (rewrite Hp; simpl; auto). done.
Qed.

Lemma string_app_assoc (s1 s2 s3 : string) :
  (s1 +:+ s2) +:+ s3 = s1 +:+ s2 +:+ s3.
Proof.
  induction s1 as [|a s1 IH]; [done|].
  change (String a ((s1 +:+ s2) +:+ s3) = String a (s1 +:+ s2 +:+ s3)).
  by rewrite IH.
Qed.

(** C7, as the code has it. The body is the greeting, the date line, the
    line announcing the houses, one line per house, in order, and the
    closing line; a house line reads [- <house> → <quantity> bedding sets]
    and carries [ | Note: <note>] exactly when the note is not empty. *)
Theorem email_body_template (worker_name : string)
    (assignments : list EmailLine) (assignment_date : string) :
  _create_email_body worker_name assignments assignment_date
  = "Hello " +:+ worker_name +:+ "," +:+ nl +:+ nl
    +:+ "Date: " +:+ assignment_date +:+ nl
    +:+ "You have been assigned to the following houses:" +:+ nl +:+ nl
    +:+ str_join nl (email_line <$> assignments)
    +:+ nl +:+ nl +:+ "Good luck with your work!"
  ∧ length (email_line <$> assignments) = length assignments
  ∧ ∀ a, (note a = "" →
            email_line a = "- " +:+ house_name a +:+ " → "
                           +:+ str_of_Z (quantity a) +:+ " bedding sets")
         ∧ (note a ≠ "" →
            email_line a = "- " +:+ house_name a +:+ " → "
                           +:+ str_of_Z (quantity a) +:+ " bedding sets"
                           +:+ " | Note: " +:+ note a).
Proof.
  split_and!.
  - unfold _create_email_body. rewrite foldl_snoc_map. simpl.
    generalize (str_join nl (email_line <$> assignments)). intros lines.
    by rewrite !string_app_assoc.
  - by rewrite length_fmap.
  - intros a. unfold email_line. split; intros Hn.
    + by rewrite decide_True.
    + rewrite decide_False by done. by rewrite !string_app_assoc.
Qed.

(** C7, as worded, fails: the code writes "bedding sets" where the
    template says "units". *)
Lemma body_does_not_follow_template : ¬ body_follows_template.
Proof.
  intros Htemplate.
  specialize (Htemplate "Ana"
    [ {| house_name := "Northgate"; quantity := 1; note := "" |} ]
    "01.05.2024").
  vm_compute in Htemplate. discriminate Htemplate.
Qed.

(** ** History listing, filter and export *)

Lemma is_substring_contains (needle hay : string) :
  is_substring needle hay = true ↔ contains needle hay.
Proof.
  assert (Hprefix : ∀ a b, String.prefix a b = true ↔ ∃ rest, b = a +:+ rest).
  { induction a as [|x a IH]; intros b.
    - split; [intros _; by exists b|intros _; by destruct b].
    - destruct b as [|y b]; simpl.
      + split; [done|]. by intros [rest Hrest].
      + destruct (Ascii.ascii_dec x y) as [->|Hne].
        * rewrite IH. split; intros [rest Hrest]; exists rest.
          -- by rewrite Hrest.
          -- by injection Hrest.
        * split; [done|]. intros [rest Hrest]. by injection Hrest. }
  induction hay as [|y hay IH]; cbn [is_substring];
    rewrite orb_true_iff, Hprefix.
  - split.
    + intros [[rest Hrest]|?]; [|done]. by exists "", rest.
    + intros ([|x before] & after & Heq); [left; by exists after|done].
  - rewrite IH. split.
    + intros [[rest Hrest]|(before & after & Heq)].
      * by exists "", rest.
      * exists (String y before), after. by rewrite Heq.
    + intros ([|x before] & after & Heq).
      * left. by exists after.
      * right. exists before, after. by injection Heq.
Qed.

Section history.
Context `{Platform}.

Lemma load_history_data_rows (s : Store) :
  _load_history_data s = history_row <$> history_query s.
Proof. unfold _load_history_data. by rewrite foldl_snoc_map. Qed.

Lemma apply_history_filter_rows (s : Store) (filter_text : string) :
  _apply_history_filter s filter_text
  = history_row <$> filter (λ t, matches (str_lower filter_text) t)
                           (history_query s).
Proof. unfold _apply_history_filter. by rewrite foldl_snoc_filter_map. Qed.

Lemma export_rows_rows (s : Store) :
  export_rows s = csv_header :: (csv_cells <$> _load_history_data s).
Proof.
  unfold export_rows. rewrite load_history_data_rows, <- list_fmap_compose.
  by rewrite (foldl_snoc_map (λ t, csv_cells (history_row t))).
Qed.

(** C6. The filtered listing holds, in the order of the full listing,
    the rows whose worker name, house name or note contains the filter,
    all of them lowered; one of the three containing it is enough. *)
Theorem history_filter_correct (s : Store) (filter_text : string) :
  _apply_history_filter s filter_text
  = history_row <$> filter (λ t, matches (str_lower filter_text) t)
                           (history_query s)
  ∧ (∀ t, matches (str_lower filter_text) t = true
          ↔ contains (str_lower filter_text) (str_lower (t_worker_name t))
            ∨ contains (str_lower filter_text) (str_lower (t_house_name t))
            ∨ contains (str_lower filter_text)
                       (str_lower (or_empty (t_note t))))
  ∧ _apply_history_filter s filter_text `sublist_of` _load_history_data s.
Proof.
  split_and!.
  - apply apply_history_filter_rows.
  - intros t. unfold matches.
    rewrite !orb_true_iff, !is_substring_contains. tauto.
  - rewrite apply_history_filter_rows, load_history_data_rows.
    apply fmap_sublist, sublist_filter.
Qed.
End history.

(** The example of C6: "north" finds the record of house "Northgate",
    whose worker and note do not contain it. *)
Example filter_north_finds_northgate :
  _apply_history_filter (H := ascii_platform) (db assigned) "north"
  = [ {| r_worker := "Ana"; r_house := "Northgate"; r_quantity := Some 1;
         r_note := ""; r_assignment_date := "01.05.2024";
         r_record_date := "30.04.2024 12:00"; r_status := "Sent" |} ].
Proof. by vm_compute. Qed.

#[global] Instance recent_first_total : Total recent_first.
Proof.
  intros t1 t2. unfold recent_first.
  destruct (a_date_assigned t1.1.1) as [x|], (a_date_assigned t2.1.1) as [y|];
    simpl; auto.
  destruct (total String.le x y); auto.
Qed.



Section export.
Context `{Platform}.

End export.


(** ** Batch commit *)

Lemma foldr_max_ge (b : Z) (l : list Z) :
  b ≤ foldr Z.max b l ∧ ∀ x, x ∈ l → x ≤ foldr Z.max b l.
Proof.
  induction l as [|y l [IHb IHl]]; simpl.
  - split; [lia|]. by intros x ?%elem_of_nil.
  - split; [lia|]. intros x [->|Hx]%elem_of_cons; [lia|].
    specialize (IHl x Hx). lia.
Qed.

Lemma foldr_max_absorb (b : Z) (l : list Z) :
  (∀ x, x ∈ l → x ≤ b) → foldr Z.max b l = b.
Proof.
  induction l as [|y l IH]; intros Hle; simpl; [done|].
  rewrite IH by (intros x Hx; apply Hle; by right).
  specialize (Hle y (list_elem_of_here _ _)). lia.
Qed.

(** Keys grow by one from one INSERT to the next. *)
Lemma next_id_after_insert (seq : Z) (ids : list Z) :
  next_id (next_id seq ids) (ids ++ [next_id seq ids]) = next_id seq ids + 1.
Proof.
  unfold next_id. rewrite foldr_app. simpl.
  rewrite Z.max_id. f_equal. apply foldr_max_absorb.
  intros x Hx. pose proof (proj2 (foldr_max_ge seq ids) x Hx). lia.
Qed.

Lemma with_new_assignments_rows clock k worker_id selected date s :
  let first_id := next_id (seq_history s) (a_id <$> assignment_history s) in
  assignment_history
    (with_new_assignments clock k worker_id selected date s)
  = assignment_history s
    ++ imap (λ i sel, new_assignment (first_id + Z.of_nat i)
                        (clock (k + i)%nat) worker_id sel date) selected
  ∧ workers (with_new_assignments clock k worker_id selected date s)
    = workers s
  ∧ houses (with_new_assignments clock k worker_id selected date s)
    = houses s
  ∧ schema (with_new_assignments clock k worker_id selected date s)
    = schema s.
Proof.
  revert k s. induction selected as [|sel rest IH]; intros k s first_id.
  - simpl. by rewrite app_nil_r.
  - cbn [with_new_assignments].
    destruct (IH (S k) (with_new_assignment (clock k) worker_id sel date s))
      as (Hrows & Hw & Hh & Hs).
    rewrite Hrows, Hw, Hh, Hs. split_and!; try done.
    cbn [with_new_assignment assignment_history seq_history].
    fold first_id. rewrite <- app_assoc. f_equal.
    rewrite imap_cons. cbn [app]. f_equal.
    + f_equal; [lia|f_equal; lia].
    + apply imap_ext. intros i x _. simpl.
      rewrite fmap_app. cbn [fmap list_fmap].
      assert (Hid : a_id (new_assignment first_id (clock k) worker_id sel date)
                    = first_id) by (by destruct sel as [[? ?] ?]).
      rewrite Hid. subst first_id. rewrite next_id_after_insert.
      f_equal; [lia|f_equal; lia].
Qed.

(** Whether an INSERT goes through depends on the columns of the table
    and on the values bound, not on the rows. *)
Lemma insert_error_schema s s' worker_id sel :
  schema s = schema s' →
  insert_error s worker_id sel = insert_error s' worker_id sel.
Proof. intros Hs. unfold insert_error. by rewrite Hs. Qed.

Lemma insert_error_None s worker_id sel :
  insert_error s worker_id sel = None
  ↔ ∃ cols, schema s !! "assignment_history" = Some cols
            ∧ insert_columns ⊆ cols
            ∧ fits_int64 worker_id ∧ fits_int64 sel.1.1 ∧ fits_int64 sel.1.2.
Proof.
  unfold insert_error.
  destruct (schema s !! "assignment_history") as [cols|];
    [|split; [done|by intros (? & ? & _)]].
  destruct (filter (λ col, col ∉ cols) insert_columns) as [|col missing] eqn:Hf.
  - assert (Hall : insert_columns ⊆ cols).
    { intros col Hcol. destruct (decide (col ∈ cols)) as [|Hno]; [done|].
      assert (Hin : col ∈ filter (λ col, col ∉ cols) insert_columns)
        by (by apply list_elem_of_filter).
      rewrite Hf in Hin. by apply elem_of_nil in Hin. }
    case_decide as Hfits.
    + split; [|done]. intros _. exists cols. by destruct Hfits as (? & ? & ?).
    + split; [done|]. intros (? & _ & _ & ? & ? & ?). by destruct Hfits.
  - split; [done|]. intros (cols' & [= <-] & Hall & _).
    assert (Hin : col ∈ filter (λ col, col ∉ cols) insert_columns)
      by (rewrite Hf; left).
    apply list_elem_of_filter in Hin as [Hno Hin]. exfalso. by apply Hno, Hall.
Qed.

(** The loop of [_save_assignments_to_db] stops at the first INSERT that
    raises: the rows of the selections before it are in the file. *)
Lemma save_assignments_to_db_stops clock k worker_id selected date s :
  ∃ front rest,
    selected = front ++ rest
    ∧ (_save_assignments_to_db clock k worker_id selected date s).1
      = with_new_assignments clock k worker_id front date s
    ∧ insertable s worker_id front
    ∧ match (_save_assignments_to_db clock k worker_id selected date s).2 with
      | None => rest = []
      | Some e => ∃ sel rest', rest = sel :: rest'
                               ∧ insert_error s worker_id sel = Some e
      end.
Proof.
  revert k s. induction selected as [|sel rest IH]; intros k s.
  - exists [], []. simpl. split_and!; [done..|constructor|done].
  - cbn [_save_assignments_to_db]. unfold insert_assignment.
    destruct (insert_error s worker_id sel) as [e|] eqn:He.
    + exists [], (sel :: rest). simpl.
      split_and!; [done..|constructor|eauto].
    + destruct (IH (S k) (with_new_assignment (clock k) worker_id sel date s))
        as (front & rest' & -> & Hdb & Hins & Herr).
      assert (Hsame : ∀ x, insert_error
                (with_new_assignment (clock k) worker_id sel date s)
                worker_id x = insert_error s worker_id x)
        by (intros x; by apply insert_error_schema).
      exists (sel :: front), rest'. split_and!; [done|exact Hdb| |].
      * constructor; [done|]. eapply Forall_impl; [exact Hins|].
        intros x Hx. simpl in Hx. by rewrite <- Hsame.
      * destruct (_save_assignments_to_db _ _ _ _ _ _).2; [|done].
        destruct Herr as (sel' & r' & -> & He'). rewrite Hsame in He'. eauto.
Qed.

Lemma save_assignments_to_db_insertable clock k worker_id selected date s :
  insertable s worker_id selected →
  _save_assignments_to_db clock k worker_id selected date s
  = (with_new_assignments clock k worker_id selected date s, None).
Proof.
  revert k s. induction selected as [|sel rest IH]; intros k s Hins; [done|].
  apply Forall_cons in Hins as [Hsel Hrest].
  cbn [_save_assignments_to_db with_new_assignments].
  unfold insert_assignment. rewrite Hsel. apply IH.
  eapply Forall_impl; [exact Hrest|]. intros x Hx. simpl in Hx.
  rewrite <- Hx. by apply insert_error_schema.
Qed.

Lemma save_assignments_to_db_None clock k worker_id selected date s :
  (_save_assignments_to_db clock k worker_id selected date s).2 = None →
  insertable s worker_id selected.
Proof.
  intros Hnone.
  destruct (save_assignments_to_db_stops clock k worker_id selected date s)
    as (front & rest & -> & _ & Hins & Herr).
  rewrite Hnone in Herr. subst rest. by rewrite app_nil_r.
Qed.

(** A message is handed to the mail server exactly when the checks pass
    and every INSERT has gone through; the file then holds the whole
    batch. *)
Lemma send_assignments_reached clock smtp_error app :
  is_Some (handed_over (_send_assignments clock smtp_error app).2) →
  ∃ worker d,
    current_worker app = Some worker
    ∧ selected_houses app ≠ []
    ∧ date_picker app = Some d
    ∧ insertable (db app) (w_id worker) (selected_houses app)
    ∧ db (_send_assignments clock smtp_error app).1
      = with_new_assignments clock 0 (w_id worker) (selected_houses app)
          (strftime_Ymd d) (db app).
Proof.
  unfold _send_assignments.
  destruct (current_worker app) as [worker|]; [|by intros [? [=]]].
  destruct (selected_houses app) as [|sel rest] eqn:Hsel;
    [by intros [? [=]]|].
  destruct (date_picker app) as [d|]; [|by intros [? [=]]].
  destruct (_save_assignments_to_db clock 0 (w_id worker) (sel :: rest)
              (strftime_Ymd d) (db app)) as [s' [e|]] eqn:Hsave;
    [by intros [? [=]]|].
  intros _. exists worker, d.
  assert (Hins : insertable (db app) (w_id worker) (sel :: rest)).
  { eapply save_assignments_to_db_None. by rewrite Hsave. }
  rewrite (save_assignments_to_db_insertable _ _ _ _ _ _ Hins) in Hsave.
  injection Hsave as <-.
  split_and!; [done..|]. by destruct smtp_error.
Qed.

Lemma send_assignments_insertable clock smtp_error app worker d :
  current_worker app = Some worker →
  selected_houses app ≠ [] →
  date_picker app = Some d →
  insertable (db app) (w_id worker) (selected_houses app) →
  let saved :=
    set_db (with_new_assignments clock 0 (w_id worker)
              (selected_houses app) (strftime_Ymd d) (db app)) app in
  is_Some (handed_over (_send_assignments clock smtp_error app).2)
  ∧ (smtp_error = None →
       (_send_assignments clock smtp_error app).1
       = _refresh_houses (_clear_house_selections saved))
  ∧ (smtp_error ≠ None → (_send_assignments clock smtp_error app).1 = saved)
  ∧ db (_send_assignments clock smtp_error app).1 = db saved.
Proof.
  intros Hworker Hsel Hdate Hins saved. subst saved.
  unfold _send_assignments. rewrite Hworker, Hdate.
  destruct (selected_houses app) as [|sel rest]; [done|].
  rewrite (save_assignments_to_db_insertable _ _ _ _ _ _ Hins).
  destruct smtp_error; simpl; split_and!; eauto; done.
Qed.

(** What a commit leaves in the file: nothing new when a check turns it
    down, else the rows of the selections up to the first INSERT that
    raises. *)
Lemma send_assignments_stored clock smtp_error app :
  db (_send_assignments clock smtp_error app).1 = db app
  ∨ ∃ worker d front rest,
      current_worker app = Some worker
      ∧ date_picker app = Some d
      ∧ selected_houses app = front ++ rest
      ∧ db (_send_assignments clock smtp_error app).1
        = with_new_assignments clock 0 (w_id worker) front (strftime_Ymd d)
            (db app).
Proof.
  unfold _send_assignments.
  destruct (current_worker app) as [worker|]; [|by left].
  destruct (selected_houses app) as [|sel rest] eqn:Hsel; [by left|].
  destruct (date_picker app) as [d|]; [|by left].
  destruct (save_assignments_to_db_stops clock 0 (w_id worker) (sel :: rest)
              (strftime_Ymd d) (db app)) as (front & rest' & Heq & Hdb & _).
  right. exists worker, d, front, rest'. split_and!; [done..|].
  rewrite <- Hdb.
  destruct (_save_assignments_to_db _ _ _ _ _ _) as [s' [e|]];
    [done|by destruct smtp_error].
Qed.

(** C2. The commit of the example session, for Ana, both houses and the
    first of May, with the mail server refusing the message: the handler
    shows the error of the server, and the two records that it inserted
    before sending carry the delivery flag 1 and are listed as Sent, not
    as Pending.  The record state machine as worded, every record Pending
    when inserted, does not hold of the code. *)
Theorem inserted_records_read_sent :
  let result := _send_assignments noon (Some "timed out") ready in
  shown result.2 = ErrorBox "Failed to send assignments: timed out"
  ∧ assignment_history (db ready) = []
  ∧ assignment_history (db result.1)
    = [ new_assignment 1 (noon 0) 1 (2, 2, "late ok") "2024-05-01";
        new_assignment 2 (noon 1) 1 (1, 1, "") "2024-05-01" ]
  ∧ a_email_sent <$> assignment_history (db result.1) = [Some 1; Some 1]
  ∧ r_status <$> _load_history_data (H := ascii_platform) (db result.1)
    = ["Sent"; "Sent"]
  ∧ ¬ inserted_as_pending.
Proof.
  split_and!; [by vm_compute..|].
  intros Hpending.
  specialize (Hpending noon (Some "timed out") ready
                (new_assignment 1 (noon 0) 1 (2, 2, "late ok") "2024-05-01")).
  assert (Hfalse : truthy (Some 1) = false); [|done].
  apply Hpending.
  - apply (bool_decide_unpack _). by vm_compute.
  - apply (bool_decide_unpack _). by vm_compute.
Qed.



(** C3. Ana is selected and Northgate is ticked with 0 typed into its spin
    box, which offers 1 to 999: the commit is not turned down.  It inserts
    a record of quantity 0 and hands the message to the mail server.  The
    validation as worded, a quantity below 1 leaves the store alone, does
    not hold of the code. *)
Theorem zero_quantity_is_committed :
  let result := _send_assignments noon None zero_quantity in
  selected_houses zero_quantity = [(1, 0, "")]
  ∧ assignment_history (db zero_quantity) = []
  ∧ assignment_history (db result.1)
    = [ new_assignment 1 (noon 0) 1 (1, 0, "") "2024-05-01" ]
  ∧ handed_over result.2
    = Some (assignment_email "ana@x.com" "Ana"
              [ {| house_name := "Northgate"; quantity := 0; note := "" |} ]
              "01.05.2024")
  ∧ ¬ rejects_bad_quantity.
Proof.
  split_and!; [by vm_compute..|].
  intros Hrejects.
  specialize (Hrejects noon None zero_quantity).
  assert (Hsame : assignment_history
                    (db (_send_assignments noon None zero_quantity).1)
                  = assignment_history (db zero_quantity)).
  { rewrite Hrejects; [done|]. apply (bool_decide_unpack _). by vm_compute. }
  vm_compute in Hsame. discriminate Hsame.
Qed.

(** ** Restarting on a migrated store *)

Section restart.
Context `{Platform}.

Lemma stays_bind {A B} s (m : Cursor A) (k : A → Cursor B) Q Q' :
  stays s m Q → (∀ x, Q x → stays s (k x) Q') → stays s (cursor_bind m k) Q'.
Proof.
  intros Hm Hk c r c' Hw Hc. unfold cursor_bind.
  destruct (m c) as [[e|x] c1] eqn:Hmc;
    destruct (Hm c _ c1 Hw Hc Hmc) as (Hw1 & Hc1 & HQ).
  - intros [= <- <-]. split_and!; [done..|]. by intros x [=].
  - intros Hkc. eapply Hk; eauto.
Qed.

Lemma stays_ret {A} s (x : A) (Q : A → Prop) : Q x → stays s (cursor_ret x) Q.
Proof. intros HQ c r c' Hw Hc [= <- <-]. split_and!; [done..|]. by intros ? [= <-]. Qed.

Lemma stays_print s p : stays s (print p) (λ _, True).
Proof. by intros c r c' Hw Hc [= <- <-]. Qed.

Lemma stays_fetch s : stays s fetch_table_info (λ cols, cols = table_info s).
Proof.
  intros c r c' Hw Hc [= <- <-]. split_and!; [done..|].
  intros ? [= <-]. by rewrite Hw.
Qed.

Lemma stays_commit f s : stays s (commit f) (λ _, True).
Proof.
  intros c r c' Hw Hc. unfold commit.
  destruct (commit_fails f); intros [= <- <-]; simpl; by rewrite ?Hw.
Qed.

Lemma stays_execute f st s :
  run_stmt st s = Some s → stays s (execute f st) (λ _, True).
Proof.
  intros Hrun c r c' Hw Hc. unfold execute. rewrite Hw, Hrun.
  destruct (stmt_fails f st); [by intros [= <- <-]|].
  destruct (in_transaction c || begins_transaction st);
    by intros [= <- <-].
Qed.

Lemma stays_init_body f s : migrated s → stays s (init_body f) (λ _, True).
Proof.
  intros (Hw & Hh & Hm).
  destruct (schema s !! "assignment_history") as [cols|] eqn:Hc; [|done].
  destruct Hm as [Hd He].
  unfold init_body, _create_tables, _migrate_database.
  assert (Hcreate : ∀ name, is_Some (schema s !! name) →
            Some (create_table_if_not_exists name s) = Some s).
  { intros name Hname. by rewrite migrated_create. }
  eapply stays_bind; [|intros ? _; eapply stays_bind];
    [| |intros ? _; eapply stays_bind;
         [apply stays_commit|intros ? _; apply stays_print]].
  - eapply stays_bind; [|intros ? _; eapply stays_bind; [|intros ? _]];
      apply stays_execute; simpl; apply Hcreate; eauto.
  - eapply stays_bind; [by apply stays_execute|]. intros ? _.
    eapply stays_bind; [apply stays_fetch|]. intros columns ->.
    unfold table_info. rewrite Hc. simpl. rewrite !decide_True by done.
    eapply stays_bind; [by apply (stays_ret s () (λ _, True))|].
    intros _ _. by apply (stays_ret s () (λ _, True)).
Qed.

(** Whatever fails, initialising a migrated store leaves it as it is. *)
Lemma initialize_migrated_any_faults f s :
  migrated s → store_after (initialize_database f s) = s.
Proof.
  intros Hm. unfold initialize_database.
  destruct (connect_fails f); [done|].
  destruct (init_body f (connect s)) as [[e|x] c] eqn:Hbody;
    by destruct (stays_init_body f s Hm (connect s) _ _ eq_refl eq_refl
                   Hbody) as (_ & Hc & _).
Qed.
End restart.

(** ** Initialisation keeps the history records *)

Section records_kept.
Context `{Platform}.

Lemma run_stmt_same_records s0 st s s' :
  same_records s0 s → run_stmt st s = Some s' → same_records s0 s'.
Proof.
  intros [Hwf Hbase] Hrun. unfold same_records, rows_have_table in *.
  assert (Hmap : ∀ g : Assignment → Assignment,
            (∀ a, base_columns (g a) = base_columns a) →
            base_columns <$> (g <$> assignment_history s)
            = base_columns <$> assignment_history s0).
  { intros g Hg. rewrite <- list_fmap_compose, <- Hbase.
    apply list_fmap_ext. intros i a _. apply Hg. }
  assert (Hcreate : ∀ name, name = "workers" ∨ name = "houses" →
            s' = create_table_if_not_exists name s →
            (schema s' !! "assignment_history" = None →
             assignment_history s' = [])
            ∧ base_columns <$> assignment_history s'
              = base_columns <$> assignment_history s0).
  { intros name Hname ->.
    rewrite create_table_other by (by destruct Hname as [-> | ->]).
    unfold create_table_if_not_exists, with_new_table.
    destruct (schema s !! name); [done|].
    by destruct Hname as [-> | ->]. }
  destruct st; simpl in Hrun; simplify_eq.
  - apply (Hcreate "workers"); auto.
  - apply (Hcreate "houses"); auto.
  - rewrite create_history_columns. split; [done|].
    unfold create_table_if_not_exists.
    destruct (schema s !! "assignment_history") eqn:Hs; [done|].
    unfold with_new_table. repeat case_decide; try done. simpl.
    by rewrite <- Hbase, Hwf.
  - done.
  - unfold add_column in Hrun.
    destruct (schema s !! "assignment_history"); [|done].
    case_decide; simplify_eq. simpl. rewrite lookup_insert_eq.
    split; [done|]. by apply Hmap.
  - unfold update_history in Hrun.
    destruct (schema s !! "assignment_history") eqn:Hs; [|done].
    case_decide; simplify_eq. simpl. rewrite Hs. split; [done|].
    apply Hmap. intros a. by destruct (a_assignment_date a).
  - unfold add_column in Hrun.
    destruct (schema s !! "assignment_history"); [|done].
    case_decide; simplify_eq. simpl. rewrite lookup_insert_eq.
    split; [done|]. by apply Hmap.
  - unfold update_history in Hrun.
    destruct (schema s !! "assignment_history") eqn:Hs; [|done].
    case_decide; simplify_eq. simpl. rewrite Hs. split; [done|].
    apply Hmap. intros a. by destruct (a_email_sent a).
Qed.

Lemma preserves_bind {A B} I (m : Cursor A) (k : A → Cursor B) :
  preserves I m → (∀ x, preserves I (k x)) → preserves I (cursor_bind m k).
Proof.
  intros Hm Hk c r c' Hw Hc. unfold cursor_bind.
  destruct (m c) as [[e|x] c1] eqn:Hmc;
    destruct (Hm c _ c1 Hw Hc Hmc) as [Hw1 Hc1].
  - by intros [= <- <-].
  - intros Hkc. eapply Hk; eauto.
Qed.

Lemma preserves_ret {A} I (x : A) : preserves I (cursor_ret x).
Proof. by intros c r c' Hw Hc [= <- <-]. Qed.

Lemma preserves_print I p : preserves I (print p).
Proof. by intros c r c' Hw Hc [= <- <-]. Qed.

Lemma preserves_fetch I : preserves I fetch_table_info.
Proof. by intros c r c' Hw Hc [= <- <-]. Qed.

Lemma preserves_commit I f : preserves I (commit f).
Proof.
  intros c r c' Hw Hc. unfold commit.
  destruct (commit_fails f); by intros [= <- <-].
Qed.

Lemma preserves_execute s0 f st :
  preserves (same_records s0) (execute f st).
Proof.
  intros c r c' Hw Hc. unfold execute.
  destruct (stmt_fails f st); [by intros [= <- <-]|].
  destruct (run_stmt st (working c)) as [s'|] eqn:Hrun;
    [|by intros [= <- <-]].
  pose proof (run_stmt_same_records s0 st _ s' Hw Hrun).
  destruct (in_transaction c || begins_transaction st);
    by intros [= <- <-].
Qed.

Lemma preserves_init_body s0 f : preserves (same_records s0) (init_body f).
Proof.
  unfold init_body, _create_tables, _migrate_database.
  repeat first
    [ apply preserves_bind; [|intros ?]
    | apply preserves_execute
    | apply preserves_print
    | apply preserves_fetch
    | apply preserves_commit
    | apply preserves_ret
    | case_decide ].
Qed.

(** Whatever store the application is started on and whatever fails while
    it initialises the database, every history record is still there
    afterwards, in its place and with its first six columns as they were;
    the migration fills the two added columns only. *)
Lemma initialize_keeps_records f s :
  rows_have_table s →
  base_columns <$> assignment_history (store_after (initialize_database f s))
  = base_columns <$> assignment_history s.
Proof.
  intros Hwf. assert (Hs : same_records s s) by done.
  unfold initialize_database. destruct (connect_fails f); [done|].
  destruct (init_body f (connect s)) as [[e|x] c] eqn:Hbody;
    destruct (preserves_init_body s f (connect s) _ _ Hs Hs Hbody)
      as [_ [_ Hc]]; done.
Qed.
End records_kept.

(** ** The history table only grows *)

Lemma send_assignments_history clock smtp_error app :
  ∃ new, assignment_history (db (_send_assignments clock smtp_error app).1)
         = assignment_history (db app) ++ new
         ∧ schema (db (_send_assignments clock smtp_error app).1)
           = schema (db app).
Proof.
  destruct (send_assignments_stored clock smtp_error app)
    as [->|(worker & d & front & rest & _ & _ & _ & ->)].
  - exists []. by rewrite app_nil_r.
  - destruct (with_new_assignments_rows clock 0 (w_id worker) front
                (strftime_Ymd d) (db app)) as (Hrows & _ & _ & Hschema).
    eauto.
Qed.

Lemma step_history (ev : Event) (app : App) :
  (assignment_history (db (step ev app)) = assignment_history (db app)
   ∨ ∃ clock e new,
       ev = SendAssignments clock e
       ∧ assignment_history (db (step ev app))
         = assignment_history (db app) ++ new)
  ∧ schema (db (step ev app)) = schema (db app).
Proof.
  destruct ev; simpl;
    try (unfold _on_worker_select, _unselect_worker, _add_worker,
           _edit_worker, _delete_worker, _add_house, _edit_house,
           _delete_house, change_date;
         repeat case_match; simpl; by auto).
  destruct (send_assignments_history clock smtp_error app) as (new & Hn & Hs).
  split; [|done]. right. eauto.
Qed.

Section append_only.
Context `{Platform}.

(** C9, as the code has it. No event of the running application changes
    or removes a row of [assignment_history]: after an event the table is
    the table before it followed by new rows, and new rows come from a
    commit only; this holds over whole sessions, after a notification
    failure and after deleting a worker or a house.  Starting the
    application again on the migrated store leaves the table as it is.
    Starting it on any other store removes no record and keeps the first
    six columns of every record: what the migration writes into existing
    records are the two columns that it adds, whatever fails during
    initialisation. *)
Theorem assignment_history_append_only (app : App) :
  (∀ ev, assignment_history (db app)
           `prefix_of` assignment_history (db (step ev app)))
  ∧ (∀ ev, assignment_history (db (step ev app))
           ≠ assignment_history (db app) →
           ∃ clock e, ev = SendAssignments clock e)
  ∧ (∀ evs, assignment_history (db app)
              `prefix_of` assignment_history (db (run evs app)))
  ∧ (∀ clock e, assignment_history (db app)
              `prefix_of` assignment_history
                            (db (step (SendAssignments clock (Some e)) app)))
  ∧ (∀ sel, assignment_history (db (step (DeleteWorker sel true) app))
            = assignment_history (db app))
  ∧ (∀ choice, assignment_history (db (step (DeleteHouse choice true) app))
               = assignment_history (db app))
  ∧ (∀ f picker app', migrated (db app) →
       start f picker (db app) = Some app' →
       assignment_history (db app') = assignment_history (db app))
  ∧ (∀ f picker s app', rows_have_table s →
       start f picker s = Some app' →
       base_columns <$> assignment_history (db app')
       = base_columns <$> assignment_history s).
Proof.
  assert (Hstep : ∀ a ev, assignment_history (db a)
                    `prefix_of` assignment_history (db (step ev a))).
  { intros a ev. destruct (step_history ev a) as [[Heq|(?&?&new&_&Heq)] _];
      rewrite Heq; [done|]. by apply prefix_app_r. }
  split_and!.
  - apply Hstep.
  - intros ev Hne. destruct (step_history ev app) as [[Heq|(?&?&?&->&_)] _];
      [done|eauto].
  - intros evs. revert app. induction evs as [|ev evs IH]; intros app; [done|].
    simpl. etrans; [apply Hstep|apply IH].
  - intros clock e. apply Hstep.
  - intros sel. simpl. unfold _delete_worker. by repeat case_match.
  - intros choice. simpl. unfold _delete_house. by repeat case_match.
  - intros f picker app' Hm. unfold start.
    destruct (outcome (initialize_database f (db app))); [|done].
    intros [= <-]. simpl. by rewrite initialize_migrated_any_faults.
  - intros f picker s app' Hwf. unfold start.
    destruct (outcome (initialize_database f s)); [|done].
    intros [= <-]. simpl. by apply initialize_keeps_records.
Qed.
End append_only.

Lemma assignment_history_append_only_witness :
  assignment_history (db assigned)
    `prefix_of` assignment_history
                  (db (run [ DeleteWorker (Some 0%nat) true;
                             DeleteHouse (Some 0%nat) true ] assigned)).
Proof.
  exact (proj1 (proj2 (proj2
    (assignment_history_append_only (H := ascii_platform) assigned))) _).
Defined.

(** C9, as worded, fails at the start of the application: on the file of
    the first version the migration rewrites the record that the table
    holds, filling its target date and its delivery flag. *)
Lemma start_updates_old_records : ¬ no_operation_updates_a_record.
Proof.
  intros [_ Hstart].
  pose proof (Hstart ascii_platform no_faults (Some may_first) legacy_store)
    as Hlegacy.
  vm_compute in Hlegacy.
  specialize (Hlegacy _ legacy_row eq_refl (list_elem_of_here _ _)).
  apply list_elem_of_singleton in Hlegacy. discriminate Hlegacy.
Qed.

(** ** History after deleting a worker or a house *)

Lemma elem_of_history_join (s : Store) (a : Assignment) (w : Worker) (h : House) :
  (a, w, h) ∈ history_join s
  ↔ a ∈ assignment_history s
    ∧ (w ∈ workers s ∧ a_worker_id a = Some (w_id w))
    ∧ (h ∈ houses s ∧ a_house_id a = Some (h_id h)).
Proof.
  unfold history_join. rewrite list_elem_of_bind. split.
  - intros (a' & (w' & (h' & Hin & Hh)%list_elem_of_bind
                      & Hw)%list_elem_of_bind & Ha).
    apply list_elem_of_singleton in Hin as [= -> -> ->].
    apply list_elem_of_filter in Hw as [? ?].
    apply list_elem_of_filter in Hh as [? ?]. done.
  - intros (Ha & [Hw Hwid] & [Hh Hhid]). exists a. split; [|done].
    apply list_elem_of_bind. exists w. split; [|by apply list_elem_of_filter].
    apply list_elem_of_bind. exists h. split; [|by apply list_elem_of_filter].
    by apply list_elem_of_singleton.
Qed.

Lemma bind_filter_nil {A B} (P : A → Prop) `{!∀ a, Decision (P a)}
    (g : A → list B) (l : list A) :
  (∀ a, a ∈ l → ¬ P a → g a = []) → filter P l ≫= g = l ≫= g.
Proof.
  induction l as [|a l IH]; intros Hnil; [done|].
  assert (Hl : ∀ a, a ∈ l → ¬ P a → g a = []).
  { intros a' Ha'. apply Hnil. by right. }
  destruct (decide (P a)) as [HP|HP].
  - rewrite filter_cons_True by done. rewrite !bind_cons. by rewrite IH.
  - rewrite filter_cons_False by done. rewrite bind_cons.
    rewrite (Hnil a (list_elem_of_here _ _) HP). by apply IH.
Qed.

Lemma filter_nil_iff {A} (P : A → Prop) `{!∀ a, Decision (P a)} (l : list A) :
  (∀ x, x ∈ l → ¬ P x) → filter P l = [].
Proof.
  induction l as [|x l IH]; intros Hno; [done|].
  rewrite filter_cons_False by (apply Hno; left).
  apply IH. intros y Hy. apply Hno. by right.
Qed.

Lemma history_without_worker (s : Store) (wid : Z) :
  let s' := delete_worker wid s in
  assignment_history s' = assignment_history s
  ∧ (∀ t, t ∈ history_sorted s' → a_worker_id t.1.1 ≠ Some wid)
  ∧ history_sorted s'
    = history_sorted (forget_records (λ a, a_worker_id a = Some wid) s').
Proof.
  intros s'. split_and!; [done| |].
  - intros [[a w] h] Ht. unfold history_sorted in Ht.
    rewrite merge_sort_Permutation in Ht.
    apply elem_of_history_join in Ht as (_ & [Hw Hwid] & _).
    apply list_elem_of_filter in Hw as [Hne _]. simpl. rewrite Hwid.
    by intros [= ?].
  - unfold history_sorted. f_equal. unfold history_join at 2. simpl.
    rewrite bind_filter_nil; [done|].
    intros a _ Hwid%dec_stable.
    rewrite (filter_nil_iff _ (filter _ (workers s))); [done|].
    intros w [Hne _]%list_elem_of_filter. rewrite Hwid. by intros [= ?].
Qed.

Lemma history_without_house (s : Store) (hid : Z) :
  let s' := delete_house hid s in
  assignment_history s' = assignment_history s
  ∧ (∀ t, t ∈ history_sorted s' → a_house_id t.1.1 ≠ Some hid)
  ∧ history_sorted s'
    = history_sorted (forget_records (λ a, a_house_id a = Some hid) s').
Proof.
  intros s'. split_and!; [done| |].
  - intros [[a w] h] Ht. unfold history_sorted in Ht.
    rewrite merge_sort_Permutation in Ht.
    apply elem_of_history_join in Ht as (_ & _ & [Hh Hhid]).
    apply list_elem_of_filter in Hh as [Hne _]. simpl. rewrite Hhid.
    by intros [= ?].
  - unfold history_sorted. f_equal. unfold history_join at 2. simpl.
    rewrite bind_filter_nil; [done|].
    intros a _ Hhid%dec_stable.
    rewrite (filter_nil_iff _ (filter _ (houses s))).
    { clear. by induction (filter _ (workers s)). }
    intros h [Hne _]%list_elem_of_filter. rewrite Hhid. by intros [= ?].
Qed.

Section deleted.
Context `{Platform}.

Lemma readers_from_join (s : Store) :
  _load_history_data s = listed (history_sorted s)
  ∧ (∀ filter_text, _apply_history_filter s filter_text
                      `sublist_of` listed (history_sorted s))
  ∧ export_rows s = written (history_sorted s).
Proof.
  assert (Hload : _load_history_data s = listed (history_sorted s)).
  { rewrite load_history_data_rows. unfold history_query, listed.
    by rewrite <- list_fmap_compose. }
  split_and!; [done| |].
  - intros filter_text. rewrite <- Hload.
    apply (history_filter_correct s filter_text).
  - rewrite export_rows_rows. unfold written. by rewrite Hload.
Qed.

(** C10. Deleting a worker, or a house, removes nothing from
    [assignment_history]; the joined rows from which the listing, the
    filtered listing and the export are made hold no record of the
    deleted worker, or house, and are the rows that the store would give
    without those records. *)
Theorem deleted_entities_leave_the_listing (app : App) :
  (∀ i w, workers_cache app !! i = Some w →
     let s' := db (_delete_worker (Some i) true app).1 in
     assignment_history s' = assignment_history (db app)
     ∧ (∀ t, t ∈ history_sorted s' → a_worker_id t.1.1 ≠ Some (w_id w))
     ∧ history_sorted s'
       = history_sorted
           (forget_records (λ a, a_worker_id a = Some (w_id w)) s')
     ∧ _load_history_data s' = listed (history_sorted s')
     ∧ (∀ filter_text, _apply_history_filter s' filter_text
                         `sublist_of` listed (history_sorted s'))
     ∧ export_rows s' = written (history_sorted s'))
  ∧ (∀ i h, select_houses (db app) !! i = Some h →
     let s' := db (_delete_house (Some i) true app).1 in
     assignment_history s' = assignment_history (db app)
     ∧ (∀ t, t ∈ history_sorted s' → a_house_id t.1.1 ≠ Some (h_id h))
     ∧ history_sorted s'
       = history_sorted
           (forget_records (λ a, a_house_id a = Some (h_id h)) s')
     ∧ _load_history_data s' = listed (history_sorted s')
     ∧ (∀ filter_text, _apply_history_filter s' filter_text
                         `sublist_of` listed (history_sorted s'))
     ∧ export_rows s' = written (history_sorted s')).
Proof.
  split.
  - intros i w Hw s'.
    assert (Hs' : s' = delete_worker (w_id w) (db app)).
    { subst s'. unfold _delete_worker. simpl. by rewrite Hw. }
    destruct (history_without_worker (db app) (w_id w)) as (Hrows & Hno & Hsame).
    destruct (readers_from_join s') as (Hload & Hfilter & Hexport).
    rewrite Hs' in *. done.
  - intros i h Hh s'.
    assert (Hs' : s' = delete_house (h_id h) (db app)).
    { subst s'. unfold _delete_house. simpl.
      destruct (select_houses (db app)) as [|h0 hs] eqn:Hsel; [done|].
      by rewrite Hh. }
    destruct (history_without_house (db app) (h_id h)) as (Hrows & Hno & Hsame).
    destruct (readers_from_join s') as (Hload & Hfilter & Hexport).
    rewrite Hs' in *. done.
Qed.
End deleted.

Lemma deleted_entities_leave_the_listing_witness :
  workers_cache assigned !! 0%nat = Some ana
  ∧ assignment_history (db (_delete_worker (Some 0%nat) true assigned).1)
    = assignment_history (db assigned)
  ∧ _load_history_data (H := ascii_platform)
      (db (_delete_worker (Some 0%nat) true assigned).1)
    = listed (H := ascii_platform)
        (history_sorted (db (_delete_worker (Some 0%nat) true assigned).1)).
Proof.
  assert (Hcache : workers_cache assigned !! 0%nat = Some ana)
    by (by vm_compute).
  split; [exact Hcache|].
  destruct (proj1 (deleted_entities_leave_the_listing (H := ascii_platform)
                     assigned) 0%nat ana Hcache)
    as (Hrows & _ & _ & Hload & _).
  split; [exact Hrows|exact Hload].
Defined.

(** In the example: once Ana is deleted her two records are still stored,
    the listing is empty and the export holds the header only. *)
Example history_after_deleting_ana :
  length (assignment_history (db (_delete_worker (Some 0%nat) true assigned).1))
  = 2%nat
  ∧ _load_history_data (H := ascii_platform)
      (db (_delete_worker (Some 0%nat) true assigned).1) = []
  ∧ export_rows (H := ascii_platform)
      (db (_delete_worker (Some 0%nat) true assigned).1) = [csv_header].
Proof. by vm_compute. Qed.

(* ===================================================================== *)
(** * Further properties of the code *)
(* ===================================================================== *)

(** ** A commit and the availability of houses *)

Lemma send_assignments_db clock smtp_error app worker d :
  current_worker app = Some worker →
  selected_houses app ≠ [] →
  date_picker app = Some d →
  let stored := _save_assignments_to_db clock 0 (w_id worker)
                  (selected_houses app) (strftime_Ymd d) (db app) in
  db (_send_assignments clock smtp_error app).1 = stored.1
  ∧ (is_Some (handed_over (_send_assignments clock smtp_error app).2)
     ↔ stored.2 = None)
  ∧ (∀ e, stored.2 = Some e →
       _send_assignments clock smtp_error app
       = (set_db stored.1 app,
          {| handed_over := None;
             shown := ErrorBox ("Failed to send assignments: "
                                +:+ str_of_error e) |})).
Proof.
  intros Hworker Hsel Hdate stored. subst stored. unfold _send_assignments.
  rewrite Hworker, Hdate.
  destruct (selected_houses app) as [|sel rest]; [done|].
  destruct (_save_assignments_to_db _ _ _ _ _ _) as [s' [e|]].
  - simpl. split_and!; [done| |by intros ? [= ->]].
    split; [by intros [? [=]]|done].
  - destruct smtp_error; simpl; (split_and!; [done| |done]); split; eauto.
Qed.

Lemma new_assignment_fields id now worker_id sel date :
  a_house_id (new_assignment id now worker_id sel date) = Some sel.1.1
  ∧ a_worker_id (new_assignment id now worker_id sel date) = Some worker_id
  ∧ a_quantity (new_assignment id now worker_id sel date) = Some sel.1.2
  ∧ a_note (new_assignment id now worker_id sel date) = Some sel.2
  ∧ a_assignment_date (new_assignment id now worker_id sel date) = Some date
  ∧ a_email_sent (new_assignment id now worker_id sel date) = Some 1
  ∧ a_id (new_assignment id now worker_id sel date) = id.
Proof. by destruct sel as [[? ?] ?]. Qed.

(** A commit that passes the checks inserts one record for each selection,
    in the order of the selections, up to the first INSERT that raises.
    When every INSERT goes through, the table gains one record for each
    selection, with the worker, the house, the quantity and the note of the
    selection, the date of the picker and the flag 1 under consecutive
    keys, and the message is handed to the mail server.  When an INSERT
    raises, the records of the selections before it stay in the table,
    those of the selections from it on are not inserted, no message is
    handed over, the error is shown and the form stays as it was. *)
Theorem commit_inserts_up_to_first_error
    (clock : nat → string) (smtp_error : option string) (app : App)
    (worker : Worker) (d : Date) :
  current_worker app = Some worker →
  selected_houses app ≠ [] →
  date_picker app = Some d →
  let result := _send_assignments clock smtp_error app in
  let first_id := next_id (seq_history (db app))
                          (a_id <$> assignment_history (db app)) in
  let records (selected : list (Z * Z * string)) :=
    imap (λ i sel, new_assignment (first_id + Z.of_nat i) (clock i)
                     (w_id worker) sel (strftime_Ymd d)) selected in
  (insertable (db app) (w_id worker) (selected_houses app) →
     assignment_history (db result.1)
     = assignment_history (db app) ++ records (selected_houses app)
     ∧ is_Some (handed_over result.2))
  ∧ (¬ insertable (db app) (w_id worker) (selected_houses app) →
     ∃ front sel rest e,
       selected_houses app = front ++ sel :: rest
       ∧ insertable (db app) (w_id worker) front
       ∧ insert_error (db app) (w_id worker) sel = Some e
       ∧ assignment_history (db result.1)
         = assignment_history (db app) ++ records front
       ∧ result.1 = set_db (db result.1) app
       ∧ result.2 = {| handed_over := None;
                       shown := ErrorBox ("Failed to send assignments: "
                                          +:+ str_of_error e) |}).
Proof.
  intros Hworker Hsel Hdate result first_id records.
  destruct (send_assignments_db clock smtp_error app worker d Hworker Hsel
              Hdate) as (Hdb & Hmail & Herror).
  fold result in Hdb, Hmail, Herror. split.
  - intros Hins.
    rewrite (save_assignments_to_db_insertable _ _ _ _ _ _ Hins)
      in Hdb, Hmail.
    split; [|by apply Hmail]. rewrite Hdb. cbn [fst].
    by destruct (with_new_assignments_rows clock 0 (w_id worker)
                   (selected_houses app) (strftime_Ymd d) (db app))
      as [-> _].
  - intros Hno.
    destruct (save_assignments_to_db_stops clock 0 (w_id worker)
                (selected_houses app) (strftime_Ymd d) (db app))
      as (front & rest & Heq & Hstored & Hins & Hraised).
    destruct (_save_assignments_to_db clock 0 (w_id worker)
                (selected_houses app) (strftime_Ymd d) (db app)).2
      as [e|] eqn:He.
    + destruct Hraised as (sel & rest' & -> & Hsel_error).
      exists front, sel, rest', e. rewrite (Herror e eq_refl).
      cbn [fst snd set_db db]. rewrite Hstored.
      split_and!; [done..| |done|done].
      by destruct (with_new_assignments_rows clock 0 (w_id worker) front
                     (strftime_Ymd d) (db app)) as [-> _].
    + destruct Hno. eapply save_assignments_to_db_None. exact He.
Qed.

Lemma commit_inserts_up_to_first_error_witness :
  insertable (db ready) 1 (selected_houses ready)
  ∧ assignment_history (db (_send_assignments noon None ready).1)
    = assignment_history (db ready)
      ++ imap (λ i sel, new_assignment
                 (next_id (seq_history (db ready))
                    (a_id <$> assignment_history (db ready)) + Z.of_nat i)
                 (noon i) 1 sel (strftime_Ymd may_first))
           (selected_houses ready).
Proof.
  assert (Hsel : selected_houses ready ≠ []) by (by vm_compute).
  assert (Hins : insertable (db ready) 1 (selected_houses ready))
    by (apply (bool_decide_unpack _); by vm_compute).
  split; [exact Hins|].
  exact (proj1 (proj1 (commit_inserts_up_to_first_error noon None ready ana
                         may_first eq_refl Hsel eq_refl) Hins)).
Defined.

(** On the file that a failed initialisation left without [email_sent]
    the INSERT raises: nothing is inserted, no message is handed over, and
    the form stays as it was. *)
Example commit_on_half_migrated_store :
  let result := _send_assignments noon None half_migrated in
  table_info (db half_migrated) = history_columns ++ ["assignment_date"]
  ∧ selected_houses half_migrated = [(1, 1, "")]
  ∧ result.1 = half_migrated
  ∧ result.2
    = {| handed_over := None;
         shown := ErrorBox "Failed to send assignments: table assignment_history has no column named email_sent" |}.
Proof. split_and!; by vm_compute. Qed.

(** A quantity beyond 64 bits in the second row: the record of the first
    row is inserted and stays, the second INSERT raises, and no message is
    handed over. *)
Example commit_stops_at_quantity_beyond_64_bits :
  let result := _send_assignments noon None beyond_64_bits in
  selected_houses beyond_64_bits = [(2, 2, "late ok"); (1, 2 ^ 63, "")]
  ∧ assignment_history (db result.1)
    = [ new_assignment 1 (noon 0) 1 (2, 2, "late ok") "2024-05-01" ]
  ∧ selected_houses result.1 = selected_houses beyond_64_bits
  ∧ result.2
    = {| handed_over := None;
         shown := ErrorBox "Failed to send assignments: Python int too large to convert to SQLite INTEGER" |}.
Proof. split_and!; by vm_compute. Qed.

(** A commit for one date leaves the houses offered for any other date,
    and the houses shown without a date picker, as they were. *)
Theorem commit_leaves_other_dates
    (clock : nat → string) (smtp_error : option string) (app : App)
    (d' : Date) :
  (∀ d, date_picker app = Some d → strftime_Ymd d' ≠ strftime_Ymd d) →
  available_houses (db (_send_assignments clock smtp_error app).1) (Some d')
  = available_houses (db app) (Some d')
  ∧ available_houses (db (_send_assignments clock smtp_error app).1) None
    = available_houses (db app) None.
Proof.
  intros Hother.
  destruct (send_assignments_stored clock smtp_error app)
    as [->|(worker & d & front & rest & _ & Hdate & _ & ->)]; [done|].
  destruct (with_new_assignments_rows clock 0 (w_id worker) front
              (strftime_Ymd d) (db app))
    as (Hrows & _ & Hhouses & _).
  unfold available_houses, select_houses, _get_assigned_houses_for_date.
  rewrite Hhouses, Hrows. split; [|done]. do 3 f_equal.
  rewrite filter_app.
  rewrite (filter_nil_iff _ (imap _ _)); [by rewrite app_nil_r|].
  intros a (i & sel & -> & _)%elem_of_lookup_imap [Hon _].
  destruct (new_assignment_fields
              (next_id (seq_history (db app))
                 (a_id <$> assignment_history (db app)) + Z.of_nat i)
              (clock (0 + i)%nat) (w_id worker) sel (strftime_Ymd d))
    as (_ & _ & _ & _ & Hd & _).
  rewrite Hd in Hon. injection Hon as Hon. by apply (Hother d).
Qed.

Lemma commit_leaves_other_dates_witness :
  available_houses (db (_send_assignments noon None ready).1)
    (Some {| year := 2024; month := 5; day := 2 |})
  = available_houses (db ready) (Some {| year := 2024; month := 5; day := 2 |}).
Proof.
  assert (Hother : ∀ d, date_picker ready = Some d →
            strftime_Ymd {| year := 2024; month := 5; day := 2 |}
            ≠ strftime_Ymd d).
  { intros d Hd. vm_compute in Hd. injection Hd as <-. by vm_compute. }
  exact (proj1 (commit_leaves_other_dates noon None ready
                  {| year := 2024; month := 5; day := 2 |} Hother)).
Defined.

(** ** Sending twice *)

Lemma dict_set_Forall {V} (P : Z * V → Prop) k v (d : list (Z * V)) :
  P (k, v) → Forall P d → Forall P (dict_set k v d).
Proof.
  intros Hkv. induction 1 as [|[k' v'] d Hx Hd IH]; simpl.
  - by repeat constructor.
  - case_decide; constructor; auto.
Qed.

Lemma create_house_rows_fresh available vars qty :
  Forall (λ kv, kv.2 = 0) vars → Forall (λ kv, kv.2 = 1) qty →
  Forall (λ kv, kv.2 = 0) (_create_house_rows available vars qty).1
  ∧ Forall (λ kv, kv.2 = 1) (_create_house_rows available vars qty).2.
Proof.
  unfold _create_house_rows. revert vars qty.
  induction available as [|h hs IH]; intros vars qty Hv Hq; [done|].
  simpl. apply IH; by apply dict_set_Forall.
Qed.

Lemma refresh_houses_unticked app : selected_houses (_refresh_houses app) = [].
Proof.
  unfold selected_houses. simpl.
  destruct (create_house_rows_fresh
              (available_houses (db app) (date_picker app)) [] [])
    as [Hv _]; [done..|].
  rewrite filter_nil_iff; [done|].
  intros kv Hkv. rewrite Forall_forall in Hv. rewrite (Hv kv Hkv). lia.
Qed.

(** After a commit whose mail went out no row is ticked and no note is
    kept: sending again at once is turned down and inserts nothing. *)
Theorem resend_after_success_is_rejected
    (clock clock' : nat → string) (smtp_error' : option string) (app : App)
    (worker : Worker) (d : Date) :
  current_worker app = Some worker →
  selected_houses app ≠ [] →
  date_picker app = Some d →
  is_Some (handed_over (_send_assignments clock None app).2) →
  let app' := (_send_assignments clock None app).1 in
  selected_houses app' = []
  ∧ house_notes app' = ∅
  ∧ _send_assignments clock' smtp_error' app'
    = (app', {| handed_over := None;
                shown := ErrorBox "Please select at least one house." |}).
Proof.
  intros Hworker Hsel Hdate Hsent app'.
  destruct (send_assignments_reached _ _ _ Hsent)
    as (worker' & d' & Hworker' & _ & Hdate' & Hins & _).
  destruct (send_assignments_insertable clock None app worker' d' Hworker'
              Hsel Hdate' Hins) as (_ & Happ & _).
  specialize (Happ eq_refl). fold app' in Happ.
  assert (Hnone : selected_houses app' = []).
  { rewrite Happ. apply refresh_houses_unticked. }
  split_and!; [done|by rewrite Happ|].
  unfold _send_assignments. rewrite Hnone.
  replace (current_worker app') with (Some worker'); [done|].
  by rewrite Happ.
Qed.

Lemma resend_after_success_is_rejected_witness :
  is_Some (handed_over (_send_assignments noon None ready).2)
  ∧ shown (_send_assignments noon None
             (_send_assignments noon None ready).1).2
    = ErrorBox "Please select at least one house.".
Proof.
  assert (Hsel : selected_houses ready ≠ []) by (by vm_compute).
  assert (Hsent : is_Some (handed_over (_send_assignments noon None ready).2))
    by (vm_compute; eauto).
  split; [exact Hsent|].
  exact (f_equal (λ r, shown r.2)
           (proj2 (proj2 (resend_after_success_is_rejected noon noon None
                            ready ana may_first eq_refl Hsel eq_refl
                            Hsent)))).
Defined.

Lemma with_new_assignments_next_id clock k worker_id selected date s :
  next_id (seq_history (with_new_assignments clock k worker_id selected date s))
    (a_id <$> assignment_history
                (with_new_assignments clock k worker_id selected date s))
  = next_id (seq_history s) (a_id <$> assignment_history s)
    + Z.of_nat (length selected).
Proof.
  revert k s. induction selected as [|sel rest IH]; intros k s.
  - simpl. lia.
  - cbn [with_new_assignments]. rewrite IH.
    cbn [with_new_assignment seq_history assignment_history length].
    rewrite fmap_app. cbn [fmap list_fmap].
    destruct (new_assignment_fields
                (next_id (seq_history s) (a_id <$> assignment_history s))
                (clock k) worker_id sel date) as (_ & _ & _ & _ & _ & _ & ->).
    rewrite next_id_after_insert. lia.
Qed.

(** After a commit whose mail failed the form is as it was: the same rows
    are ticked, with their quantities and notes.  Sending again inserts the
    whole batch a second time, after the first. *)
Theorem resend_after_failure_duplicates
    (clock clock' : nat → string) (e : string) (smtp_error' : option string)
    (app : App) (worker : Worker) (d : Date) :
  current_worker app = Some worker →
  selected_houses app ≠ [] →
  date_picker app = Some d →
  is_Some (handed_over (_send_assignments clock (Some e) app).2) →
  let app' := (_send_assignments clock (Some e) app).1 in
  let first_id := next_id (seq_history (db app))
                          (a_id <$> assignment_history (db app)) in
  let batch (first : Z) (clock : nat → string) :=
    imap (λ i sel, new_assignment (first + Z.of_nat i) (clock i)
                     (w_id worker) sel (strftime_Ymd d))
         (selected_houses app) in
  selected_houses app' = selected_houses app
  ∧ house_notes app' = house_notes app
  ∧ current_worker app' = Some worker
  ∧ assignment_history (db (_send_assignments clock' smtp_error' app').1)
    = assignment_history (db app)
      ++ batch first_id clock
      ++ batch (first_id + Z.of_nat (length (selected_houses app))) clock'.
Proof.
  intros Hworker Hsel Hdate Hfailed app' first_id batch.
  destruct (send_assignments_reached _ _ _ Hfailed)
    as (worker' & d' & Hworker' & _ & Hdate' & Hins & _).
  assert (worker' = worker) as -> by congruence.
  assert (d' = d) as -> by congruence.
  destruct (send_assignments_insertable clock (Some e) app worker d Hworker
              Hsel Hdate Hins) as (_ & _ & Happ & _).
  specialize (Happ ltac:(done)). fold app' in Happ.
  assert (Hsame : selected_houses app' = selected_houses app)
    by (by rewrite Happ).
  split_and!; [done|by rewrite Happ|by rewrite Happ|].
  assert (Hschema : schema (db app') = schema (db app)).
  { rewrite Happ. cbn [set_db db].
    by destruct (with_new_assignments_rows clock 0 (w_id worker)
                   (selected_houses app) (strftime_Ymd d) (db app))
      as (_ & _ & _ & ->). }
  assert (Hins' : insertable (db app') (w_id worker) (selected_houses app')).
  { rewrite Hsame. eapply Forall_impl; [exact Hins|].
    intros x Hx. simpl in Hx. rewrite <- Hx. by apply insert_error_schema. }
  destruct (send_assignments_insertable clock' smtp_error' app' worker d)
    as (_ & _ & _ & ->);
    [by rewrite Happ|by rewrite Hsame|by rewrite Happ|done|].
  cbn [set_db db]. rewrite Hsame.
  destruct (with_new_assignments_rows clock' 0 (w_id worker)
              (selected_houses app) (strftime_Ymd d) (db app')) as [-> _].
  rewrite Happ. cbn [set_db db].
  rewrite with_new_assignments_next_id.
  destruct (with_new_assignments_rows clock 0 (w_id worker)
              (selected_houses app) (strftime_Ymd d) (db app)) as [-> _].
  by rewrite <- app_assoc.
Qed.

Lemma resend_after_failure_duplicates_witness :
  is_Some (handed_over (_send_assignments noon (Some "timed out") ready).2)
  ∧ selected_houses (_send_assignments noon (Some "timed out") ready).1
    = selected_houses ready.
Proof.
  assert (Hsel : selected_houses ready ≠ []) by (by vm_compute).
  assert (Hfailed : is_Some (handed_over
            (_send_assignments noon (Some "timed out") ready).2))
    by (vm_compute; eauto).
  split; [exact Hfailed|].
  exact (proj1 (resend_after_failure_duplicates noon noon "timed out" None
                  ready ana may_first eq_refl Hsel eq_refl Hfailed)).
Defined.

(** ** The form and the store *)

Lemma dict_set_keys {V} k (v : V) (d : list (Z * V)) k' :
  k' ∈ (dict_set k v d).*1 ↔ k' = k ∨ k' ∈ d.*1.
Proof.
  induction d as [|[k0 v0] d IH]; simpl.
  - rewrite list_elem_of_singleton. split; [auto|].
    by intros [?|?%elem_of_nil].
  - case_decide as Hk; simpl; rewrite !elem_of_cons.
    + subst k0. tauto.
    + rewrite IH. tauto.
Qed.

Lemma dict_set_keys_eq {V W} k (v : V) (w : W) d1 d2 :
  d1.*1 = d2.*1 → (dict_set k v d1).*1 = (dict_set k w d2).*1.
Proof.
  revert d2. induction d1 as [|[k1 v1] d1 IH]; intros [|[k2 v2] d2] Heq;
    simplify_eq/=; try done.
  case_decide; simpl; [by f_equal|]. f_equal. by apply IH.
Qed.

Lemma dict_get_keys {V} k (d : list (Z * V)) :
  is_Some (dict_get k d) ↔ k ∈ d.*1.
Proof.
  induction d as [|[k0 v0] d IH]; simpl.
  - split; [by intros [? ?]|by intros ?%elem_of_nil].
  - case_decide as Hk; rewrite elem_of_cons.
    + subst. split; eauto.
    + rewrite IH. split; [auto|]. by intros [?|?].
Qed.

Lemma dict_set_present_keys {V} k (v : V) (d : list (Z * V)) :
  k ∈ d.*1 → (dict_set k v d).*1 = d.*1.
Proof.
  induction d as [|[k0 v0] d IH]; [by intros ?%elem_of_nil|].
  rewrite fmap_cons. cbn [dict_set fst].
  case_decide as Hk; rewrite fmap_cons; [by subst|].
  intros [?|Hin]%elem_of_cons; [done|]. f_equal. by apply IH.
Qed.

Lemma set_var_keys k v (d : list (Z * Z)) : (set_var k v d).*1 = d.*1.
Proof.
  unfold set_var. destruct (dict_get k d) eqn:Hget; [|done].
  apply dict_set_present_keys, dict_get_keys. by rewrite Hget.
Qed.

Lemma create_house_rows_keys available vars qty :
  vars.*1 = qty.*1 →
  (_create_house_rows available vars qty).1.*1
  = (_create_house_rows available vars qty).2.*1
  ∧ ∀ k, k ∈ (_create_house_rows available vars qty).1.*1
         ↔ k ∈ vars.*1 ∨ k ∈ h_id <$> available.
Proof.
  unfold _create_house_rows. revert vars qty.
  induction available as [|h hs IH]; intros vars qty Heq; simpl.
  - split; [done|]. intros k. rewrite elem_of_nil. tauto.
  - destruct (IH (dict_set (h_id h) 0 vars) (dict_set (h_id h) 1 qty))
      as [Hkeys Hin]; [by apply dict_set_keys_eq|].
    split; [done|]. intros k. rewrite Hin, dict_set_keys, elem_of_cons. tauto.
Qed.

Lemma available_houses_stored s picker h :
  h ∈ available_houses s picker → h ∈ houses s.
Proof.
  unfold available_houses. intros [_ Hh]%list_elem_of_filter.
  by rewrite select_houses_perm in Hh.
Qed.

Lemma refresh_houses_consistent app :
  workers_cache app = select_workers (db app) →
  (∀ w, current_worker app = Some w →
        ∃ w', w' ∈ workers (db app) ∧ w_id w' = w_id w) →
  consistent (_refresh_houses app).
Proof.
  intros Hcache Hworker.
  destruct (create_house_rows_keys
              (available_houses (db app) (date_picker app)) [] [] eq_refl)
    as [Hkeys Hin].
  unfold consistent. simpl. split_and!; [done..| |done].
  intros k [?%elem_of_nil|Hk]%Hin; [done|].
  apply list_elem_of_fmap in Hk as (h & -> & Hh).
  exists h. split; [|done]. by eapply available_houses_stored.
Qed.

Lemma update_worker_keeps_ids name email id s w :
  w ∈ workers s →
  ∃ w', w' ∈ workers (update_worker name email id s) ∧ w_id w' = w_id w.
Proof.
  intros Hw. unfold update_worker. simpl.
  eexists. split; [apply list_elem_of_fmap; eauto|].
  by case_decide.
Qed.

Lemma consistent_same_tables app app' :
  consistent app →
  workers (db app') = workers (db app) →
  houses (db app') = houses (db app) →
  workers_cache app' = workers_cache app →
  all_houses app' = all_houses app →
  (house_vars app').*1 = (house_vars app).*1 →
  (house_qty app').*1 = (house_qty app).*1 →
  current_worker app' = current_worker app →
  consistent app'.
Proof.
  intros (Hcache & Hall & Hkeys & Hrows & Hworker) Hw Hh Hc Ha Hv Hq Hcur.
  unfold consistent, select_workers, select_houses.
  rewrite Hw, Hh, Hc, Ha, Hv, Hq, Hcur. done.
Qed.

Lemma step_consistent (ev : Event) (app : App) :
  consistent app → consistent (step ev app).
Proof.
  intros Hcons.
  pose proof Hcons as (Hcache & Hall & Hkeys & Hrows & Hworker).
  destruct ev; simpl; try done.
  - (* WorkerSelect *)
    unfold _on_worker_select.
    destruct (selection ≫= _) as [w|] eqn:Hsel; [|done].
    apply refresh_houses_consistent; simpl; [done|].
    intros ? [= <-]. exists w. split; [|done].
    destruct selection as [i|]; [|done]. simpl in Hsel.
    apply list_elem_of_lookup_2 in Hsel.
    rewrite Hcache in Hsel. unfold select_workers in Hsel.
    by rewrite merge_sort_Permutation in Hsel.
  - (* UnselectWorker *)
    unfold _unselect_worker. by apply refresh_houses_consistent.
  - (* AddWorker *)
    unfold _add_worker. destruct result as [[name email]|]; [|done].
    unfold consistent. simpl. split_and!; [done..|].
    intros w Hw. destruct (Hworker w Hw) as (w' & Hin & Hid).
    exists w'. split; [|done]. apply elem_of_app. by left.
  - (* EditWorker *)
    unfold _edit_worker.
    destruct (selection ≫= _) as [w0|]; [|done].
    destruct result as [[name email]|]; [|done].
    unfold consistent. simpl. split_and!; [done..|].
    intros w Hw. destruct (Hworker w Hw) as (w' & Hin & Hid).
    destruct (update_worker_keeps_ids name email (w_id w0) (db app) w' Hin)
      as (w'' & Hin'' & Hid'').
    exists w''. split; [done|congruence].
  - (* DeleteWorker *)
    unfold _delete_worker.
    destruct (selection ≫= _) as [w0|]; [|done].
    destruct confirmed; [|done]. simpl.
    by apply refresh_houses_consistent.
  - (* AddHouse *)
    unfold _add_house. destruct result as [name|]; [|done].
    by apply refresh_houses_consistent.
  - (* EditHouse *)
    unfold _edit_house. destruct (select_houses (db app)) as [|h0 hs]; [done|].
    destruct (choice ≫= _) as [h|]; [|done].
    destruct result as [name|]; [|done]. simpl.
    by apply refresh_houses_consistent.
  - (* DeleteHouse *)
    unfold _delete_house. destruct (select_houses (db app)) as [|h0 hs]; [done|].
    destruct (choice ≫= _) as [h|]; [|done].
    destruct confirmed; [|done]. simpl.
    by apply refresh_houses_consistent.
  - (* TickHouse *)
    eapply consistent_same_tables; [done..| |done|done].
    apply set_var_keys.
  - (* TypeQuantity *)
    eapply consistent_same_tables; [done..| |done].
    apply set_var_keys.
  - (* ChangeDate *)
    unfold change_date. destruct (date_picker app); [|done].
    destruct refresh; [by apply refresh_houses_consistent|done].
  - (* SendAssignments *)
    unfold _send_assignments.
    destruct (current_worker app) as [worker|] eqn:Hcur; [|done].
    destruct (selected_houses app) as [|sel rest] eqn:Hsel; [done|].
    destruct (date_picker app) as [d|]; [|done].
    destruct (save_assignments_to_db_stops clock 0 (w_id worker)
                (sel :: rest) (strftime_Ymd d) (db app))
      as (front & rest' & _ & Hdb & _).
    destruct (with_new_assignments_rows clock 0 (w_id worker) front
                (strftime_Ymd d) (db app)) as (_ & Hw & Hh & _).
    rewrite <- Hdb in Hw, Hh. clear Hdb.
    destruct (_save_assignments_to_db clock 0 (w_id worker) (sel :: rest)
                (strftime_Ymd d) (db app)) as [s' raised].
    cbn [fst] in Hw, Hh.
    destruct raised as [e|]; [|destruct smtp_error]; simpl.
    + eapply consistent_same_tables; [done|simpl..]; done.
    + eapply consistent_same_tables; [done|simpl..]; done.
    + apply refresh_houses_consistent; simpl.
      * unfold select_workers. by rewrite Hw.
      * rewrite Hw, Hcur. apply Hworker.
Qed.

Section form.
Context `{Platform}.

(** From the start of the application and through every event the form
    agrees with the store: the worker list and the house list are the
    current SELECTs, every row on screen is a stored house and has its spin
    box, and the selected worker is stored.  So a ticked row is sent with
    the quantity of its own spin box and with the name of its house. *)
Theorem form_agrees_with_store :
  (∀ f picker s app, start f picker s = Some app → consistent app)
  ∧ (∀ ev app, consistent app → consistent (step ev app))
  ∧ (∀ evs app, consistent app → consistent (run evs app))
  ∧ (∀ app sel, consistent app → sel ∈ selected_houses app →
       dict_get sel.1.1 (house_qty app) = Some sel.1.2
       ∧ ∃ h, h ∈ all_houses app ∧ h ∈ houses (db app) ∧ h_id h = sel.1.1).
Proof.
  split_and!.
  - intros f picker s app. unfold start.
    destruct (outcome (initialize_database f s)); [|done].
    intros [= <-]. by apply refresh_houses_consistent.
  - intros ev app. apply step_consistent.
  - intros evs. induction evs as [|ev evs IH]; intros app Hc; [done|].
    simpl. apply IH. by apply step_consistent.
  - intros app sel (Hcache & Hall & Hkeys & Hrows & Hworker) Hsel.
    unfold selected_houses in Hsel.
    apply list_elem_of_fmap in Hsel as ([k v] & -> & Hkv).
    apply list_elem_of_filter in Hkv as [_ Hkv]. simpl.
    assert (Hk : k ∈ (house_vars app).*1).
    { apply list_elem_of_fmap. by exists (k, v). }
    split.
    + assert (Hq : is_Some (dict_get k (house_qty app))).
      { apply dict_get_keys. by rewrite <- Hkeys. }
      destruct Hq as [q ->]. done.
    + destruct (Hrows k Hk) as (h & Hh & Hid). exists h.
      split_and!; [|done..]. rewrite Hall.
      by rewrite select_houses_perm.
Qed.
End form.

Lemma form_agrees_with_store_witness :
  consistent opened ∧ consistent (step (WorkerSelect (Some 0%nat)) opened).
Proof.
  assert (Hopened : consistent opened).
  { apply (proj1 (proj2 (proj2 (form_agrees_with_store (H := ascii_platform))))).
    destruct (start (H := ascii_platform) no_faults (Some may_first) empty_store)
      as [app|] eqn:Hstart; simpl.
    - by apply (proj1 (form_agrees_with_store (H := ascii_platform))
                  no_faults (Some may_first) empty_store).
    - vm_compute in Hstart. discriminate Hstart. }
  split; [exact Hopened|].
  exact (proj1 (proj2 (form_agrees_with_store (H := ascii_platform)))
           _ _ Hopened).
Defined.

(** ** Keys *)

Lemma next_id_above seq ids :
  seq < next_id seq ids ∧ ∀ x, x ∈ ids → x < next_id seq ids.
Proof.
  unfold next_id. destruct (foldr_max_ge seq ids) as [Hseq Hids].
  split; [lia|]. intros x Hx. specialize (Hids x Hx). lia.
Qed.

Lemma table_keys_ok_insert {A} (key : A → Z) rows seq x :
  key x = next_id seq (key <$> rows) →
  table_keys_ok key rows seq → table_keys_ok key (rows ++ [x]) (key x).
Proof.
  intros Hx [Hnd Hle]. destruct (next_id_above seq (key <$> rows)) as [_ Hids].
  split.
  - rewrite fmap_app. apply NoDup_app. split_and!; [done| |apply NoDup_singleton].
    intros k Hk Hkx%list_elem_of_singleton. specialize (Hids _ Hk). lia.
  - apply Forall_app. split; [|by repeat constructor].
    apply Forall_forall. intros r Hr.
    specialize (Hids (key r) (list_elem_of_fmap_2 key _ _ Hr)). lia.
Qed.

Lemma table_keys_ok_update {A} (key : A → Z) (f : A → A) rows seq :
  (∀ r, key (f r) = key r) →
  table_keys_ok key rows seq → table_keys_ok key (f <$> rows) seq.
Proof.
  intros Hf [Hnd Hle]. split.
  - rewrite <- list_fmap_compose.
    rewrite (list_fmap_ext (key ∘ f) key rows); [done|].
    intros i r _. apply Hf.
  - apply Forall_fmap. eapply Forall_impl; [done|]. intros r. simpl.
    by rewrite Hf.
Qed.

Lemma table_keys_ok_filter {A} (key : A → Z) (P : A → Prop)
    `{!∀ r, Decision (P r)} rows seq :
  table_keys_ok key rows seq → table_keys_ok key (filter P rows) seq.
Proof.
  intros [Hnd Hle]. split.
  - apply (sublist_NoDup _ (key <$> rows)); [done|].
    apply fmap_sublist, sublist_filter.
  - apply Forall_forall. intros r [_ Hr]%list_elem_of_filter.
    rewrite Forall_forall in Hle. by apply Hle.
Qed.

Lemma retired_insert {A} (key : A → Z) rows seq x k :
  key x = next_id seq (key <$> rows) →
  retired key rows seq k → retired key (rows ++ [x]) (key x) k.
Proof.
  intros Hx [Hle Hout]. destruct (next_id_above seq (key <$> rows)) as [Hseq _].
  split; [lia|]. rewrite fmap_app.
  intros [?|Hk%list_elem_of_singleton]%elem_of_app; [done|lia].
Qed.

Lemma retired_update {A} (key : A → Z) (f : A → A) rows seq k :
  (∀ r, key (f r) = key r) →
  retired key rows seq k → retired key (f <$> rows) seq k.
Proof.
  intros Hf [Hle Hout]. split; [done|].
  intros (r' & -> & (r & -> & Hr)%list_elem_of_fmap)%list_elem_of_fmap.
  apply Hout. rewrite Hf. by apply list_elem_of_fmap_2.
Qed.

Lemma retired_filter {A} (key : A → Z) (P : A → Prop)
    `{!∀ r, Decision (P r)} rows seq k :
  retired key rows seq k → retired key (filter P rows) seq k.
Proof.
  intros [Hle Hout]. split; [done|].
  intros (r & -> & [_ Hr]%list_elem_of_filter)%list_elem_of_fmap.
  apply Hout. by apply list_elem_of_fmap_2.
Qed.

Lemma with_new_assignments_keys_ok clock k worker_id selected date s :
  keys_ok s → keys_ok (with_new_assignments clock k worker_id selected date s).
Proof.
  revert k s. induction selected as [|sel rest IH]; intros k s Hok; [done|].
  cbn [with_new_assignments]. apply IH.
  destruct Hok as (Hw & Hh & Ha). split_and!; [done..|].
  cbn [with_new_assignment assignment_history seq_history].
  pose proof (new_assignment_fields
                (next_id (seq_history s) (a_id <$> assignment_history s))
                (clock k) worker_id sel date) as (_ & _ & _ & _ & _ & _ & Hid).
  pose proof (table_keys_ok_insert a_id (assignment_history s) (seq_history s)
                _ Hid Ha) as Hins.
  by rewrite Hid in Hins.
Qed.

Lemma with_new_assignments_other_tables clock k worker_id selected date s :
  workers (with_new_assignments clock k worker_id selected date s)
  = workers s
  ∧ seq_workers (with_new_assignments clock k worker_id selected date s)
    = seq_workers s
  ∧ houses (with_new_assignments clock k worker_id selected date s)
    = houses s
  ∧ seq_houses (with_new_assignments clock k worker_id selected date s)
    = seq_houses s.
Proof.
  revert k s. induction selected as [|sel rest IH]; intros k s; [done|].
  cbn [with_new_assignments].
  destruct (IH (S k) (with_new_assignment (clock k) worker_id sel date s))
    as (-> & -> & -> & ->). done.
Qed.

(** What an event does to the store: nothing, one of the six statements
    on workers and houses, or the INSERTs of a commit that went through. *)
Lemma step_db (ev : Event) (app : App) :
  db (step ev app) = db app
  ∨ (∃ name email, db (step ev app) = insert_worker name email (db app))
  ∨ (∃ name email id, db (step ev app) = update_worker name email id (db app))
  ∨ (∃ id, db (step ev app) = delete_worker id (db app))
  ∨ (∃ name, db (step ev app) = insert_house name (db app))
  ∨ (∃ name id, db (step ev app) = update_house name id (db app))
  ∨ (∃ id, db (step ev app) = delete_house id (db app))
  ∨ (∃ clock worker_id selected date,
       db (step ev app)
       = with_new_assignments clock 0 worker_id selected date (db app)).
Proof.
  destruct ev; simpl;
    try (unfold _on_worker_select, _unselect_worker, change_date;
         repeat case_match; by left).
  - unfold _add_worker. destruct result as [[name email]|]; [|by left].
    right; left. by exists name, email.
  - unfold _edit_worker. destruct (selection ≫= _) as [w|]; [|by left].
    destruct result as [[name email]|]; [|by left].
    do 2 right; left. by exists name, email, (w_id w).
  - unfold _delete_worker. destruct (selection ≫= _) as [w|]; [|by left].
    destruct confirmed; [|by left]. do 3 right; left. by exists (w_id w).
  - unfold _add_house. destruct result as [name|]; [|by left].
    do 4 right; left. by exists name.
  - unfold _edit_house. destruct (select_houses (db app)) as [|h0 hs]; [by left|].
    destruct (choice ≫= _) as [h|]; [|by left].
    destruct result as [name|]; [|by left].
    do 5 right; left. by exists name, (h_id h).
  - unfold _delete_house. destruct (select_houses (db app)) as [|h0 hs]; [by left|].
    destruct (choice ≫= _) as [h|]; [|by left].
    destruct confirmed; [|by left]. do 6 right; left. by exists (h_id h).
  - destruct (send_assignments_stored clock smtp_error app)
      as [->|(worker & d & front & rest & _ & _ & _ & ->)]; [by left|].
    do 7 right. by exists clock, (w_id worker), front, (strftime_Ymd d).
Qed.

Lemma step_keys_ok (ev : Event) (app : App) :
  keys_ok (db app) → keys_ok (db (step ev app)).
Proof.
  intros (Hw & Hh & Ha).
  destruct (step_db ev app)
    as [->|[(n & e & ->)|[(n & e & id & ->)|[(id & ->)|[(n & ->)
       |[(n & id & ->)|[(id & ->)|(c & wid & sel & date & ->)]]]]]]].
  - done.
  - split_and!; [|done..].
    by apply (table_keys_ok_insert w_id (workers (db app))
                (seq_workers (db app))).
  - split_and!; [|done..]. simpl.
    apply table_keys_ok_update; [|done]. intros w. by case_decide.
  - split_and!; [|done..]. by apply table_keys_ok_filter.
  - split_and!; [done| |done].
    by apply (table_keys_ok_insert h_id (houses (db app))
                (seq_houses (db app))).
  - split_and!; [done| |done]. simpl.
    apply table_keys_ok_update; [|done]. intros h. by case_decide.
  - split_and!; [done| |done]. by apply table_keys_ok_filter.
  - by apply with_new_assignments_keys_ok.
Qed.

Lemma step_worker_gone (k : Z) (ev : Event) (app : App) :
  worker_gone k (db app) → worker_gone k (db (step ev app)).
Proof.
  unfold worker_gone. intros Hgone.
  destruct (step_db ev app)
    as [->|[(n & e & ->)|[(n & e & id & ->)|[(id & ->)|[(n & ->)
       |[(n & id & ->)|[(id & ->)|(c & wid & sel & date & ->)]]]]]]];
    try done.
  - by apply (retired_insert w_id (workers (db app)) (seq_workers (db app))).
  - simpl. apply retired_update; [|done]. intros w. by case_decide.
  - by apply retired_filter.
  - destruct (with_new_assignments_other_tables c 0 wid sel date (db app))
      as (-> & -> & _). done.
Qed.

Lemma step_house_gone (k : Z) (ev : Event) (app : App) :
  house_gone k (db app) → house_gone k (db (step ev app)).
Proof.
  unfold house_gone. intros Hgone.
  destruct (step_db ev app)
    as [->|[(n & e & ->)|[(n & e & id & ->)|[(id & ->)|[(n & ->)
       |[(n & id & ->)|[(id & ->)|(c & wid & sel & date & ->)]]]]]]];
    try done.
  - by apply (retired_insert h_id (houses (db app)) (seq_houses (db app))).
  - simpl. apply retired_update; [|done]. intros h. by case_decide.
  - by apply retired_filter.
  - destruct (with_new_assignments_other_tables c 0 wid sel date (db app))
      as (_ & _ & -> & ->). done.
Qed.

(** ** Invariants of initialisation *)

Section init_invariants.
Context `{Platform}.

Lemma preserves_execute_any (I : Store → Prop) f st :
  (∀ s s', I s → run_stmt st s = Some s' → I s') →
  preserves I (execute f st).
Proof.
  intros HI c r c' Hw Hc. unfold execute.
  destruct (stmt_fails f st); [by intros [= <- <-]|].
  destruct (run_stmt st (working c)) as [s'|] eqn:Hrun;
    [|by intros [= <- <-]].
  pose proof (HI _ s' Hw Hrun).
  destruct (in_transaction c || begins_transaction st);
    by intros [= <- <-].
Qed.

(** A property of stores that every statement of the initialisation keeps
    is kept by the initialisation, whatever fails in it and whatever the
    driver commits on the way. *)
Lemma initialize_database_invariant (I : Store → Prop) f s :
  (∀ st s s', I s → run_stmt st s = Some s' → I s') →
  I s → I (store_after (initialize_database f s)).
Proof.
  intros HI Hs. unfold initialize_database.
  destruct (connect_fails f); [done|].
  assert (Hbody : preserves I (init_body f)).
  { unfold init_body, _create_tables, _migrate_database.
    repeat first
      [ apply preserves_bind; [|intros ?]
      | apply preserves_execute_any, HI
      | apply preserves_print
      | apply preserves_fetch
      | apply preserves_commit
      | apply preserves_ret
      | case_decide ]. }
  destruct (init_body f (connect s)) as [[e|x] c] eqn:Hrun;
    by destruct (Hbody (connect s) _ _ Hs Hs Hrun) as [_ Hc].
Qed.

Lemma run_stmt_tables st s s' :
  run_stmt st s = Some s' →
  (workers s' = workers s ∧ seq_workers s' = seq_workers s
   ∨ schema s !! "workers" = None ∧ workers s' = [] ∧ seq_workers s' = 0)
  ∧ (houses s' = houses s ∧ seq_houses s' = seq_houses s
     ∨ schema s !! "houses" = None ∧ houses s' = [] ∧ seq_houses s' = 0)
  ∧ (a_id <$> assignment_history s' = a_id <$> assignment_history s
     ∧ seq_history s' = seq_history s
     ∨ schema s !! "assignment_history" = None
       ∧ assignment_history s' = [] ∧ seq_history s' = 0)
  ∧ (∀ name, is_Some (schema s !! name) → is_Some (schema s' !! name)).
Proof.
  assert (Hcreate : ∀ name, name = "workers" ∨ name = "houses"
                            ∨ name = "assignment_history" →
    let s1 := create_table_if_not_exists name s in
    (workers s1 = workers s ∧ seq_workers s1 = seq_workers s
     ∨ schema s !! "workers" = None ∧ workers s1 = [] ∧ seq_workers s1 = 0)
    ∧ (houses s1 = houses s ∧ seq_houses s1 = seq_houses s
       ∨ schema s !! "houses" = None ∧ houses s1 = [] ∧ seq_houses s1 = 0)
    ∧ (a_id <$> assignment_history s1 = a_id <$> assignment_history s
       ∧ seq_history s1 = seq_history s
       ∨ schema s !! "assignment_history" = None
         ∧ assignment_history s1 = [] ∧ seq_history s1 = 0)
    ∧ (∀ n, is_Some (schema s !! n) → is_Some (schema s1 !! n))).
  { intros name Hname s1. subst s1. unfold create_table_if_not_exists.
    destruct (schema s !! name) eqn:Hs; [by auto 10|].
    assert (Hkeep : ∀ n cols, is_Some (schema s !! n) →
              is_Some (<[name := cols]> (schema s) !! n)).
    { intros n cols Hn. destruct (decide (name = n)) as [-> | Hne].
      - rewrite lookup_insert_eq. eauto.
      - by rewrite lookup_insert_ne. }
    unfold with_new_table.
    destruct Hname as [-> | [-> | ->]]; simpl; split_and!; auto 10. }
  assert (Hmap : ∀ g : Assignment → Assignment, (∀ a, a_id (g a) = a_id a) →
            a_id <$> (g <$> assignment_history s)
            = a_id <$> assignment_history s).
  { intros g Hg. rewrite <- list_fmap_compose.
    apply list_fmap_ext. intros i a _. apply Hg. }
  assert (Hkeep : ∀ n cols, is_Some (schema s !! n) →
            is_Some (<["assignment_history" := cols]> (schema s) !! n)).
  { intros n cols Hn. destruct (decide ("assignment_history" = n)) as [<- | Hne].
    - rewrite lookup_insert_eq. eauto.
    - by rewrite lookup_insert_ne. }
  intros Hrun. destruct st; simpl in Hrun.
  - injection Hrun as <-. apply Hcreate. auto.
  - injection Hrun as <-. apply Hcreate. auto.
  - injection Hrun as <-. apply Hcreate. auto.
  - injection Hrun as <-. auto 10.
  - unfold add_column in Hrun.
    destruct (schema s !! "assignment_history"); [|done].
    case_decide; [done|]. injection Hrun as <-. simpl.
    split_and!; auto;
      try (left; split; [|done]; apply Hmap; intros a; simpl;
           by repeat case_match).
  - unfold update_history in Hrun.
    destruct (schema s !! "assignment_history"); [|done].
    case_decide; [|done]. injection Hrun as <-. simpl.
    split_and!; auto;
      try (left; split; [|done]; apply Hmap; intros a; simpl;
           by repeat case_match).
  - unfold add_column in Hrun.
    destruct (schema s !! "assignment_history"); [|done].
    case_decide; [done|]. injection Hrun as <-. simpl.
    split_and!; auto;
      try (left; split; [|done]; apply Hmap; intros a; simpl;
           by repeat case_match).
  - unfold update_history in Hrun.
    destruct (schema s !! "assignment_history"); [|done].
    case_decide; [|done]. injection Hrun as <-. simpl.
    split_and!; auto;
      try (left; split; [|done]; apply Hmap; intros a; simpl;
           by repeat case_match).
Qed.
End init_invariants.

Section init_tables.
Context `{Platform}.

(** Initialising the database loses no worker and no house and hands out
    no key: on a store whose missing tables are empty, the two tables, the
    keys of the history records and the three counters come out as they
    went in, whatever fails on the way. *)
Theorem initialize_keeps_workers_and_houses (f : Faults) (s : Store) :
  absent_tables_empty s →
  let s' := store_after (initialize_database f s) in
  workers s' = workers s ∧ houses s' = houses s
  ∧ a_id <$> assignment_history s' = a_id <$> assignment_history s
  ∧ seq_workers s' = seq_workers s ∧ seq_houses s' = seq_houses s
  ∧ seq_history s' = seq_history s
  ∧ absent_tables_empty s'.
Proof.
  intros Hs s'.
  pose (I := λ s1 : Store,
    workers s1 = workers s ∧ houses s1 = houses s
    ∧ a_id <$> assignment_history s1 = a_id <$> assignment_history s
    ∧ seq_workers s1 = seq_workers s ∧ seq_houses s1 = seq_houses s
    ∧ seq_history s1 = seq_history s
    ∧ absent_tables_empty s1).
  apply (initialize_database_invariant I f s); [|by unfold I].
  clear s'. intros st s1 s2 (Hw & Hh & Ha & Hsw & Hsh & Hsa & He1) Hrun.
  destruct (run_stmt_tables st s1 s2 Hrun) as (Tw & Th & Ta & Tschema).
  destruct He1 as (Ew & Eh & Ea).
  assert (Hnone : ∀ name, schema s2 !! name = None → schema s1 !! name = None).
  { intros name Hn. destruct (schema s1 !! name) eqn:Hs1; [|done].
    destruct (Tschema name) as [? Hsome]; [eauto|]. congruence. }
  assert (Fw : workers s2 = workers s1 ∧ seq_workers s2 = seq_workers s1).
  { destruct Tw as [?|(Tw0 & -> & ->)]; [done|].
    by destruct (Ew Tw0) as [-> ->]. }
  assert (Fh : houses s2 = houses s1 ∧ seq_houses s2 = seq_houses s1).
  { destruct Th as [?|(Th0 & -> & ->)]; [done|].
    by destruct (Eh Th0) as [-> ->]. }
  assert (Fa : a_id <$> assignment_history s2 = a_id <$> assignment_history s1
               ∧ seq_history s2 = seq_history s1).
  { destruct Ta as [?|(Ta0 & -> & ->)]; [done|].
    by destruct (Ea Ta0) as [-> ->]. }
  destruct Fw as [Fw1 Fw2], Fh as [Fh1 Fh2], Fa as [Fa1 Fa2].
  unfold I, absent_tables_empty.
  rewrite Fw1, Fw2, Fh1, Fh2, Fa1, Fa2.
  split_and!; try done.
  - intros Hn. by apply Ew, Hnone.
  - intros Hn. by apply Eh, Hnone.
  - intros Hn. destruct (Ea (Hnone _ Hn)) as [Hrows Hseq]. split; [|done].
    apply (fmap_nil_inv a_id). by rewrite Fa1, Hrows.
Qed.

Lemma run_stmt_keys_ok st s s' :
  keys_ok s → run_stmt st s = Some s' → keys_ok s'.
Proof.
  intros (Hw & Hh & [Ha1 Ha2]) Hrun.
  destruct (run_stmt_tables st s s' Hrun) as (Tw & Th & Ta & _).
  split_and!.
  - destruct Tw as [[-> ->]|(_ & -> & ->)]; [done|].
    split; [apply NoDup_nil_2|done].
  - destruct Th as [[-> ->]|(_ & -> & ->)]; [done|].
    split; [apply NoDup_nil_2|done].
  - destruct Ta as [[Hids ->]|(_ & -> & ->)].
    + split; [by rewrite Hids|].
      apply (Forall_fmap a_id (λ k, k ≤ seq_history s)). rewrite Hids.
      by apply Forall_fmap.
    + split; [apply NoDup_nil_2|done].
Qed.
End init_tables.

Lemma initialize_keeps_workers_and_houses_witness :
  absent_tables_empty legacy_store
  ∧ workers (store_after (initialize_database (H := ascii_platform)
                            disk_full_at_email_sent legacy_store))
    = workers legacy_store.
Proof.
  assert (Hs : absent_tables_empty legacy_store).
  { unfold absent_tables_empty. split_and!; intros Hn; vm_compute in Hn;
      discriminate Hn. }
  split; [exact Hs|].
  exact (proj1 (initialize_keeps_workers_and_houses (H := ascii_platform)
                  disk_full_at_email_sent legacy_store Hs)).
Defined.

Section keys.
Context `{Platform}.

(** Initialisation and every event keep the keys of the three tables
    apart and at or below the AUTOINCREMENT counters: no two workers, no
    two houses and no two history records ever share a key. *)
Theorem keys_stay_unique :
  (∀ f s, keys_ok s → keys_ok (store_after (initialize_database f s)))
  ∧ (∀ ev app, keys_ok (db app) → keys_ok (db (step ev app)))
  ∧ (∀ evs app, keys_ok (db app) → keys_ok (db (run evs app))).
Proof.
  split_and!.
  - intros f s. apply initialize_database_invariant.
    intros st s1 s2. apply run_stmt_keys_ok.
  - intros ev app. apply step_keys_ok.
  - intros evs. induction evs as [|ev evs IH]; intros app Hok; [done|].
    simpl. by apply IH, step_keys_ok.
Qed.
End keys.

Lemma keys_ok_opened : keys_ok (db opened).
Proof.
  unfold keys_ok, table_keys_ok.
  split_and!; apply (bool_decide_unpack _); by vm_compute.
Qed.

Lemma keys_stay_unique_witness : keys_ok (db opened) ∧ keys_ok (db ready).
Proof.
  split; [exact keys_ok_opened|].
  exact (proj2 (proj2 (keys_stay_unique (H := ascii_platform))) _ opened
           keys_ok_opened).
Defined.

Lemma run_worker_gone k evs app :
  worker_gone k (db app) → worker_gone k (db (run evs app)).
Proof.
  revert app. induction evs as [|ev evs IH]; intros app Hgone; [done|].
  simpl. by apply IH, step_worker_gone.
Qed.

Lemma run_house_gone k evs app :
  house_gone k (db app) → house_gone k (db (run evs app)).
Proof.
  revert app. induction evs as [|ev evs IH]; intros app Hgone; [done|].
  simpl. by apply IH, step_house_gone.
Qed.

(** The key of a deleted worker, or house, is never handed out again:
    whatever is done after the deletion, no worker, or house, carries it,
    so the history records of the deleted one stay out of the listing and
    never show under the name of a later one. *)
Theorem deleted_keys_never_return (app : App) (evs : list Event) :
  keys_ok (db app) →
  consistent app →
  (∀ i w, workers_cache app !! i = Some w →
     let app' := run evs (step (DeleteWorker (Some i) true) app) in
     (∀ w', w' ∈ workers (db app') → w_id w' ≠ w_id w)
     ∧ (∀ t, t ∈ history_sorted (db app') → a_worker_id t.1.1 ≠ Some (w_id w)))
  ∧ (∀ i h, select_houses (db app) !! i = Some h →
     let app' := run evs (step (DeleteHouse (Some i) true) app) in
     (∀ h', h' ∈ houses (db app') → h_id h' ≠ h_id h)
     ∧ (∀ t, t ∈ history_sorted (db app') → a_house_id t.1.1 ≠ Some (h_id h))).
Proof.
  intros ([_ Hwle] & [_ Hhle] & _) (Hcache & _). split.
  - intros i w Hw app'.
    assert (Hin : w ∈ workers (db app)).
    { apply list_elem_of_lookup_2 in Hw. rewrite Hcache in Hw.
      unfold select_workers in Hw. by rewrite merge_sort_Permutation in Hw. }
    assert (Hgone : worker_gone (w_id w) (db app')).
    { apply run_worker_gone. simpl. unfold _delete_worker. simpl.
      rewrite Hw. simpl. split.
      - rewrite Forall_forall in Hwle. by apply Hwle.
      - intros (w' & Hid & [Hne _]%list_elem_of_filter)%list_elem_of_fmap.
        done. }
    destruct Hgone as [_ Hout].
    assert (Hnone : ∀ w', w' ∈ workers (db app') → w_id w' ≠ w_id w).
    { intros w' Hw' Hid. apply Hout. rewrite <- Hid.
      by apply list_elem_of_fmap_2. }
    split; [done|]. intros [[a w'] h'] Ht. unfold history_sorted in Ht.
    rewrite merge_sort_Permutation in Ht.
    apply elem_of_history_join in Ht as (_ & [Hw' Hwid] & _). simpl.
    rewrite Hwid. intros [= Hid]. by apply (Hnone w').
  - intros i h Hh app'.
    assert (Hin : h ∈ houses (db app)).
    { apply list_elem_of_lookup_2 in Hh. by rewrite select_houses_perm in Hh. }
    assert (Hgone : house_gone (h_id h) (db app')).
    { apply run_house_gone. simpl. unfold _delete_house.
      destruct (select_houses (db app)) as [|h0 hs] eqn:Hsel; [done|].
      simpl. rewrite Hh. simpl. split.
      - rewrite Forall_forall in Hhle. by apply Hhle.
      - intros (h' & Hid & [Hne _]%list_elem_of_filter)%list_elem_of_fmap.
        done. }
    destruct Hgone as [_ Hout].
    assert (Hnone : ∀ h', h' ∈ houses (db app') → h_id h' ≠ h_id h).
    { intros h' Hh' Hid. apply Hout. rewrite <- Hid.
      by apply list_elem_of_fmap_2. }
    split; [done|]. intros [[a w'] h'] Ht. unfold history_sorted in Ht.
    rewrite merge_sort_Permutation in Ht.
    apply elem_of_history_join in Ht as (_ & _ & [Hh' Hhid]). simpl.
    rewrite Hhid. intros [= Hid]. by apply (Hnone h').
Qed.

Lemma run_consistent evs app : consistent app → consistent (run evs app).
Proof.
  revert app. induction evs as [|ev evs IH]; intros app Hc; [done|].
  simpl. by apply IH, step_consistent.
Qed.

Lemma run_keys_ok evs app : keys_ok (db app) → keys_ok (db (run evs app)).
Proof.
  revert app. induction evs as [|ev evs IH]; intros app Hok; [done|].
  simpl. by apply IH, step_keys_ok.
Qed.

Lemma consistent_opened : consistent opened.
Proof.
  apply run_consistent.
  destruct (start (H := ascii_platform) no_faults (Some may_first) empty_store)
    as [app|] eqn:Hstart; [|vm_compute in Hstart; discriminate Hstart].
  simpl. unfold start in Hstart.
  destruct (outcome (initialize_database no_faults empty_store)); [|done].
  injection Hstart as <-. by apply refresh_houses_consistent.
Qed.

Lemma consistent_assigned : consistent assigned.
Proof.
  apply (step_consistent (SendAssignments noon None) ready).
  apply run_consistent, consistent_opened.
Qed.

Lemma keys_ok_assigned : keys_ok (db assigned).
Proof.
  apply (step_keys_ok (SendAssignments noon None) ready).
  apply run_keys_ok, keys_ok_opened.
Qed.

Lemma deleted_keys_never_return_witness :
  workers_cache assigned !! 0%nat = Some ana
  ∧ ∀ w', w' ∈ workers (db (run [ AddWorker (Some ("Bea", "bea@x.com")) ]
                              (step (DeleteWorker (Some 0%nat) true) assigned)))
          → w_id w' ≠ w_id ana.
Proof.
  assert (Hcache : workers_cache assigned !! 0%nat = Some ana)
    by (by vm_compute).
  split; [exact Hcache|].
  exact (proj1 (proj1 (deleted_keys_never_return assigned
                         [ AddWorker (Some ("Bea", "bea@x.com")) ]
                         keys_ok_assigned consistent_assigned)
                  0%nat ana Hcache)).
Defined.

(** ** The houses of a commit on the form *)

Lemma refresh_houses_rows app k :
  k ∈ (house_vars (_refresh_houses app)).*1
  ↔ k ∈ h_id <$> available_houses (db app) (date_picker app).
Proof.
  destruct (create_house_rows_keys
              (available_houses (db app) (date_picker app)) [] [] eq_refl)
    as [_ Hin].
  cbn [_refresh_houses house_vars]. rewrite Hin.
  split; [|by right]. by intros [?%elem_of_nil|?].
Qed.

Lemma selected_house_on_form app sel :
  sel ∈ selected_houses app → sel.1.1 ∈ (house_vars app).*1.
Proof.
  unfold selected_houses. intros ([k v] & -> & Hkv)%list_elem_of_fmap.
  apply list_elem_of_filter in Hkv as [_ Hkv]. simpl.
  apply list_elem_of_fmap. by exists (k, v).
Qed.

(** When a commit gets as far as the mail, every INSERT having gone
    through, the query of [_refresh_houses] no longer gives the houses of
    the batch for the date of the commit.  The form follows only when it is
    refreshed.  If the mail went out, the handler refreshes it and no row
    of the batch is left on it.  If the mail failed, the handler does not
    refresh it: the rows of the batch stay on the form, ticked as they
    were, and are gone at the next refresh of the house list. *)
Theorem committed_houses_are_taken
    (clock : nat → string) (smtp_error : option string) (app : App)
    (sel : Z * Z * string) :
  sel ∈ selected_houses app →
  is_Some (handed_over (_send_assignments clock smtp_error app).2) →
  let app' := (_send_assignments clock smtp_error app).1 in
  (∀ h, h_id h = sel.1.1 →
        h ∉ available_houses (db app') (date_picker app))
  ∧ (smtp_error = None → sel.1.1 ∉ (house_vars app').*1)
  ∧ (smtp_error ≠ None →
     house_vars app' = house_vars app
     ∧ sel ∈ selected_houses app'
     ∧ sel.1.1 ∈ (house_vars app').*1
     ∧ sel.1.1 ∉ (house_vars (_refresh_houses app')).*1).
Proof.
  intros Hin Hreached app'. subst app'.
  destruct (send_assignments_reached _ _ _ Hreached)
    as (worker & d & Hworker & Hsel & Hdate & Hins & Hdb).
  destruct (send_assignments_insertable clock smtp_error app worker d
              Hworker Hsel Hdate Hins) as (_ & Hsent & Hfailed & _).
  assert (Htaken : ∀ s h,
            s = with_new_assignments clock 0 (w_id worker)
                  (selected_houses app) (strftime_Ymd d) (db app) →
            h_id h = sel.1.1 → h ∉ available_houses s (Some d)).
  { intros s h -> Hid Havailable. unfold available_houses in Havailable.
    apply list_elem_of_filter in Havailable as [Hfree _]. apply Hfree.
    apply assigned_house_iff. unfold has_delivered_record.
    destruct (with_new_assignments_rows clock 0 (w_id worker)
                (selected_houses app) (strftime_Ymd d) (db app)) as [-> _].
    apply Exists_app. right. apply Exists_exists.
    apply list_elem_of_lookup in Hin as [i Hi].
    eexists. split.
    - apply elem_of_lookup_imap. eauto.
    - unfold assigned_on.
      destruct (new_assignment_fields
                  (next_id (seq_history (db app))
                     (a_id <$> assignment_history (db app)) + Z.of_nat i)
                  (clock (0 + i)%nat) (w_id worker) sel (strftime_Ymd d))
        as (-> & _ & _ & _ & -> & -> & _).
      by rewrite Hid. }
  rewrite Hdate. split_and!.
  - intros h. by apply Htaken.
  - intros Hnone Hrow. rewrite (Hsent Hnone) in Hrow.
    apply refresh_houses_rows in Hrow.
    apply list_elem_of_fmap in Hrow as (h & Hid & Hh).
    cbn [_clear_house_selections set_db db date_picker] in Hh.
    rewrite Hdate in Hh. exact (Htaken _ h eq_refl (eq_sym Hid) Hh).
  - intros Hsome. rewrite (Hfailed Hsome).
    split_and!; [done|done|by apply selected_house_on_form|].
    intros Hrow. apply refresh_houses_rows in Hrow.
    apply list_elem_of_fmap in Hrow as (h & Hid & Hh).
    cbn [set_db db date_picker] in Hh.
    rewrite Hdate in Hh. exact (Htaken _ h eq_refl (eq_sym Hid) Hh).
Qed.

Lemma committed_houses_are_taken_witness :
  (2, 2, "late ok") ∈ selected_houses ready
  ∧ is_Some (handed_over (_send_assignments noon None ready).2)
  ∧ 2 ∉ (house_vars (_send_assignments noon None ready).1).*1.
Proof.
  assert (Hsel : (2, 2, "late ok") ∈ selected_houses ready)
    by (apply (bool_decide_unpack _); by vm_compute).
  assert (Hsent : is_Some (handed_over (_send_assignments noon None ready).2))
    by (vm_compute; eauto).
  split_and!; [exact Hsel|exact Hsent|].
  exact (proj1 (proj2 (committed_houses_are_taken noon None ready
                         (2, 2, "late ok") Hsel Hsent)) eq_refl).
Defined.

(** ** A commit and the history listing *)

Lemma filter_unique_key {A} (key : A → Z) (l : list A) (x : A) :
  NoDup (key <$> l) → x ∈ l →
  filter (λ y, Some (key x) = Some (key y)) l = [x].
Proof.
  induction l as [|y l IH]; intros Hnd Hx; [by apply elem_of_nil in Hx|].
  rewrite fmap_cons in Hnd. apply NoDup_cons in Hnd as [Hy Hnd].
  apply elem_of_cons in Hx as [->|Hx].
  - rewrite filter_cons_True by done. f_equal.
    apply filter_nil_iff. intros z Hz [= Hkey]. apply Hy. rewrite Hkey.
    by apply list_elem_of_fmap_2.
  - rewrite filter_cons_False; [by apply IH|].
    intros [= Hkey]. apply Hy. rewrite <- Hkey. by apply list_elem_of_fmap_2.
Qed.

Lemma bind_length_singletons {A B} (g : A → list B) (l : list A) :
  (∀ a, a ∈ l → length (g a) = 1%nat) → length (l ≫= g) = length l.
Proof.
  induction l as [|a l IH]; intros Hg; [done|].
  rewrite bind_cons, length_app, Hg by left. simpl. f_equal.
  apply IH. intros a' Ha'. apply Hg. by right.
Qed.

Lemma bind_one {A B} (g : A → list B) (x : A) : [x] ≫= g = g x.
Proof. rewrite bind_cons. apply app_nil_r. Qed.

Lemma selected_house_stored app sel :
  consistent app → sel ∈ selected_houses app →
  ∃ h, h ∈ houses (db app) ∧ h_id h = sel.1.1.
Proof.
  intros (_ & _ & _ & Hrows & _) Hsel. unfold selected_houses in Hsel.
  apply list_elem_of_fmap in Hsel as ([k v] & -> & Hkv).
  apply list_elem_of_filter in Hkv as [_ Hkv]. simpl.
  apply Hrows. apply list_elem_of_fmap. by exists (k, v).
Qed.

Section commit_listing.
Context `{Platform}.

(** The lines that the rows of a batch add to the history listing when
    the worker and the houses of the batch are stored. *)
Lemma with_new_assignments_listed clock worker_id front date s w0 :
  NoDup (w_id <$> workers s) → NoDup (h_id <$> houses s) →
  w0 ∈ workers s → w_id w0 = worker_id →
  (∀ sel, sel ∈ front → ∃ h, h ∈ houses s ∧ h_id h = sel.1.1) →
  let s' := with_new_assignments clock 0 worker_id front date s in
  length (_load_history_data s')
  = (length (_load_history_data s) + length front)%nat
  ∧ (∀ r, r ∈ _load_history_data s → r ∈ _load_history_data s')
  ∧ (∀ sel, sel ∈ front →
       ∃ h r, h ∈ houses s ∧ h_id h = sel.1.1
              ∧ r ∈ _load_history_data s'
              ∧ r_worker r = w_name w0 ∧ r_house r = h_name h
              ∧ r_quantity r = Some sel.1.2 ∧ r_note r = sel.2
              ∧ r_assignment_date r = format_assignment_date (Some date)
              ∧ r_status r = "Sent").
Proof.
  intros Hwnd Hhnd Hw0 Hw0id Hhouse s'.
  destruct (with_new_assignments_rows clock 0 worker_id front date s)
    as (Hrows & Hw & Hh & _).
  fold s' in Hrows, Hw, Hh. clearbody s'.
  set (new := imap (λ i sel, new_assignment
                 (next_id (seq_history s)
                    (a_id <$> assignment_history s) + Z.of_nat i)
                 (clock (0 + i)%nat) worker_id sel date) front) in *.
  set (g := λ (s : Store) (a : Assignment),
         w ← filter (λ w, a_worker_id a = Some (w_id w)) (workers s);
         h ← filter (λ h, a_house_id a = Some (h_id h)) (houses s);
         [(a, w, h)]).
  assert (Hjoin : history_join s' = history_join s ++ (new ≫= g s)).
  { unfold history_join. rewrite Hrows, bind_app. unfold g.
    by rewrite Hw, Hh. }
  assert (Hnew : ∀ a, a ∈ new →
            ∃ sel h, sel ∈ front ∧ h ∈ houses s
                     ∧ h_id h = sel.1.1
                     ∧ g s a = [(a, w0, h)]).
  { intros a (i & sel & -> & Hi)%elem_of_lookup_imap.
    assert (Hin : sel ∈ front) by (by eapply list_elem_of_lookup_2).
    destruct (Hhouse sel Hin) as (h & Hhin & Hhid).
    exists sel, h.
    destruct (new_assignment_fields
                (next_id (seq_history s)
                   (a_id <$> assignment_history s) + Z.of_nat i)
                (clock (0 + i)%nat) worker_id sel date)
      as (Fh & Fw & _).
    split_and!; try done. unfold g. rewrite Fw, Fh, <- Hw0id, <- Hhid.
    rewrite (filter_unique_key w_id) by done.
    rewrite bind_one.
    rewrite (filter_unique_key h_id) by done. by rewrite bind_one. }
  assert (Hlen : length (history_join s')
                 = (length (history_join s) + length front)%nat).
  { rewrite Hjoin, length_app. f_equal.
    rewrite bind_length_singletons.
    - unfold new. by rewrite length_imap.
    - intros a Ha. by destruct (Hnew a Ha) as (? & ? & _ & _ & _ & ->). }
  assert (Hlisted : ∀ s t, t ∈ history_join s →
            history_row (select_columns t) ∈ _load_history_data s).
  { intros s1 t Ht. rewrite load_history_data_rows. unfold history_query.
    rewrite <- list_fmap_compose.
    apply (list_elem_of_fmap_2 (history_row ∘ select_columns)).
    unfold history_sorted. by rewrite merge_sort_Permutation. }
  split_and!.
  - rewrite !load_history_data_rows. unfold history_query, history_sorted.
    rewrite !length_fmap, !merge_sort_Permutation. done.
  - intros r. rewrite !load_history_data_rows. unfold history_query.
    intros (t & -> & (j & -> & Hj)%list_elem_of_fmap)%list_elem_of_fmap.
    apply list_elem_of_fmap. exists (select_columns j). split; [done|].
    apply list_elem_of_fmap_2. unfold history_sorted in *.
    rewrite merge_sort_Permutation in Hj. rewrite merge_sort_Permutation.
    rewrite Hjoin. apply elem_of_app. by left.
  - intros sel Hin. destruct (Hhouse sel Hin) as (h & Hhin & Hhid).
    apply list_elem_of_lookup in Hin as [i Hi].
    set (a := new_assignment
                (next_id (seq_history s)
                   (a_id <$> assignment_history s) + Z.of_nat i)
                (clock (0 + i)%nat) worker_id sel date).
    assert (Ha : a ∈ new) by (apply elem_of_lookup_imap; eauto).
    destruct (new_assignment_fields
                (next_id (seq_history s)
                   (a_id <$> assignment_history s) + Z.of_nat i)
                (clock (0 + i)%nat) worker_id sel date)
      as (Fh & Fw & Fq & Fn & Fd & Fs & _).
    fold a in Fh, Fw, Fq, Fn, Fd, Fs. clearbody a.
    assert (Hrow : history_row (select_columns (a, w0, h))
                   ∈ _load_history_data s').
    { apply Hlisted. apply elem_of_history_join.
      rewrite Hrows, Hw, Hh, Fw, Fh. split_and!; try done.
      - apply elem_of_app. by right.
      - by rewrite Hw0id.
      - by rewrite Hhid. }
    exists h, (history_row (select_columns (a, w0, h))).
    split_and!; try done;
      cbn [history_row select_columns r_worker r_house r_quantity r_note
           r_assignment_date r_status t_worker_name t_house_name t_quantity
           t_note t_assignment_date t_email_sent];
      by rewrite ?Fq, ?Fn, ?Fd, ?Fs.
Qed.

(** In a session, a commit that passes the checks takes no line from the
    history listing.  When it gets as far as the mail, every INSERT having
    gone through, the listing has one more line for each selection: the
    line shows the stored name of the worker and of the house, the quantity
    and the note of the selection, the date of the commit and the status
    Sent, whether the mail then went out or not.  When an INSERT raises,
    the listing has one more line for each selection before the failing
    one, and none for the others. *)
Theorem commit_shows_in_history
    (clock : nat → string) (smtp_error : option string) (app : App)
    (worker : Worker) (d : Date) :
  consistent app → keys_ok (db app) →
  current_worker app = Some worker →
  selected_houses app ≠ [] →
  date_picker app = Some d →
  let result := _send_assignments clock smtp_error app in
  let s' := db result.1 in
  (∀ r, r ∈ _load_history_data (db app) → r ∈ _load_history_data s')
  ∧ (is_Some (handed_over result.2) →
     length (_load_history_data s')
     = (length (_load_history_data (db app))
        + length (selected_houses app))%nat
     ∧ ∀ sel, sel ∈ selected_houses app →
         ∃ w h r, w ∈ workers (db app) ∧ w_id w = w_id worker
                  ∧ h ∈ houses (db app) ∧ h_id h = sel.1.1
                  ∧ r ∈ _load_history_data s'
                  ∧ r_worker r = w_name w ∧ r_house r = h_name h
                  ∧ r_quantity r = Some sel.1.2 ∧ r_note r = sel.2
                  ∧ r_assignment_date r
                    = format_assignment_date (Some (strftime_Ymd d))
                  ∧ r_status r = "Sent")
  ∧ (handed_over result.2 = None →
     ∃ front sel rest e,
       selected_houses app = front ++ sel :: rest
       ∧ insert_error (db app) (w_id worker) sel = Some e
       ∧ length (_load_history_data s')
         = (length (_load_history_data (db app)) + length front)%nat).
Proof.
  intros Hcons ([Hwnd _] & [Hhnd _] & _) Hworker Hsel Hdate result s'.
  destruct (send_assignments_db clock smtp_error app worker d Hworker Hsel
              Hdate) as (Hdb & Hmail & _).
  destruct (save_assignments_to_db_stops clock 0 (w_id worker)
              (selected_houses app) (strftime_Ymd d) (db app))
    as (front & rest & Heq & Hstored & _ & Hraised).
  assert (Hs' : s' = with_new_assignments clock 0 (w_id worker) front
                       (strftime_Ymd d) (db app)).
  { subst s' result. by rewrite Hdb, Hstored. }
  fold result in Hmail. clearbody s' result. subst s'.
  pose proof Hcons as (_ & _ & _ & _ & Hstored_worker).
  destruct (Hstored_worker worker Hworker) as (w0 & Hw0 & Hw0id).
  destruct (with_new_assignments_listed clock (w_id worker) front
              (strftime_Ymd d) (db app) w0 Hwnd Hhnd Hw0 Hw0id)
    as (Hlen & Hold & Hnew).
  { intros sel Hin. apply selected_house_stored; [done|].
    rewrite Heq. apply elem_of_app. by left. }
  split_and!.
  - exact Hold.
  - intros Hreached. apply Hmail in Hreached. rewrite Hreached in Hraised.
    subst rest. rewrite app_nil_r in Heq. subst front.
    split; [exact Hlen|]. intros sel Hin.
    destruct (Hnew sel Hin) as (h & r & Hh & Hid & Hr & Hfields).
    by exists w0, h, r.
  - intros Hnone.
    destruct (_save_assignments_to_db clock 0 (w_id worker)
                (selected_houses app) (strftime_Ymd d) (db app)).2
      as [e|] eqn:He.
    + destruct Hraised as (sel & rest' & -> & Herror).
      by exists front, sel, rest', e.
    + destruct (proj2 Hmail eq_refl) as [m Hm]. by rewrite Hnone in Hm.
Qed.
End commit_listing.

Lemma consistent_ready : consistent ready.
Proof. apply run_consistent, consistent_opened. Qed.

Lemma keys_ok_ready : keys_ok (db ready).
Proof. apply run_keys_ok, keys_ok_opened. Qed.

Lemma commit_shows_in_history_witness :
  selected_houses ready ≠ []
  ∧ is_Some (handed_over (_send_assignments noon (Some "timed out") ready).2)
  ∧ length (_load_history_data (H := ascii_platform)
              (db (_send_assignments noon (Some "timed out") ready).1))
    = (length (_load_history_data (H := ascii_platform) (db ready))
       + length (selected_houses ready))%nat.
Proof.
  assert (Hsel : selected_houses ready ≠ []) by (by vm_compute).
  assert (Hfailed : is_Some (handed_over
            (_send_assignments noon (Some "timed out") ready).2))
    by (vm_compute; eauto).
  split_and!; [exact Hsel|exact Hfailed|].
  exact (proj1 (proj1 (proj2 (commit_shows_in_history (H := ascii_platform)
                  noon (Some "timed out") ready ana may_first
                  consistent_ready keys_ok_ready eq_refl Hsel eq_refl))
                Hfailed)).
Defined.

(** ** Changing and editing the worker *)

(** Selecting a worker, or unselecting the worker, empties the form: no
    row is ticked, every quantity is 1 and every note is gone, so a commit
    right after it is turned down for want of a house.  A selection that
    points at no line of the list changes nothing. *)
Theorem worker_change_clears_form (app : App) :
  (∀ i w, workers_cache app !! i = Some w →
     let app' := _on_worker_select (Some i) app in
     current_worker app' = Some w
     ∧ selected_houses app' = []
     ∧ house_notes app' = ∅
     ∧ Forall (λ kv, kv.2 = 1) (house_qty app')
     ∧ ∀ clock smtp_error,
         _send_assignments clock smtp_error app'
         = (app', {| handed_over := None;
                     shown := ErrorBox "Please select at least one house." |}))
  ∧ (let app' := _unselect_worker app in
     current_worker app' = None
     ∧ selected_houses app' = []
     ∧ house_notes app' = ∅
     ∧ Forall (λ kv, kv.2 = 1) (house_qty app'))
  ∧ _on_worker_select None app = app
  ∧ (∀ i, workers_cache app !! i = None → _on_worker_select (Some i) app = app).
Proof.
  split_and!.
  - intros i w Hw app'.
    assert (Happ : app' = _refresh_houses (_clear_house_selections
                            (set_current_worker (Some w) app))).
    { subst app'. unfold _on_worker_select. simpl. by rewrite Hw. }
    assert (Hnone : selected_houses app' = []).
    { rewrite Happ. apply refresh_houses_unticked. }
    split_and!; [by rewrite Happ|done|by rewrite Happ| |].
    + rewrite Happ. simpl. by apply create_house_rows_fresh.
    + intros clock smtp_error. unfold _send_assignments. rewrite Hnone.
      replace (current_worker app') with (Some w); [done|]. by rewrite Happ.
  - split_and!; [done|apply refresh_houses_unticked|done|].
    simpl. by apply create_house_rows_fresh.
  - done.
  - intros i Hi. unfold _on_worker_select. simpl. by rewrite Hi.
Qed.

Lemma worker_change_clears_form_witness :
  workers_cache ready !! 0%nat = Some ana
  ∧ selected_houses (_on_worker_select (Some 0%nat) ready) = [].
Proof.
  assert (Hcache : workers_cache ready !! 0%nat = Some ana) by (by vm_compute).
  split; [exact Hcache|].
  exact (proj1 (proj2 (proj1 (worker_change_clears_form ready) 0%nat ana
                         Hcache))).
Defined.

(** Editing a worker rewrites the stored row and the list, not the
    selection: when the selected worker is edited, the next commit is still
    mailed to the address, and greets the name, that the worker had when
    selected.  (The message is handed over when every INSERT of the commit
    has gone through, as after any other event.) *)
Theorem commit_uses_worker_as_selected
    (clock : nat → string) (smtp_error : option string) (app : App)
    (w w0 : Worker) (i : nat) (name email : string) (d : Date) :
  current_worker app = Some w →
  workers_cache app !! i = Some w0 →
  w_id w0 = w_id w →
  selected_houses app ≠ [] →
  date_picker app = Some d →
  let app1 := (_edit_worker (Some i) (Some (name, email)) app).1 in
  (∀ w', w' ∈ workers (db app1) → w_id w' = w_id w →
         w_name w' = name ∧ w_email w' = email)
  ∧ current_worker app1 = Some w
  ∧ handed_over (_send_assignments clock smtp_error app1).2
    = (if decide (insertable (db app) (w_id w) (selected_houses app))
       then Some (assignment_email (w_email w) (w_name w)
                    (_prepare_assignment_data app1 (selected_houses app))
                    (strftime_dmY d))
       else None).
Proof.
  intros Hw Hw0 Hid Hsel Hdate app1.
  assert (Happ : app1 = _refresh_workers
                          (set_db (update_worker name email (w_id w0) (db app))
                                  app)).
  { subst app1. unfold _edit_worker. simpl. by rewrite Hw0. }
  split_and!.
  - intros w' Hin Hid'. rewrite Happ in Hin. simpl in Hin.
    apply list_elem_of_fmap in Hin as (w1 & -> & _).
    case_decide as Hcase; [done|]. simpl in Hid'. congruence.
  - by rewrite Happ.
  - assert (Hsame : ∀ sel, insert_error (db app1) (w_id w) sel
                           = insert_error (db app) (w_id w) sel).
    { intros sel. apply insert_error_schema. by rewrite Happ. }
    unfold _send_assignments.
    replace (current_worker app1) with (Some w) by (by rewrite Happ).
    replace (date_picker app1) with (Some d) by (by rewrite Happ).
    replace (selected_houses app1) with (selected_houses app)
      by (by rewrite Happ).
    destruct (selected_houses app) as [|sel rest] eqn:Hselected; [done|].
    case_decide as Hins.
    + rewrite save_assignments_to_db_insertable; [by destruct smtp_error|].
      eapply Forall_impl; [exact Hins|]. intros x Hx. simpl in Hx.
      by rewrite Hsame.
    + destruct (_save_assignments_to_db clock 0 (w_id w) (sel :: rest)
                  (strftime_Ymd d) (db app1)).2 as [e|] eqn:He; [done|].
      destruct Hins. apply save_assignments_to_db_None in He.
      eapply Forall_impl; [exact He|]. intros x Hx. simpl in Hx.
      by rewrite <- Hsame.
Qed.

Lemma commit_uses_worker_as_selected_witness :
  to_email <$> handed_over
    (_send_assignments noon None
       (_edit_worker (Some 0%nat) (Some ("Ana", "ana@new.org")) ready).1).2
  = Some "ana@x.com".
Proof.
  assert (Hsel : selected_houses ready ≠ []) by (by vm_compute).
  assert (Hcache : workers_cache ready !! 0%nat = Some ana) by (by vm_compute).
  assert (Hins : insertable (db ready) (w_id ana) (selected_houses ready))
    by (apply (bool_decide_unpack _); by vm_compute).
  pose proof (proj2 (proj2 (commit_uses_worker_as_selected noon None ready ana
                         ana 0%nat "Ana" "ana@new.org" may_first
                         eq_refl Hcache eq_refl Hsel eq_refl))) as Hmail.
  rewrite (decide_True _ _ Hins) in Hmail.
  exact (f_equal (fmap to_email) Hmail).
Defined.

(** ** The lines of the notification *)

Lemma house_names_fold (l : list House) (m0 : gmap Z string) (k : Z) :
  foldl (λ m h, <[h_id h := h_name h]> m) m0 l !! k
  = match last (filter (λ h, h_id h = k) l) with
    | Some h => Some (h_name h)
    | None => m0 !! k
    end.
Proof.
  revert m0. induction l as [|a l IH]; intros m0; [done|].
  cbn [foldl]. rewrite IH. destruct (decide (h_id a = k)) as [Hk|Hk].
  - rewrite filter_cons_True by done. rewrite last_cons.
    destruct (last (filter _ l)); [done|].
    rewrite <- Hk. by rewrite lookup_insert_eq.
  - rewrite filter_cons_False by done.
    destruct (last (filter _ l)); [done|]. by rewrite lookup_insert_ne.
Qed.

Lemma last_filter_unique (l : list House) (h : House) :
  NoDup (h_id <$> l) → h ∈ l →
  last (filter (λ h', h_id h' = h_id h) l) = Some h.
Proof.
  intros Hnd Hh.
  assert (Hin : h ∈ filter (λ h', h_id h' = h_id h) l)
    by (by apply list_elem_of_filter).
  destruct (last (filter _ l)) as [h'|] eqn:Hlast.
  - apply last_Some_elem_of in Hlast.
    apply list_elem_of_filter in Hlast as [Hid Hh'].
    f_equal. clear Hin.
    induction l as [|a l IH]; [by apply elem_of_nil in Hh|].
    rewrite fmap_cons in Hnd. apply NoDup_cons in Hnd as [Ha Hnd].
    apply elem_of_cons in Hh as [->|Hh], Hh' as [->|Hh']; auto.
    + exfalso. apply Ha. rewrite <- Hid. by apply list_elem_of_fmap_2.
    + exfalso. apply Ha. rewrite Hid. by apply list_elem_of_fmap_2.
  - apply last_None in Hlast. rewrite Hlast in Hin. by apply elem_of_nil in Hin.
Qed.

(** The notification names each selected house after the house list on
    screen: a line keeps the quantity and the note of its selection, in
    the order of the selections, and carries the name of the last house of
    the list with that key, or ["House-<key>"] when the list has none.  In
    a session the list has exactly one such house, the stored one. *)
Theorem prepare_assignment_data_lines (app : App)
    (selected : list (Z * Z * string)) :
  length (_prepare_assignment_data app selected) = length selected
  ∧ (∀ i sel, selected !! i = Some sel →
       _prepare_assignment_data app selected !! i
       = Some {| house_name :=
                   match last (filter (λ h, h_id h = sel.1.1) (all_houses app))
                   with
                   | Some h => h_name h
                   | None => "House-" +:+ str_of_Z sel.1.1
                   end;
                 quantity := sel.1.2; note := sel.2 |})
  ∧ (consistent app → keys_ok (db app) →
     ∀ i sel h, selected !! i = Some sel →
       h ∈ houses (db app) → h_id h = sel.1.1 →
       house_name <$> _prepare_assignment_data app selected !! i
       = Some (h_name h)).
Proof.
  assert (Hline : ∀ i sel, selected !! i = Some sel →
       _prepare_assignment_data app selected !! i
       = Some {| house_name :=
                   match last (filter (λ h, h_id h = sel.1.1) (all_houses app))
                   with
                   | Some h => h_name h
                   | None => "House-" +:+ str_of_Z sel.1.1
                   end;
                 quantity := sel.1.2; note := sel.2 |}).
  { intros i [[k q] n] Hi. unfold _prepare_assignment_data.
    rewrite list_lookup_fmap, Hi. simpl. do 2 f_equal.
    unfold house_names. rewrite house_names_fold, lookup_empty.
    by destruct (last (filter _ (all_houses app))). }
  split_and!; [by unfold _prepare_assignment_data; rewrite length_fmap|done|].
  intros (_ & Hall & _) (_ & [Hnd _] & _) i sel h Hi Hh Hid.
  rewrite (Hline i sel Hi). simpl. rewrite <- Hid.
  rewrite last_filter_unique; [done| |].
  - rewrite Hall. unfold select_houses. by rewrite merge_sort_Permutation.
  - rewrite Hall. by rewrite select_houses_perm.
Qed.

Lemma prepare_assignment_data_lines_witness :
  house_name <$> _prepare_assignment_data ready (selected_houses ready) !! 0%nat
  = Some "Bayview".
Proof.
  assert (Hsel : selected_houses ready !! 0%nat = Some (2, 2, "late ok"))
    by (by vm_compute).
  assert (Hin : {| h_id := 2; h_name := "Bayview" |} ∈ houses (db ready))
    by (apply (bool_decide_unpack _); by vm_compute).
  exact (proj2 (proj2 (prepare_assignment_data_lines ready
                         (selected_houses ready)))
           consistent_ready keys_ok_ready 0%nat (2, 2, "late ok")
           {| h_id := 2; h_name := "Bayview" |} Hsel Hin eq_refl).
Defined.

(** ** What the migration writes *)

Section backfill.
Context `{Platform}.

Lemma history_is_create st s rows cols :
  st = CreateWorkers ∨ st = CreateHouses ∨ st = CreateHistory →
  history_is s rows cols →
  ∃ s', run_stmt st s = Some s' ∧ history_is s' rows cols.
Proof.
  intros Hst [Hrows Hcols]. unfold history_is.
  destruct Hst as [-> | [-> | ->]]; simpl; eexists; (split; [done|]).
  - rewrite create_table_other by done. split; [|done].
    unfold create_table_if_not_exists, with_new_table.
    by destruct (schema s !! "workers").
  - rewrite create_table_other by done. split; [|done].
    unfold create_table_if_not_exists, with_new_table.
    by destruct (schema s !! "houses").
  - unfold create_table_if_not_exists. by rewrite Hcols.
Qed.

Lemma history_is_add_column col fill s rows cols :
  history_is s rows cols → col ∉ cols →
  ∃ s', add_column col fill s = Some s'
        ∧ history_is s' (fill <$> rows) (cols ++ [col]).
Proof.
  intros [Hrows Hcols] Hcol. unfold add_column. rewrite Hcols.
  rewrite decide_False by done. eexists. split; [done|].
  unfold history_is. simpl. by rewrite lookup_insert_eq, Hrows.
Qed.

Lemma history_is_update needs change s rows cols :
  history_is s rows cols → needs ⊆ cols →
  ∃ s', update_history needs change s = Some s'
        ∧ history_is s' (change <$> rows) cols.
Proof.
  intros [Hrows Hcols] Hneeds. unfold update_history. rewrite Hcols.
  rewrite decide_True by done. eexists. split; [done|].
  unfold history_is. simpl. by rewrite Hrows.
Qed.

Lemma initialize_legacy_body s cols :
  schema s !! "assignment_history" = Some cols →
  "assignment_date" ∉ cols → "email_sent" ∉ cols → "date_assigned" ∈ cols →
  succeeds (init_body no_faults) (connect s)
    (λ _ c, history_is (committed c)
              (migrated_record <$> assignment_history s)
              (cols ++ ["assignment_date"; "email_sent"])
            ∧ stdout c = [ Line "Added assignment_date column.";
                           Line "Added email_sent column.";
                           Line "Database initialized successfully." ]).
Proof.
  intros Hcols Hdate Hsent Hsource.
  assert (H0 : history_is s (assignment_history s) cols) by done.
  unfold init_body, _create_tables, _migrate_database.
  destruct (history_is_create CreateWorkers s _ _ (or_introl eq_refl) H0)
    as (s1 & Hs1 & H1).
  destruct (history_is_create CreateHouses s1 _ _
              (or_intror (or_introl eq_refl)) H1) as (s2 & Hs2 & H2).
  destruct (history_is_create CreateHistory s2 _ _
              (or_intror (or_intror eq_refl)) H2) as (s3 & Hs3 & H3).
  apply succeeds_bind, succeeds_bind.
  eapply succeeds_execute; [done|exact Hs1|]. intros c1 Hw1 Ho1.
  apply succeeds_bind.
  eapply succeeds_execute; [done|by rewrite Hw1|]. intros c2 Hw2 Ho2.
  eapply succeeds_execute; [done|by rewrite Hw2|]. intros c3 Hw3 Ho3.
  apply succeeds_bind, succeeds_bind.
  eapply succeeds_execute; [done|simpl; done|]. intros c4 Hw4 Ho4.
  apply succeeds_bind, succeeds_fetch_table_info.
  unfold table_info. rewrite Hw4, Hw3. destruct H3 as [Hr3 Hc3] eqn:HH3.
  rewrite Hc3. simpl. rewrite !decide_False by done.
  destruct (history_is_add_column "assignment_date"
              (with_assignment_date None) s3 _ _ H3 Hdate) as (s5 & Hs5 & H5).
  edestruct (history_is_update ["assignment_date"; "date_assigned"]
               (λ a, if a_assignment_date a is None
                     then with_assignment_date (sql_DATE (a_date_assigned a)) a
                     else a) s5) as (s6 & Hs6 & H6); [exact H5| |].
  { intros x [->|[->|?%elem_of_nil]%elem_of_cons]%elem_of_cons;
      apply elem_of_app; [right; left|by left|done]. }
  destruct (history_is_add_column "email_sent" (with_email_sent (Some 1))
              s6 _ _ H6) as (s7 & Hs7 & H7).
  { intros [?|?%list_elem_of_singleton]%elem_of_app; done. }
  edestruct (history_is_update ["email_sent"]
               (λ a, if a_email_sent a is None
                     then with_email_sent (Some 1) a else a) s7)
    as (s8 & Hs8 & H8); [exact H7| |].
  { intros x [->|?%elem_of_nil]%elem_of_cons; [|done].
    apply elem_of_app. right. left. }
  apply succeeds_bind, succeeds_bind.
  eapply succeeds_execute; [done|by rewrite Hw4, Hw3|]. intros c5 Hw5 Ho5.
  apply succeeds_bind.
  eapply succeeds_execute; [done|by rewrite Hw5|]. intros c6 Hw6 Ho6.
  apply succeeds_print. intros c7 Hw7 Hc7 Ho7.
  apply succeeds_bind.
  eapply succeeds_execute; [done|by rewrite Hw7, Hw6|]. intros c8 Hw8 Ho8.
  apply succeeds_bind.
  eapply succeeds_execute; [done|by rewrite Hw8|]. intros c9 Hw9 Ho9.
  apply succeeds_print. intros c10 Hw10 Hc10 Ho10.
  apply succeeds_bind, succeeds_commit; [done|]. intros c11 Hw11 Hc11 Ho11.
  apply succeeds_print. intros c12 Hw12 Hc12 Ho12.
  split.
  - rewrite Hc12, Hc11, Hw10, Hw9. destruct H8 as [Hr8 Hc8].
    split.
    + rewrite Hr8, <- !list_fmap_compose. apply list_fmap_ext.
      intros i a _. by destruct a.
    + by rewrite Hc8, <- app_assoc.
  - rewrite Ho12, Ho11, Ho10, Ho9, Ho8, Ho7, Ho6, Ho5, Ho4, Ho3, Ho2, Ho1.
    done.
Qed.

(** On a store of the first version of the program (a history table
    without the two later columns) an undisturbed initialisation adds the
    two columns after the old ones and rewrites every record in place: the
    target date becomes [DATE(date_assigned)], the delivery flag 1, the
    other columns stay.  Each old record so counts as delivered on the day
    it was written. *)
Theorem migration_backfills_old_records (s : Store) (cols : list string) :
  schema s !! "assignment_history" = Some cols →
  "assignment_date" ∉ cols → "email_sent" ∉ cols → "date_assigned" ∈ cols →
  let r := initialize_database no_faults s in
  outcome r = Returned
  ∧ assignment_history (store_after r)
    = migrated_record <$> assignment_history s
  ∧ table_info (store_after r) = cols ++ ["assignment_date"; "email_sent"]
  ∧ printed r = [ Line "Added assignment_date column.";
                  Line "Added email_sent column.";
                  Line "Database initialized successfully." ]
  ∧ (∀ a hid day, a ∈ assignment_history s → a_house_id a = Some hid →
       sql_DATE (a_date_assigned a) = Some day →
       has_delivered_record (store_after r) day hid).
Proof.
  intros Hcols Hdate Hsent Hsource r.
  destruct (initialize_database_succeeds no_faults s
              (λ s' out, history_is s'
                           (migrated_record <$> assignment_history s)
                           (cols ++ ["assignment_date"; "email_sent"])
                         ∧ out = [ Line "Added assignment_date column.";
                                   Line "Added email_sent column.";
                                   Line "Database initialized successfully." ])
              eq_refl (initialize_legacy_body s cols Hcols Hdate Hsent Hsource))
    as (Hret & [Hrows Hschema] & Hout).
  fold r in Hret, Hrows, Hschema, Hout.
  split_and!; [done..|by unfold table_info; rewrite Hschema|done|].
  intros a hid day Ha Hhid Hday. unfold has_delivered_record.
  rewrite Hrows. apply Exists_exists. exists (migrated_record a).
  split; [by apply list_elem_of_fmap_2|].
  unfold assigned_on. simpl. by rewrite Hday.
Qed.
End backfill.

Lemma migration_backfills_old_records_witness :
  assignment_history
    (store_after (initialize_database (H := ascii_platform) no_faults
                    legacy_store))
  = migrated_record (H := ascii_platform) <$> assignment_history legacy_store.
Proof.
  assert (Hcols : schema legacy_store !! "assignment_history"
                  = Some history_columns) by (by vm_compute).
  assert (Hd : "assignment_date" ∉ history_columns)
    by (apply (bool_decide_unpack _); by vm_compute).
  assert (He : "email_sent" ∉ history_columns)
    by (apply (bool_decide_unpack _); by vm_compute).
  assert (Hs : "date_assigned" ∈ history_columns)
    by (apply (bool_decide_unpack _); by vm_compute).
  exact (proj1 (proj2 (migration_backfills_old_records (H := ascii_platform)
                         legacy_store history_columns Hcols Hd He Hs))).
Defined.

(** ** After a failed initialisation *)

Section after_failure.
Context `{Platform}.

Lemma run_stmt_backfill_source st s s' :
  backfill_source_present s → run_stmt st s = Some s' →
  backfill_source_present s'.
Proof.
  unfold backfill_source_present. intros Hs Hrun.
  assert (Hcreate : ∀ name, name = "workers" ∨ name = "houses" →
    match schema (create_table_if_not_exists name s) !! "assignment_history"
    with
    | Some cols => "assignment_date" ∈ cols ∨ "date_assigned" ∈ cols
    | None => True
    end).
  { intros name Hname.
    by rewrite create_table_other by (by destruct Hname as [-> | ->]). }
  destruct st; simpl in Hrun.
  - injection Hrun as <-. apply Hcreate. auto.
  - injection Hrun as <-. apply Hcreate. auto.
  - injection Hrun as <-. rewrite create_history_columns.
    destruct (schema s !! "assignment_history"); simpl; [done|].
    right. unfold history_columns. do 5 right. left.
  - by injection Hrun as <-.
  - unfold add_column in Hrun.
    destruct (schema s !! "assignment_history") as [cols|]; [|done].
    case_decide; [done|]. injection Hrun as <-. simpl.
    rewrite lookup_insert_eq. rewrite !elem_of_app. tauto.
  - unfold update_history in Hrun.
    destruct (schema s !! "assignment_history") as [cols|] eqn:Hc; [|done].
    case_decide; [|done]. injection Hrun as <-. simpl. by rewrite Hc.
  - unfold add_column in Hrun.
    destruct (schema s !! "assignment_history") as [cols|]; [|done].
    case_decide; [done|]. injection Hrun as <-. simpl.
    rewrite lookup_insert_eq. rewrite !elem_of_app. tauto.
  - unfold update_history in Hrun.
    destruct (schema s !! "assignment_history") as [cols|] eqn:Hc; [|done].
    case_decide; [|done]. injection Hrun as <-. simpl. by rewrite Hc.
Qed.

(** A failed initialisation does not stand in the way of the next one:
    whatever failed and whatever the driver had committed by then, an
    undisturbed initialisation of the store left behind runs to the end,
    prints no error and leaves the three tables with all their columns. *)
Theorem initialisation_recovers (f : Faults) (s : Store) :
  backfill_source_present s →
  let left_behind := store_after (initialize_database f s) in
  let r := initialize_database no_faults left_behind in
  backfill_source_present left_behind
  ∧ outcome r = Returned
  ∧ migrated (store_after r)
  ∧ Forall (λ p, ¬ is_error_line p) (printed r).
Proof.
  intros Hs left_behind r.
  assert (Hleft : backfill_source_present left_behind).
  { apply (initialize_database_invariant backfill_source_present); [|done].
    intros st s1 s2. apply run_stmt_backfill_source. }
  split; [done|].
  destruct (initialize_database_succeeds no_faults left_behind
              (λ s' out, migrated s' ∧ Forall (λ p, ¬ is_error_line p) out)
              eq_refl (initialize_any_body left_behind Hleft))
    as (Hret & Hm & Hout).
  done.
Qed.
End after_failure.

Lemma initialisation_recovers_witness :
  backfill_source_present legacy_store
  ∧ migrated
      (store_after
         (initialize_database (H := ascii_platform) no_faults
            (store_after (initialize_database (H := ascii_platform)
                            disk_full_at_email_sent legacy_store)))).
Proof.
  assert (Hsrc : backfill_source_present legacy_store).
  { apply (bool_decide_unpack _). vm_compute. exact I. }
  split; [exact Hsrc|].
  exact (proj1 (proj2 (proj2 (initialisation_recovers (H := ascii_platform)
                                disk_full_at_email_sent legacy_store Hsrc)))).
Defined.

Section lost_backfill.
Context `{Platform}.

Lemma execute_at_once f st s s' :
  stmt_fails f st = false → begins_transaction st = false →
  run_stmt st s = Some s' →
  execute f st (idle s) = (inr (), idle s').
Proof.
  intros Hf Hb Hrun. unfold execute, idle. simpl. by rewrite Hf, Hrun, Hb.
Qed.

Lemma initialize_half_body s rows cols :
  history_is s rows cols →
  "assignment_date" ∈ cols → "email_sent" ∉ cols →
  succeeds (init_body no_faults) (connect s)
    (λ _ c, history_is (committed c) (with_email_sent (Some 1) <$> rows)
              (cols ++ ["email_sent"])).
Proof.
  intros H0 Hdate Hsent.
  unfold init_body, _create_tables, _migrate_database.
  destruct (history_is_create CreateWorkers s _ _ (or_introl eq_refl) H0)
    as (s1 & Hs1 & H1).
  destruct (history_is_create CreateHouses s1 _ _
              (or_intror (or_introl eq_refl)) H1) as (s2 & Hs2 & H2).
  destruct (history_is_create CreateHistory s2 _ _
              (or_intror (or_intror eq_refl)) H2) as (s3 & Hs3 & H3).
  apply succeeds_bind, succeeds_bind.
  eapply succeeds_execute; [done|exact Hs1|]. intros c1 Hw1 Ho1.
  apply succeeds_bind.
  eapply succeeds_execute; [done|by rewrite Hw1|]. intros c2 Hw2 Ho2.
  eapply succeeds_execute; [done|by rewrite Hw2|]. intros c3 Hw3 Ho3.
  apply succeeds_bind, succeeds_bind.
  eapply succeeds_execute; [done|simpl; done|]. intros c4 Hw4 Ho4.
  apply succeeds_bind, succeeds_fetch_table_info.
  unfold table_info. rewrite Hw4, Hw3. pose proof H3 as [Hr3 Hc3].
  rewrite Hc3. simpl. rewrite decide_True, decide_False by done.
  destruct (history_is_add_column "email_sent" (with_email_sent (Some 1))
              s3 _ _ H3 Hsent) as (s5 & Hs5 & H5).
  edestruct (history_is_update ["email_sent"]
               (λ a, if a_email_sent a is None
                     then with_email_sent (Some 1) a else a) s5)
    as (s6 & Hs6 & H6); [exact H5| |].
  { intros x [->|?%elem_of_nil]%elem_of_cons; [|done].
    apply elem_of_app. right. left. }
  apply succeeds_bind, succeeds_ret, succeeds_bind.
  eapply succeeds_execute; [done|by rewrite Hw4, Hw3|]. intros c5 Hw5 Ho5.
  apply succeeds_bind.
  eapply succeeds_execute; [done|by rewrite Hw5|]. intros c6 Hw6 Ho6.
  apply succeeds_print. intros c7 Hw7 Hc7 Ho7.
  apply succeeds_bind, succeeds_commit; [done|]. intros c8 Hw8 Hc8 Ho8.
  apply succeeds_print. intros c9 Hw9 Hc9 Ho9.
  rewrite Hc9, Hc8, Hw7, Hw6. destruct H6 as [Hr6 Hc6]. split; [|done].
  rewrite Hr6, <- list_fmap_compose. apply list_fmap_ext.
  intros i a _. by destruct a.
Qed.

(** With a driver that commits ALTER TABLE at once, a failure of the
    UPDATE that follows the first ALTER costs the old records their target
    date for good: the column stays, empty, so the next initialisation
    skips the backfill.  After it every old record has no target date and
    the delivery flag 1, and none of them keeps a house from being offered
    on any date. *)
Theorem failed_backfill_is_never_redone
    (f : Faults) (s : Store) (cols : list string) :
  commits_schema_changes_at_once →
  fails_at_first_backfill f →
  schema s !! "assignment_history" = Some cols →
  "assignment_date" ∉ cols → "email_sent" ∉ cols →
  let first := initialize_database f s in
  let second := initialize_database no_faults (store_after first) in
  outcome first = Returned
  ∧ table_info (store_after first) = cols ++ ["assignment_date"]
  ∧ outcome second = Returned
  ∧ table_info (store_after second)
    = cols ++ ["assignment_date"; "email_sent"]
  ∧ assignment_history (store_after second)
    = (λ a, with_email_sent (Some 1) (with_assignment_date None a))
        <$> assignment_history s
  ∧ (∀ day hid, ¬ has_delivered_record (store_after second) day hid).
Proof.
  intros (Bw & Bh & Ba & Bt & Bd) (Fc & Fw & Fh & Fa & Ft & Fd & Fb)
    Hcols Hdate Hsent first second.
  assert (H0 : history_is s (assignment_history s) cols) by done.
  destruct (history_is_create CreateWorkers s _ _ (or_introl eq_refl) H0)
    as (s1 & Hs1 & H1).
  destruct (history_is_create CreateHouses s1 _ _
              (or_intror (or_introl eq_refl)) H1) as (s2 & Hs2 & H2).
  destruct (history_is_create CreateHistory s2 _ _
              (or_intror (or_intror eq_refl)) H2) as (s3 & Hs3 & H3).
  destruct (history_is_add_column "assignment_date"
              (with_assignment_date None) s3 _ _ H3 Hdate) as (s5 & Hs5 & H5).
  assert (Hbody : init_body f (connect s)
                  = (inl (StatementError BackfillAssignmentDate), idle s5)).
  { unfold init_body, _create_tables, _migrate_database, cursor_bind.
    change (connect s) with (idle s).
    rewrite (execute_at_once f CreateWorkers s s1) by done.
    rewrite (execute_at_once f CreateHouses s1 s2) by done.
    rewrite (execute_at_once f CreateHistory s2 s3) by done.
    rewrite (execute_at_once f TableInfo s3 s3) by done.
    unfold fetch_table_info, table_info. cbn [working idle].
    destruct H3 as [_ Hc3]. rewrite Hc3. cbn [default].
    rewrite decide_False by done.
    rewrite (execute_at_once f AddAssignmentDate s3 s5) by done.
    unfold execute. by rewrite Fb. }
  assert (Hfirst : outcome first = Returned ∧ store_after first = s5).
  { subst first. unfold initialize_database. by rewrite Fc, Hbody. }
  destruct Hfirst as [Hret Hleft].
  assert (Hsent' : "email_sent" ∉ cols ++ ["assignment_date"]).
  { intros [?|?%list_elem_of_singleton]%elem_of_app; done. }
  assert (Hdate' : "assignment_date" ∈ cols ++ ["assignment_date"]).
  { apply elem_of_app. right. left. }
  destruct (initialize_database_succeeds no_faults s5
              (λ s' _, history_is s'
                         (with_email_sent (Some 1)
                            <$> (with_assignment_date None
                                   <$> assignment_history s))
                         ((cols ++ ["assignment_date"]) ++ ["email_sent"]))
              eq_refl (initialize_half_body s5 _ _ H5 Hdate' Hsent'))
    as (Hret2 & Hrows2 & Hschema2).
  rewrite <- Hleft in Hret2, Hrows2, Hschema2.
  fold second in Hret2, Hrows2, Hschema2.
  assert (Hrows : assignment_history (store_after second)
                  = (λ a, with_email_sent (Some 1) (with_assignment_date None a))
                      <$> assignment_history s).
  { rewrite Hrows2. by rewrite <- list_fmap_compose. }
  split_and!; [done| |done| |done|].
  - rewrite Hleft. unfold table_info. by destruct H5 as [_ ->].
  - unfold table_info. rewrite Hschema2. simpl. by rewrite <- app_assoc.
  - intros day hid. unfold has_delivered_record. rewrite Hrows.
    intros (a' & (a & -> & _)%list_elem_of_fmap & _ & [Hd _])%Exists_exists.
    done.
Qed.
End lost_backfill.

Lemma failed_backfill_is_never_redone_witness :
  a_assignment_date
    <$> assignment_history
          (store_after
             (initialize_database (H := ascii_platform) no_faults
                (store_after (initialize_database (H := ascii_platform)
                                disk_full_at_first_backfill legacy_store))))
  = a_assignment_date
      <$> ((λ a, with_email_sent (Some 1) (with_assignment_date None a))
             <$> assignment_history legacy_store).
Proof.
  assert (Hcols : schema legacy_store !! "assignment_history"
                  = Some history_columns) by (by vm_compute).
  assert (Hd : "assignment_date" ∉ history_columns)
    by (apply (bool_decide_unpack _); by vm_compute).
  assert (He : "email_sent" ∉ history_columns)
    by (apply (bool_decide_unpack _); by vm_compute).
  assert (Hpolicy : commits_schema_changes_at_once (H := ascii_platform))
    by (by repeat split).
  assert (Hfaults : fails_at_first_backfill disk_full_at_first_backfill)
    by (by repeat split).
  exact (f_equal (fmap a_assignment_date)
           (proj1 (proj2 (proj2 (proj2 (proj2
              (failed_backfill_is_never_redone (H := ascii_platform)
                 disk_full_at_first_backfill legacy_store history_columns
                 Hpolicy Hfaults Hcols Hd He))))))).
Defined.

(** ** Searching the house list *)

Section search.
Context `{Platform}.

Lemma lowered_name_unique (l : list House) (h : House) :
  NoDup (h_id <$> l) → h ∈ l → lowered_name l (h_id h) = str_lower (h_name h).
Proof.
  induction l as [|a l IH]; intros Hnd Hh; [by apply elem_of_nil in Hh|].
  rewrite fmap_cons in Hnd. apply NoDup_cons in Hnd as [Ha Hnd].
  simpl. apply elem_of_cons in Hh as [->|Hh].
  - by rewrite decide_True.
  - rewrite decide_False; [by apply IH|].
    intros Hid. apply Ha. rewrite Hid. by apply list_elem_of_fmap_2.
Qed.

Lemma lowered_name_missing (l : list House) (k : Z) :
  k ∉ h_id <$> l → lowered_name l k = "".
Proof.
  induction l as [|a l IH]; intros Hk; [done|]. simpl.
  rewrite fmap_cons in Hk. apply not_elem_of_cons in Hk as [Hne Hk].
  rewrite decide_False by done. by apply IH.
Qed.

(** The search box hides rows and does nothing else: it answers for every
    row on screen, in order; in a session a row stays exactly when the
    lowered search text occurs in the lowered name of its house; and a row
    whose house is not in the list stays only when the lowered search text
    is empty. *)
Theorem filter_houses_correct (search : string) (app : App) :
  (_filter_houses search app).*1 = (house_vars app).*1
  ∧ (consistent app → keys_ok (db app) →
     ∀ k visible, (k, visible) ∈ _filter_houses search app →
       ∃ h, h ∈ houses (db app) ∧ h_id h = k
            ∧ (visible = true
               ↔ contains (str_lower search) (str_lower (h_name h))))
  ∧ (∀ k visible, (k, visible) ∈ _filter_houses search app →
       k ∉ h_id <$> all_houses app →
       (visible = true ↔ str_lower search = "")).
Proof.
  split_and!.
  - unfold _filter_houses. rewrite <- list_fmap_compose.
    generalize ((house_vars app).*1). intros l.
    induction l as [|k l IH]; [done|]. rewrite fmap_cons. by f_equal.
  - intros (_ & Hall & _ & Hrows & _) (_ & [Hnd _] & _) k visible Hin.
    unfold _filter_houses in Hin.
    apply list_elem_of_fmap in Hin as (k' & [= -> ->] & Hk).
    destruct (Hrows k' Hk) as (h & Hh & Hid). exists h.
    split_and!; [done..|]. rewrite <- Hid.
    rewrite lowered_name_unique.
    + apply is_substring_contains.
    + rewrite Hall. unfold select_houses. by rewrite merge_sort_Permutation.
    + rewrite Hall. by rewrite select_houses_perm.
  - intros k visible Hin Hmissing. unfold _filter_houses in Hin.
    apply list_elem_of_fmap in Hin as (k' & [= -> ->] & Hk).
    rewrite lowered_name_missing by done.
    destruct (str_lower search) as [|c rest]; [done|].
    split; [|done]. by destruct rest.
Qed.
End search.

(** In the example, "NORTH" keeps the row of Northgate and hides the row
    of Bayview. *)
Example search_north_keeps_northgate :
  _filter_houses (H := ascii_platform) "NORTH" ready = [(2, false); (1, true)].
Proof. by vm_compute. Qed.
